(** * govault: the authentication cache and the retry-after-login protocol

    A shallow embedding of [structs.go], the authentication file
    ([checkAuthNeeded], [GetTokenTTL], [tokenRefreshNeeded], [SetToken],
    [InitApprole], [ApproleLogin], [KubernetesLogin], [LDAPLogin]) and the
    operations that wrap a backend call ([List], [Read], [Write], [Delete],
    [GetKV], [GetKV2ByVersion], [PutKV2]).  [GetKV2VersionList],
    [GetKV2ListPath], [Base64SmartDecode], [GetAuthType] and
    [GetAuthMountsByType] follow; the order in which a range statement
    goes over a map is a parameter there.

    The Go methods mutate [v.authCache] and the token of [v.Client], read
    the clock, talk to the Vault server and touch the file system.  Here
    they are functions in a state monad over a [World]; the server, the
    clock and the file permissions are an [Env] of oracles, and every
    external interaction is appended to a trace. *)

From Stdlib Require Import ZArith String Ascii List Lia Bool DecimalString.
From stdpp Require Import base option gmap strings list sorting.

Set Warnings "-register-all".

Local Open Scope Z_scope.
Local Open Scope string_scope.
Local Open Scope list_scope.

(* ===================================================================== *)
(** ** Go library functions used by the package                          *)
(* ===================================================================== *)

Module Go.

(** [int64] arithmetic wraps around. *)
Definition wrap64 (z : Z) : Z := (z + 2 ^ 63) mod 2 ^ 64 - 2 ^ 63.
Definition sub64 (a b : Z) : Z := wrap64 (a - b).

Definition newline : string := String (ascii_of_nat 10) EmptyString.

(** [strings.HasSuffix] and [strings.TrimSuffix]. *)
Definition HasSuffix (s suffix : string) : bool :=
  (String.length suffix <=? String.length s)%nat &&
  String.eqb
    (substring (String.length s - String.length suffix)
               (String.length suffix) s)
    suffix.

Definition TrimSuffix (s suffix : string) : string :=
  if HasSuffix s suffix
  then substring 0 (String.length s - String.length suffix) s
  else s.

(** [strconv.ParseInt(s, 10, 64)], which is what [json.Number.Int64]
    calls: an optional sign, at least one decimal digit, nothing else,
    and a value that fits 64 bits.  [None] is the error result. *)
Definition digit (c : ascii) : option Z :=
  let n := Z.of_nat (nat_of_ascii c) in
  if ((48 <=? n) && (n <=? 57))%Z then Some (n - 48) else None.

Fixpoint digits (s : string) (acc : Z) : option Z :=
  match s with
  | EmptyString => Some acc
  | String c rest =>
      match digit c with
      | Some d => digits rest (10 * acc + d)
      | None => None
      end
  end.

Definition unsigned (s : string) : option Z :=
  match s with
  | EmptyString => None
  | _ => digits s 0
  end.

Definition ParseInt64 (s : string) : option Z :=
  let signed :=
    match s with
    | String "-" rest => (fun z => - z) <$> unsigned rest
    | String "+" rest => unsigned rest
    | _ => unsigned s
    end in
  match signed with
  | Some z => if ((- 2 ^ 63 <=? z) && (z <? 2 ^ 63))%Z then Some z else None
  | None => None
  end.

End Go.

(* ===================================================================== *)
(** ** The Vault client, as far as the package uses it                   *)
(* ===================================================================== *)

(** Go's [error] values are compared with [nil] only; an error is kept as
    its message. *)
Definition error := string.

(** [interface{}] values as [encoding/json] decodes them with
    [UseNumber]. *)
Inductive Value :=
| VNil
| VBool (b : bool)
| VString (s : string)
| VNumber (n : string)                 (* json.Number *)
| VSlice (l : list Value)              (* []interface{} *)
| VMap (m : gmap string Value).        (* map[string]interface{} *)

Record SecretAuth := { ClientToken : string }.

(** [vaultapi.Secret]: [Data] and [Auth] are the fields the package
    reads. *)
Record Secret := {
  Data : gmap string Value;
  Auth : option SecretAuth
}.

(** The calls on [v.Client.Logical()]. *)
Inductive Request :=
| ReqRead (path : string)
| ReqReadWithData (path : string) (data : gmap string (list string))
| ReqList (path : string)
| ReqWrite (path : string) (data : gmap string Value)
| ReqDelete (path : string).

(** Every such call returns [( *Secret, error)]. *)
Definition Response : Type := option Secret * option error.

(** The Go function that issues a backend request. *)
Inductive Caller :=
| InList | InRead | InWrite | InDelete | InGetKV2ByVersion
| InGetAuthType | InGetAuthMountsByType
| InGetTokenTTL
| InApproleLogin | InKubernetesLogin | InLDAPLogin.

Global Instance Caller_eq_dec : EqDecision Caller.
Proof. solve_decision. Defined.

(* ===================================================================== *)
(** ** structs.go                                                        *)
(* ===================================================================== *)

Module structs.

Record vaultApproleAuth := {
  roleID : string;
  secretID : string;
  roleIDFile : string;
  secretIDFile : string;
  tokenFile : string;
  approle_authPath : string
}.

Record vaultKubernetesAuth := {
  jwt : string;
  role : string;
  kubernetes_authPath : string
}.

Record vaultLDAPAuth := {
  username : string;
  password : string;
  ldap_authPath : string
}.

Record vaultAuthCache := {
  kubernetes : vaultKubernetesAuth;
  approle : vaultApproleAuth;
  ldap : vaultLDAPAuth;
  lastAuthTime : Z;                    (* int64 *)
  lastAuthMethod : string
}.

End structs.
Export structs.

(** The zero value of [vaultAuthCache], as in [var vault govault.API]. *)
Definition emptyCache : vaultAuthCache :=
  {| kubernetes := {| jwt := ""; role := ""; kubernetes_authPath := "" |};
     approle := {| roleID := ""; secretID := ""; roleIDFile := "";
                   secretIDFile := ""; tokenFile := "";
                   approle_authPath := "" |};
     ldap := {| username := ""; password := ""; ldap_authPath := "" |};
     lastAuthTime := 0;
     lastAuthMethod := "" |}.

(** Field assignments. *)
Module Assign.

Definition on_approle (f : vaultApproleAuth -> vaultApproleAuth)
    (c : vaultAuthCache) : vaultAuthCache :=
  {| kubernetes := kubernetes c; approle := f (approle c); ldap := ldap c;
     lastAuthTime := lastAuthTime c; lastAuthMethod := lastAuthMethod c |}.

Definition on_kubernetes (f : vaultKubernetesAuth -> vaultKubernetesAuth)
    (c : vaultAuthCache) : vaultAuthCache :=
  {| kubernetes := f (kubernetes c); approle := approle c; ldap := ldap c;
     lastAuthTime := lastAuthTime c; lastAuthMethod := lastAuthMethod c |}.

Definition on_ldap (f : vaultLDAPAuth -> vaultLDAPAuth)
    (c : vaultAuthCache) : vaultAuthCache :=
  {| kubernetes := kubernetes c; approle := approle c; ldap := f (ldap c);
     lastAuthTime := lastAuthTime c; lastAuthMethod := lastAuthMethod c |}.

Definition set_lastAuthTime (t : Z) (c : vaultAuthCache) : vaultAuthCache :=
  {| kubernetes := kubernetes c; approle := approle c; ldap := ldap c;
     lastAuthTime := t; lastAuthMethod := lastAuthMethod c |}.

Definition set_lastAuthMethod (m : string) (c : vaultAuthCache)
    : vaultAuthCache :=
  {| kubernetes := kubernetes c; approle := approle c; ldap := ldap c;
     lastAuthTime := lastAuthTime c; lastAuthMethod := m |}.

Definition set_roleID (x : string) (a : vaultApproleAuth) :=
  {| roleID := x; secretID := secretID a; roleIDFile := roleIDFile a;
     secretIDFile := secretIDFile a; tokenFile := tokenFile a;
     approle_authPath := approle_authPath a |}.
Definition set_secretID (x : string) (a : vaultApproleAuth) :=
  {| roleID := roleID a; secretID := x; roleIDFile := roleIDFile a;
     secretIDFile := secretIDFile a; tokenFile := tokenFile a;
     approle_authPath := approle_authPath a |}.
Definition set_roleIDFile (x : string) (a : vaultApproleAuth) :=
  {| roleID := roleID a; secretID := secretID a; roleIDFile := x;
     secretIDFile := secretIDFile a; tokenFile := tokenFile a;
     approle_authPath := approle_authPath a |}.
Definition set_secretIDFile (x : string) (a : vaultApproleAuth) :=
  {| roleID := roleID a; secretID := secretID a;
     roleIDFile := roleIDFile a; secretIDFile := x;
     tokenFile := tokenFile a; approle_authPath := approle_authPath a |}.
Definition set_tokenFile (x : string) (a : vaultApproleAuth) :=
  {| roleID := roleID a; secretID := secretID a;
     roleIDFile := roleIDFile a; secretIDFile := secretIDFile a;
     tokenFile := x; approle_authPath := approle_authPath a |}.
Definition set_approle_authPath (x : string) (a : vaultApproleAuth) :=
  {| roleID := roleID a; secretID := secretID a;
     roleIDFile := roleIDFile a; secretIDFile := secretIDFile a;
     tokenFile := tokenFile a; approle_authPath := x |}.

Definition set_jwt (x : string) (k : vaultKubernetesAuth) :=
  {| jwt := x; role := role k; kubernetes_authPath := kubernetes_authPath k |}.
Definition set_role (x : string) (k : vaultKubernetesAuth) :=
  {| jwt := jwt k; role := x; kubernetes_authPath := kubernetes_authPath k |}.
Definition set_kubernetes_authPath (x : string) (k : vaultKubernetesAuth) :=
  {| jwt := jwt k; role := role k; kubernetes_authPath := x |}.

Definition set_username (x : string) (l : vaultLDAPAuth) :=
  {| username := x; password := password l; ldap_authPath := ldap_authPath l |}.
Definition set_password (x : string) (l : vaultLDAPAuth) :=
  {| username := username l; password := x; ldap_authPath := ldap_authPath l |}.
Definition set_ldap_authPath (x : string) (l : vaultLDAPAuth) :=
  {| username := username l; password := password l; ldap_authPath := x |}.

End Assign.

(* ===================================================================== *)
(** ** The world around an [API] value                                   *)
(* ===================================================================== *)

(** What the methods observe and cannot control.  [backend n tok req] is
    the server's answer to the [n]-th request when it carries token [tok];
    [now n] is the [n]-th reading of the clock; [creatable] and [writable]
    say whether [os.Create] and [WriteString] succeed on a path. *)
Record Env := {
  backend : nat -> string -> Request -> Response;
  now : nat -> Z;
  creatable : string -> bool;
  writable : string -> bool
}.

(** External interactions, in the order they happen.  [EvSetToken] keeps
    the auth cache as it stands when the token is installed. *)
Inductive Event :=
| EvNow (t : Z)
| EvRequest (by_ : Caller) (tok : string) (req : Request) (resp : Response)
| EvSetToken (tok : string) (cache : vaultAuthCache)
| EvReadFile (path : string) (content : option string)
| EvCreate (path : string) (ok : bool)
| EvWriteString (path : string) (content : string) (ok : bool).

(** [authCache] and [clientToken] are the [API] struct ([v.authCache] and
    the token held by [v.Client]); the rest is the outside world. *)
Record World := {
  authCache : vaultAuthCache;
  clientToken : string;
  files : gmap string string;
  requests : nat;
  ticks : nat;
  trace : list Event
}.

(** A Go call returns, panics, or (in the model only) exhausts the
    recursion budget. *)
Inductive Outcome (A : Type) :=
| Returns (a : A)
| Panics (msg : string)
| OutOfFuel.
Arguments Returns {A} a.
Arguments Panics {A} msg.
Arguments OutOfFuel {A}.

Definition M (A : Type) : Type := World -> Outcome A * World.

Global Instance M_ret : MRet M := fun A a w => (Returns a, w).

Global Instance M_bind : MBind M := fun A B f m w =>
  match m w with
  | (Returns a, w') => f a w'
  | (Panics msg, w') => (Panics msg, w')
  | (OutOfFuel, w') => (OutOfFuel, w')
  end.

Definition panic {A} (msg : string) : M A := fun w => (Panics msg, w).
Definition out_of_fuel {A} : M A := fun w => (OutOfFuel, w).

Definition log (ev : Event) (w : World) : World :=
  {| authCache := authCache w; clientToken := clientToken w;
     files := files w; requests := requests w; ticks := ticks w;
     trace := trace w ++ [ev] |}.

(** [v.authCache.<field> = ...] *)
Definition assign (f : vaultAuthCache -> vaultAuthCache) : M unit :=
  fun w =>
    (Returns tt,
     {| authCache := f (authCache w); clientToken := clientToken w;
        files := files w; requests := requests w; ticks := ticks w;
        trace := trace w |}).

(** Reading [v.authCache]. *)
Definition cache : M vaultAuthCache := fun w => (Returns (authCache w), w).

Section Package.

Variable E : Env.

(** [time.Now().Unix()] *)
Definition Unix (n : nat) : Z := Go.wrap64 (now E n).

Definition time_Now_Unix : M Z := fun w =>
  let t := Unix (ticks w) in
  (Returns t,
   log (EvNow t)
     {| authCache := authCache w; clientToken := clientToken w;
        files := files w; requests := requests w; ticks := S (ticks w);
        trace := trace w |}).

(** [v.Client.Logical().Read/List/Write/Delete/ReadWithData] *)
Definition Logical (by_ : Caller) (req : Request) : M Response := fun w =>
  let resp := backend E (requests w) (clientToken w) req in
  (Returns resp,
   log (EvRequest by_ (clientToken w) req resp)
     {| authCache := authCache w; clientToken := clientToken w;
        files := files w; requests := S (requests w); ticks := ticks w;
        trace := trace w |}).

(** [v.Client.SetToken] *)
Definition Client_SetToken (tok : string) : M unit := fun w =>
  (Returns tt,
   log (EvSetToken tok (authCache w))
     {| authCache := authCache w; clientToken := tok;
        files := files w; requests := requests w; ticks := ticks w;
        trace := trace w |}).

(** [os.ReadFile]: the content and [nil], or no content and an error. *)
Definition os_ReadFile (path : string) : M (string * option error) := fun w =>
  (Returns match files w !! path with
           | Some content => (content, None)
           | None => ("", Some ("open " +:+ path))
           end,
   log (EvReadFile path (files w !! path)) w).

(** [os.Create]: truncates or creates the file. *)
Definition os_Create (path : string) : M (option error) := fun w =>
  if creatable E path
  then (Returns None,
        log (EvCreate path true)
          {| authCache := authCache w; clientToken := clientToken w;
             files := <[path := ""]> (files w); requests := requests w;
             ticks := ticks w; trace := trace w |})
  else (Returns (Some ("open " +:+ path)), log (EvCreate path false) w).

(** [WriteString] on the handle [os.Create] returned for [path]. *)
Definition WriteString (path content : string) : M (option error) := fun w =>
  if writable E path
  then (Returns None,
        log (EvWriteString path content true)
          {| authCache := authCache w; clientToken := clientToken w;
             files := <[path := content]> (files w); requests := requests w;
             ticks := ticks w; trace := trace w |})
  else (Returns (Some ("write " +:+ path)),
        log (EvWriteString path content false) w).

(* --------------------------------------------------------------------- *)
(** *** Token lifetime                                                   *)

(** [GetTokenTTL]: a [nil] secret without an error, a missing ["ttl"] and
    a ["ttl"] that is no [json.Number] make the Go code panic. *)
Definition GetTokenTTL : M (Z * option error) :=
  '(data, err) ← Logical InGetTokenTTL (ReqRead "/auth/token/lookup-self");
  match err with
  | Some e => mret (0, Some ("unable to perform token/lookup-self: " +:+ e))
  | None =>
      match data with
      | None => panic "nil pointer dereference"
      | Some data =>
          match Data data !! "ttl" with
          | Some (VNumber n) =>
              match Go.ParseInt64 n with
              | Some ttl => mret (ttl, None)
              | None => mret (0, Some "strconv.ParseInt")
              end
          | _ => panic "interface conversion: not json.Number"
          end
      end
  end.

Definition tokenRefreshNeeded (minimumTokenTTL : Z) : M bool :=
  '(tokenTTL, err) ← GetTokenTTL;
  match err with
  | Some _ => mret true
  | None => if (tokenTTL <? minimumTokenTTL)%Z then mret true else mret false
  end.

(* --------------------------------------------------------------------- *)
(** *** Login flows                                                      *)

Definition SetToken (token : string) : M unit :=
  assign (Assign.set_lastAuthMethod "token");;
  t ← time_Now_Unix;
  assign (Assign.set_lastAuthTime t);;
  Client_SetToken token.

Definition ApproleLogin (roleID secretID authPath : string)
    : M (string * option error) :=
  let data : gmap string Value :=
    {[ "role_id" := VString roleID; "secret_id" := VString secretID ]} in
  let authPath := if authPath =? "" then "auth/approle" else authPath in
  assign (Assign.on_approle (Assign.set_roleID roleID));;
  assign (Assign.on_approle (Assign.set_secretID secretID));;
  assign (Assign.set_lastAuthMethod "approle");;
  assign (Assign.on_approle (Assign.set_approle_authPath authPath));;
  '(secret, err) ← Logical InApproleLogin (ReqWrite (authPath +:+ "/login") data);
  match err with
  | Some e => mret ("", Some e)
  | None =>
      match secret with
      | None => panic "nil pointer dereference"
      | Some secret =>
          match Auth secret with
          | None => mret ("", Some "no auth info returned")
          | Some auth =>
              t ← time_Now_Unix;
              assign (Assign.set_lastAuthTime t);;
              Client_SetToken (ClientToken auth);;
              mret (ClientToken auth, None)
          end
      end
  end.

Definition KubernetesLogin (jwt role authPath : string)
    : M (string * option error) :=
  let data : gmap string Value :=
    {[ "jwt" := VString jwt; "role" := VString role ]} in
  assign (Assign.set_lastAuthMethod "kubernetes");;
  assign (Assign.on_kubernetes (Assign.set_jwt jwt));;
  assign (Assign.on_kubernetes (Assign.set_role role));;
  assign (Assign.on_kubernetes (Assign.set_kubernetes_authPath authPath));;
  '(secret, err) ← Logical InKubernetesLogin (ReqWrite authPath data);
  match err with
  | Some e => mret ("", Some e)
  | None =>
      match secret with
      | None => panic "nil pointer dereference"
      | Some secret =>
          match Auth secret with
          | None => mret ("", Some "no auth info returned")
          | Some auth =>
              t ← time_Now_Unix;
              assign (Assign.set_lastAuthTime t);;
              Client_SetToken (ClientToken auth);;
              mret (ClientToken auth, None)
          end
      end
  end.

Definition LDAPLogin (username password authPath : string)
    : M (string * option error) :=
  let data : gmap string Value := {[ "password" := VString password ]} in
  let authPath := if authPath =? "" then "auth/ldap" else authPath in
  assign (Assign.set_lastAuthMethod "ldap");;
  assign (Assign.on_ldap (Assign.set_username username));;
  assign (Assign.on_ldap (Assign.set_password password));;
  assign (Assign.on_ldap (Assign.set_ldap_authPath authPath));;
  '(secret, err) ←
    Logical InLDAPLogin (ReqWrite (authPath +:+ "/login/" +:+ username) data);
  match err with
  | Some e => mret ("", Some e)
  | None =>
      match secret with
      | None => panic "nil pointer dereference"
      | Some secret =>
          match Auth secret with
          | None => mret ("", Some "no auth info returned")
          | Some auth =>
              t ← time_Now_Unix;
              assign (Assign.set_lastAuthTime t);;
              Client_SetToken (ClientToken auth);;
              mret (ClientToken auth, None)
          end
      end
  end.

(** [InitApprole]: [vaultToken == "" || v.tokenRefreshNeeded(5)] does not
    evaluate its right operand when the left one holds. *)
Definition InitApprole (roleIDFile secretIDFile tokenFile authPath : string)
    : M (string * option error) :=
  (if negb (authPath =? "")
   then assign (Assign.on_approle (Assign.set_approle_authPath authPath))
   else mret tt);;
  assign (Assign.on_approle (Assign.set_roleIDFile roleIDFile));;
  assign (Assign.on_approle (Assign.set_secretIDFile secretIDFile));;
  assign (Assign.on_approle (Assign.set_tokenFile tokenFile));;
  assign (Assign.set_lastAuthMethod "approle");;
  c ← cache;
  '(roleIDTmp, err) ← os_ReadFile (structs.roleIDFile (approle c));
  match err with
  | Some _ =>
      mret ("", Some ("error occurred while trying to read role-id from file: "
                      +:+ structs.roleIDFile (approle c)))
  | None =>
  let roleID := Go.TrimSuffix roleIDTmp Go.newline in
  '(secretIDTmp, err) ← os_ReadFile (structs.secretIDFile (approle c));
  match err with
  | Some _ =>
      mret ("", Some ("error occurred while trying to read secret-id from file: "
                      +:+ structs.secretIDFile (approle c)))
  | None =>
  let secretID := Go.TrimSuffix secretIDTmp Go.newline in
  '(tokenTmp, _) ← os_ReadFile (structs.tokenFile (approle c));
  let vaultToken := Go.TrimSuffix tokenTmp Go.newline in
  Client_SetToken vaultToken;;
  refresh ← (if vaultToken =? "" then mret true else tokenRefreshNeeded 5);
  if refresh : bool then
    c ← cache;
    '(vaultToken, err) ← ApproleLogin roleID secretID (approle_authPath (approle c));
    match err with
    | Some e => mret ("", Some ("error attempting approle login: " +:+ e))
    | None =>
        c ← cache;
        err ← os_Create (structs.tokenFile (approle c));
        match err with
        | Some _ =>
            mret ("", Some ("unable to create vault token file: "
                            +:+ structs.tokenFile (approle c)))
        | None =>
            err ← WriteString (structs.tokenFile (approle c)) vaultToken;
            match err with
            | Some _ =>
                mret ("", Some ("unable to write to vault token file: "
                                +:+ structs.tokenFile (approle c)))
            | None => mret (vaultToken, None)
            end
        end
    end
  else mret (vaultToken, None)
  end
  end.

(* --------------------------------------------------------------------- *)
(** *** The dispatcher                                                   *)

Definition checkAuthNeeded : M (option error) :=
  t ← time_Now_Unix;
  c ← cache;
  if (Go.sub64 t (lastAuthTime c) <? 5)%Z
  then mret (Some "login was attempted recently, not retrying")
  else
    refresh ← tokenRefreshNeeded 5;
    if negb refresh
    then mret (Some "vault token does not need refreshing")
    else
      c ← cache;
      if lastAuthMethod c =? "approle" then
        if (roleIDFile (approle c) =? "") || (secretIDFile (approle c) =? "")
        then
          '(_, err) ← ApproleLogin (roleID (approle c)) (secretID (approle c))
                                   (approle_authPath (approle c));
          mret err
        else
          '(_, err) ← InitApprole (roleIDFile (approle c))
                                  (secretIDFile (approle c))
                                  (tokenFile (approle c))
                                  (approle_authPath (approle c));
          mret err
      else if lastAuthMethod c =? "kubernetes" then
        '(_, err) ← KubernetesLogin (jwt (kubernetes c)) (role (kubernetes c))
                                    (kubernetes_authPath (kubernetes c));
        mret err
      else if lastAuthMethod c =? "ldap" then
        '(_, err) ← LDAPLogin (username (ldap c)) (password (ldap c))
                              (ldap_authPath (ldap c));
        mret err
      else if lastAuthMethod c =? "token" then
        t ← time_Now_Unix;
        assign (Assign.set_lastAuthTime t);;
        mret None
      else
        mret (Some ("unknown previous auth method or no authentication performed: ["
                    +:+ lastAuthMethod c +:+ "]")).

(* --------------------------------------------------------------------- *)
(** *** Operations                                                       *)

(** The operations call themselves after a successful [checkAuthNeeded];
    [fuel] bounds the depth of these calls.  [nil] slices and maps are
    read as empty ones. *)

Fixpoint List (fuel : nat) (path : string) : M (list Value * option error) :=
  match fuel with
  | O => out_of_fuel
  | S fuel =>
      '(data, err) ← Logical InList (ReqList path);
      match err with
      | Some e =>
          checkAuthErr ← checkAuthNeeded;
          match checkAuthErr with
          | None => List fuel path
          | Some _ => mret ([], Some e)
          end
      | None =>
          match data with
          | None => mret ([], Some "unable to find specified path")
          | Some data =>
              match Data data !! "keys" with
              | Some (VSlice keys) => mret (keys, None)
              | _ => panic "interface conversion: not []interface {}"
              end
          end
      end
  end.

Fixpoint Read (fuel : nat) (path : string) : M (option Secret * option error) :=
  match fuel with
  | O => out_of_fuel
  | S fuel =>
      '(secret, err) ← Logical InRead (ReqRead path);
      match err with
      | Some e =>
          checkAuthErr ← checkAuthNeeded;
          match checkAuthErr with
          | None => Read fuel path
          | Some _ => mret (None, Some e)
          end
      | None =>
          match secret with
          | None => mret (None, Some "secret not found")
          | Some secret => mret (Some secret, None)
          end
      end
  end.

Fixpoint Write (fuel : nat) (path : string) (data : gmap string Value)
    : M (option Secret * option error) :=
  match fuel with
  | O => out_of_fuel
  | S fuel =>
      '(secret, err) ← Logical InWrite (ReqWrite path data);
      match err with
      | Some e =>
          checkAuthErr ← checkAuthNeeded;
          match checkAuthErr with
          | None => Write fuel path data
          | Some _ => mret (secret, err)
          end
      | None => mret (secret, err)
      end
  end.

Fixpoint Delete (fuel : nat) (path : string) : M (option error) :=
  match fuel with
  | O => out_of_fuel
  | S fuel =>
      '(_, err) ← Logical InDelete (ReqDelete path);
      match err with
      | Some e =>
          checkAuthErr ← checkAuthNeeded;
          match checkAuthErr with
          | None => Delete fuel path
          | Some _ => mret err
          end
      | None => mret err
      end
  end.

Fixpoint GetKV (fuel : nat) (path : string) (returnOnlyData : bool)
    : M (gmap string Value * option error) :=
  match fuel with
  | O => out_of_fuel
  | S fuel =>
      '(secret, err) ← Read fuel path;
      match err with
      | Some e =>
          checkAuthErr ← checkAuthNeeded;
          match checkAuthErr with
          | None => GetKV fuel path returnOnlyData
          | Some _ => mret (∅, Some e)
          end
      | None =>
          match secret with
          | None => mret (∅, Some "secret not found")
          | Some secret =>
              if returnOnlyData then
                match Data secret !! "data" with
                | Some (VMap m) => mret (m, None)
                | _ => mret (∅, Some ("unable to read requested secret at "
                                      +:+ path))
                end
              else mret (Data secret, None)
          end
      end
  end.

(** [strconv.Itoa] *)
Definition Itoa (n : Z) : string := NilZero.string_of_int (Z.to_int n).

Fixpoint GetKV2ByVersion (fuel : nat) (path : string) (version : Z)
    : M (gmap string Value * option error) :=
  match fuel with
  | O => out_of_fuel
  | S fuel =>
      let data : gmap string (list string) :=
        {[ "version" := [Itoa version] ]} in
      '(secret, err) ← Logical InGetKV2ByVersion (ReqReadWithData path data);
      match err with
      | Some e =>
          checkAuthErr ← checkAuthNeeded;
          match checkAuthErr with
          | None => GetKV2ByVersion fuel path version
          | Some _ => mret (∅, Some e)
          end
      | None =>
          match secret with
          | None => mret (∅, Some "secret version not found")
          | Some secret =>
              match Data secret !! "data" with
              | Some (VMap m) => mret (m, None)
              | _ => mret (∅, Some ("unable to read requested secret at "
                                    +:+ path))
              end
          end
      end
  end.

Definition PutKV2 (fuel : nat) (path : string) (data : gmap string Value)
    : M (option Secret * option error) :=
  let adjustedData : gmap string Value := {[ "data" := VMap data ]} in
  Write fuel path adjustedData.

End Package.

(* ===================================================================== *)
(** ** Observations on a run                                             *)
(* ===================================================================== *)

(** The events a computation appends to the trace of [w]. *)
Definition events {A} (m : M A) (w : World) : list Event :=
  drop (length (trace w)) (trace (snd (m w))).

Fixpoint count (p : Event -> bool) (tr : list Event) : nat :=
  match tr with
  | [] => O
  | ev :: tr => if p ev then S (count p tr) else count p tr
  end.

Definition request_by (c : Caller) (ev : Event) : bool :=
  match ev with
  | EvRequest c' _ _ _ => bool_decide (c' = c)
  | _ => false
  end.

(** A login request is a backend request issued by a login flow. *)
Definition login_caller (c : Caller) : bool :=
  match c with
  | InApproleLogin | InKubernetesLogin | InLDAPLogin => true
  | _ => false
  end.

Definition is_login (ev : Event) : bool :=
  match ev with
  | EvRequest c _ _ _ => login_caller c
  | _ => false
  end.

Definition calls (c : Caller) (tr : list Event) : nat := count (request_by c) tr.
Definition logins (tr : list Event) : nat := count is_login tr.

(** Requests of the dispatcher and the login flows, as opposed to those of
    an operation. *)
Definition auth_caller (c : Caller) : bool :=
  match c with
  | InGetTokenTTL | InApproleLogin | InKubernetesLogin | InLDAPLogin => true
  | _ => false
  end.

Definition auth_event (ev : Event) : Prop :=
  match ev with
  | EvRequest c _ _ _ => auth_caller c = true
  | _ => True
  end.

(** [time.Now().Unix()-v.authCache.lastAuthTime], were the clock read in
    [w]. *)
Definition elapsed (E : Env) (w : World) : Z :=
  Go.sub64 (Unix E (ticks w)) (lastAuthTime (authCache w)).

(** The self-lookup of the token health check. *)
Definition lookup_self : Request := ReqRead "/auth/token/lookup-self".

(** The part every operation shares: call the backend; on an error ask
    [checkAuthNeeded] and, if it reports no error, start over; otherwise
    give up with [giveup].  The operations above are instances
    ([List_retrying] and its siblings). *)
Fixpoint retrying {R} (E : Env) (by_ : Caller) (req : Request)
    (done : Response -> M R) (giveup : Response -> R) (fuel : nat) : M R :=
  match fuel with
  | O => out_of_fuel
  | S fuel =>
      resp ← Logical E by_ req;
      match snd resp with
      | Some _ =>
          checkAuthErr ← checkAuthNeeded E;
          match checkAuthErr with
          | None => retrying E by_ req done giveup fuel
          | Some _ => mret (giveup resp)
          end
      | None => done resp
      end
  end.

Definition List_done (resp : Response) : M (list Value * option error) :=
  match fst resp with
  | None => mret ([], Some "unable to find specified path")
  | Some data =>
      match Data data !! "keys" with
      | Some (VSlice keys) => mret (keys, None)
      | _ => panic "interface conversion: not []interface {}"
      end
  end.

Definition Read_done (resp : Response) : M (option Secret * option error) :=
  match fst resp with
  | None => mret (None, Some "secret not found")
  | Some secret => mret (Some secret, None)
  end.

Definition GetKV2ByVersion_done (path : string) (resp : Response)
    : M (gmap string Value * option error) :=
  match fst resp with
  | None => mret (∅, Some "secret version not found")
  | Some secret =>
      match Data secret !! "data" with
      | Some (VMap m) => mret (m, None)
      | _ => mret (∅, Some ("unable to read requested secret at " +:+ path))
      end
  end.

(** Worlds after a primitive step, and the server's answer in a world. *)
Definition tick (E : Env) (w : World) : World := snd (time_Now_Unix E w).
Definition sent (E : Env) (by_ : Caller) (req : Request) (w : World) : World :=
  snd (Logical E by_ req w).
Definition answer (E : Env) (w : World) (req : Request) : Response :=
  backend E (requests w) (clientToken w) req.

(** What [tokenRefreshNeeded] makes of the self-lookup's response
    ([tokenRefreshNeeded_run] below). *)
Definition verdict (minimumTokenTTL : Z) (resp : Response) : Outcome bool :=
  match resp with
  | (_, Some _) => Returns true
  | (None, None) => Panics "nil pointer dereference"
  | (Some data, None) =>
      match Data data !! "ttl" with
      | Some (VNumber n) =>
          match Go.ParseInt64 n with
          | Some ttl => Returns (ttl <? minimumTokenTTL)%Z
          | None => Returns true
          end
      | _ => Panics "interface conversion: not json.Number"
      end
  end.

(** The token health check with the threshold [checkAuthNeeded] and
    [InitApprole] use, on the [n]-th request carrying [tok]. *)
Definition healthy (E : Env) (n : nat) (tok : string) : Prop :=
  verdict 5 (backend E n tok lookup_self) = Returns false.
Definition stale (E : Env) (n : nat) (tok : string) : Prop :=
  verdict 5 (backend E n tok lookup_self) = Returns true.

(** The self-lookup reports a TTL of at least [minTTL]. *)
Definition reports_ttl (minTTL : Z) (resp : Response) : Prop :=
  exists secret num ttl,
    resp = (Some secret, None)
    /\ Data secret !! "ttl" = Some (VNumber num)
    /\ Go.ParseInt64 num = Some ttl
    /\ minTTL <= ttl.

(** Every [Client.SetToken] in [tr] finds the auth cache naming [method]
    and holding a time read from the clock earlier in [tr] ([seen]
    collects the readings). *)
Fixpoint installs_stamped (method : string) (seen : list Z) (tr : list Event)
    : Prop :=
  match tr with
  | [] => True
  | EvNow t :: tr => installs_stamped method (t :: seen) tr
  | EvSetToken _ c :: tr =>
      lastAuthMethod c = method /\ In (lastAuthTime c) seen
      /\ installs_stamped method seen tr
  | _ :: tr => installs_stamped method seen tr
  end.

(** The weaker property: every [Client.SetToken] in [tr] finds the auth
    cache naming [method]. *)
Fixpoint installs_attributed (method : string) (tr : list Event) : Prop :=
  match tr with
  | [] => True
  | EvSetToken _ c :: tr =>
      lastAuthMethod c = method /\ installs_attributed method tr
  | _ :: tr => installs_attributed method tr
  end.

Definition request_path (req : Request) : string :=
  match req with
  | ReqRead path | ReqReadWithData path _ | ReqList path
  | ReqWrite path _ | ReqDelete path => path
  end.

(** The paths of the login requests in [tr]. *)
Fixpoint login_paths (tr : list Event) : list string :=
  match tr with
  | [] => []
  | EvRequest c _ req _ :: tr =>
      if login_caller c then request_path req :: login_paths tr
      else login_paths tr
  | _ :: tr => login_paths tr
  end.

(** A computation appends events to the trace, all of them in [P]. *)
Definition emits {A} (P : Event -> Prop) (m : M A) : Prop :=
  forall w, exists d, trace (snd (m w)) = trace w ++ d /\ Forall P d.

(** A computation keeps the auth cache within [I] and appends only events
    that [P] admits for a cache within [I]. *)
Definition preserves {A} (I : vaultAuthCache -> Prop)
    (P : Event -> Prop) (m : M A) : Prop :=
  forall w, I (authCache w) ->
    I (authCache (snd (m w)))
    /\ exists d, trace (snd (m w)) = trace w ++ d /\ Forall P d.

(** [Client.SetToken] found the auth cache naming [method]. *)
Definition attributed (method : string) (ev : Event) : Prop :=
  match ev with
  | EvSetToken _ c => lastAuthMethod c = method
  | _ => True
  end.

(** The world with the auth cache replaced. *)
Definition with_cache (c : vaultAuthCache) (w : World) : World :=
  snd (assign (fun _ => c) w).

(** The token a login response grants, if it grants one. *)
Definition granted (resp : Response) : option string :=
  match resp with
  | (Some secret, None) => ClientToken <$> Auth secret
  | _ => None
  end.

(** The part the three login flows share, after they have recorded their
    parameters: the login request, then the stamp and the installation of
    the token ([ApproleLogin_exchange] and its siblings). *)
Definition exchange (E : Env) (by_ : Caller) (req : Request)
    : M (string * option error) :=
  '(secret, err) ← Logical E by_ req;
  match err with
  | Some e => mret ("", Some e)
  | None =>
      match secret with
      | None => panic "nil pointer dereference"
      | Some secret =>
          match Auth secret with
          | None => mret ("", Some "no auth info returned")
          | Some auth =>
              t ← time_Now_Unix E;
              assign (Assign.set_lastAuthTime t);;
              Client_SetToken (ClientToken auth);;
              mret (ClientToken auth, None)
          end
      end
  end.

(** The auth cache once a login flow has recorded its parameters. *)
Definition approle_recorded (roleID secretID authPath : string)
    (c : vaultAuthCache) : vaultAuthCache :=
  Assign.on_approle (Assign.set_approle_authPath authPath)
    (Assign.set_lastAuthMethod "approle"
       (Assign.on_approle (Assign.set_secretID secretID)
          (Assign.on_approle (Assign.set_roleID roleID) c))).

Definition kubernetes_recorded (jwt role authPath : string)
    (c : vaultAuthCache) : vaultAuthCache :=
  Assign.on_kubernetes (Assign.set_kubernetes_authPath authPath)
    (Assign.on_kubernetes (Assign.set_role role)
       (Assign.on_kubernetes (Assign.set_jwt jwt)
          (Assign.set_lastAuthMethod "kubernetes" c))).

Definition ldap_recorded (username password authPath : string)
    (c : vaultAuthCache) : vaultAuthCache :=
  Assign.on_ldap (Assign.set_ldap_authPath authPath)
    (Assign.on_ldap (Assign.set_password password)
       (Assign.on_ldap (Assign.set_username username)
          (Assign.set_lastAuthMethod "ldap" c))).

(** The world once a granted token is stamped and installed. *)
Definition installed (E : Env) (tok : string) (w : World) : World :=
  snd (Client_SetToken tok
         (snd (assign (Assign.set_lastAuthTime (Unix E (ticks w)))
                 (tick E w)))).

(** The auth cache names approle and the three files of [InitApprole]. *)
Definition approle_files (roleIDFile secretIDFile tokenFile : string)
    (c : vaultAuthCache) : Prop :=
  lastAuthMethod c = "approle"
  /\ structs.roleIDFile (approle c) = roleIDFile
  /\ structs.secretIDFile (approle c) = secretIDFile
  /\ structs.tokenFile (approle c) = tokenFile.

(** A Go call returned a value and a [nil] error. *)
Definition succeeded {A} (r : Outcome (A * option error)) : Prop :=
  exists a, r = Returns (a, None).

(** The call left in the auth cache a time it read from the clock. *)
Definition stamps {A} (m : M A) (w : World) : Prop :=
  exists t, In (EvNow t) (events m w)
            /\ lastAuthTime (authCache (snd (m w))) = t.

(** A login flow stamps the time it reads when it succeeds, and leaves the
    recorded time alone when it does not. *)
Definition stamps_on_success (E : Env) (m : M (string * option error))
    (w : World) : Prop :=
  (succeeded (fst (m w)) ->
     lastAuthTime (authCache (snd (m w))) = Unix E (ticks w))
  /\ (~ succeeded (fst (m w)) ->
        lastAuthTime (authCache (snd (m w))) = lastAuthTime (authCache w)).

(** The auth cache once [InitApprole] has recorded its arguments. *)
Definition init_recorded (rf sf tf p : string) (c : vaultAuthCache)
    : vaultAuthCache :=
  Assign.set_lastAuthMethod "approle"
    (Assign.on_approle (Assign.set_tokenFile tf)
       (Assign.on_approle (Assign.set_secretIDFile sf)
          (Assign.on_approle (Assign.set_roleIDFile rf)
             (if negb (p =? "")
              then Assign.on_approle (Assign.set_approle_authPath p) c
              else c)))).

(** The world once [InitApprole] has read its three files and installed
    the token of the cache file. *)
Definition init_loaded (rf sf tf p : string) (w : World) : World :=
  let w0 := with_cache (init_recorded rf sf tf p (authCache w)) w in
  let cached := default "" (files w !! tf) in
  snd (Client_SetToken (Go.TrimSuffix cached Go.newline)
         (log (EvReadFile tf (files w !! tf))
            (log (EvReadFile sf (files w !! sf))
               (log (EvReadFile rf (files w !! rf)) w0)))).


(** The world in which [InitApprole] starts its login: after the three
    files and, for a cached token that is not empty, the self-lookup. *)
Definition init_checked (E : Env) (rf sf tf p : string) (w : World) : World :=
  if Go.TrimSuffix (default "" (files w !! tf)) Go.newline =? ""
  then init_loaded rf sf tf p w
  else sent E InGetTokenTTL lookup_self (init_loaded rf sf tf p w).

(** [InitApprole] finds nothing to reuse: the cached token is empty, or
    the health check asks for a refresh. *)
Definition nothing_cached (E : Env) (tf : string) (w : World) : Prop :=
  Go.TrimSuffix (default "" (files w !! tf)) Go.newline = ""
  \/ stale E (requests w)
       (Go.TrimSuffix (default "" (files w !! tf)) Go.newline).

(** A computation appends events to the trace, among them at most [n]
    login requests. *)
Definition spends {A} (n : nat) (m : M A) : Prop :=
  forall w, exists d,
    trace (snd (m w)) = trace w ++ d /\ (logins d <= n)%nat.

(** Every request fails, whoever sends it. *)
Definition unreachable (E : Env) : Prop :=
  forall n tok req, exists e, snd (backend E n tok req) = Some e.

(** Two clock readings in a row are five seconds apart or more. *)
Definition slow_clock (E : Env) : Prop :=
  forall n, 5 <= Go.sub64 (Unix E (S n)) (Unix E n).

(** The auth cache names the bare token of [SetToken], and the cooldown
    is over. *)
Definition token_expired (E : Env) (w : World) : Prop :=
  lastAuthMethod (authCache w) = "token" /\ 5 <= elapsed E w.

(* ===================================================================== *)
(** ** Concrete servers, clocks and worlds                               *)
(* ===================================================================== *)

Module Scenario.

(** Responses of the server. *)
Definition denied : Response := (None, Some "permission denied").
Definition ttl (n : string) : Response :=
  (Some {| Data := {[ "ttl" := VNumber n ]}; Auth := None |}, None).
Definition grants (tok : string) : Response :=
  (Some {| Data := ∅; Auth := Some {| ClientToken := tok |} |}, None).
Definition found : Response :=
  (Some {| Data := {[ "data" := VMap {[ "k" := VString "v" ]} ]};
           Auth := None |}, None).
Definition no_keys : Response :=
  (Some {| Data := {[ "data" := VMap ∅ ]}; Auth := None |}, None).

(** A server that answers its requests from [script], in order, and
    denies everything after it. *)
Definition scripted (script : list Response)
    : nat -> string -> Request -> Response :=
  fun n _ _ => nth n script denied.

(** A server that answers by the kind of request: self-lookups with
    [lookup], writes (the logins of the scenarios) with [login], anything
    else with [op]. *)
Definition by_kind (lookup login op : Response)
    : nat -> string -> Request -> Response :=
  fun _ _ req =>
    match req with
    | ReqRead path =>
        if path =? "/auth/token/lookup-self" then lookup else op
    | ReqWrite _ _ => login
    | _ => op
    end.

(** A clock that shows [clock], in order. *)
Definition env (backend : nat -> string -> Request -> Response)
    (clock : list Z) (creatable writable : bool) : Env :=
  {| backend := backend;
     now := fun n => nth n clock 0;
     creatable := fun _ => creatable;
     writable := fun _ => writable |}.

Definition world (c : vaultAuthCache) (tok : string)
    (files : gmap string string) : World :=
  {| authCache := c; clientToken := tok; files := files;
     requests := 0; ticks := 0; trace := [] |}.

(** An auth cache after [LDAPLogin "alice" "secret" ""] at time [t]. *)
Definition ldap_cache (t : Z) : vaultAuthCache :=
  Assign.set_lastAuthTime t
    (Assign.set_lastAuthMethod "ldap"
       (Assign.on_ldap
          (fun _ => {| username := "alice"; password := "secret";
                       ldap_authPath := "auth/ldap" |})
          emptyCache)).

(** A failing operation two seconds after a login at time 100. *)
Definition cooling_env : Env := env (scripted []) [102; 103] true true.
Definition cooling_world : World := world (ldap_cache 100) "t-0" ∅.

(** A failing operation long after the login, the token still good for an
    hour. *)
Definition unrelated_env : Env :=
  env (by_kind (ttl "3600") denied denied) [200; 201] true true.
Definition unrelated_world : World := world (ldap_cache 100) "t-0" ∅.

(** [InitApprole] with its three files in place, the cached token still
    good for an hour. *)
Definition init_files : gmap string string :=
  {[ "/r" := "role-id" +:+ Go.newline;
     "/s" := "secret-id" +:+ Go.newline;
     "/t" := "t-0" ]}.
Definition init_env : Env :=
  env (by_kind (ttl "3600") (grants "t-1") denied) [500; 501] true true.
Definition init_world : World := world emptyCache "" init_files.

(** A failing operation long after a [SetToken], the token about to
    expire. *)
Definition token_env : Env :=
  env (by_kind (ttl "2") denied denied) [200; 201] true true.
Definition token_world : World :=
  world (Assign.set_lastAuthTime 100
           (Assign.set_lastAuthMethod "token" emptyCache)) "t-0" ∅.

(** A server that grants every login. *)
Definition granting_env : Env :=
  env (by_kind (ttl "2") (grants "t-1") denied) [200; 201] true true.

(** The same, the role-id file missing. *)
Definition no_role_world : World :=
  world emptyCache "" (delete "/r" init_files).

(** [InitApprole] with no cache file yet, and a cache file that cannot be
    created. *)
Definition fresh_world : World :=
  world emptyCache "" (delete "/t" init_files).
Definition readonly_env : Env :=
  env (by_kind (ttl "3600") (grants "t-1") denied) [500; 501] false true.
Definition full_disk_env : Env :=
  env (by_kind (ttl "3600") (grants "t-1") denied) [500; 501] true false.

(** A recovery long after an [InitApprole] that was given no role-id
    file. *)
Definition pathless_env : Env :=
  env (by_kind (ttl "2") (grants "t-1") denied) [500; 501] true true.
Definition pathless_world : World :=
  world (init_recorded "" "/s" "/t" "" emptyCache) "t-0" init_files.

(** A read that fails once on an expired token and works after the
    login; the same read failing again two seconds after the login; and
    failing again ten seconds after it, the new token about to expire
    too. *)
Definition expired_world : World := world (ldap_cache 0) "t-0" ∅.
Definition expired_env : Env :=
  env (scripted [denied; ttl "0"; grants "t-1"; found])
    [100; 110] true true.
Definition failing_env : Env :=
  env (scripted [denied; ttl "0"; grants "t-1"; denied])
    [100; 110; 112; 113] true true.
Definition flaky_env : Env :=
  env (scripted [denied; ttl "0"; grants "t-1";
                 denied; ttl "2"; grants "t-2"; found])
    [100; 110; 120; 130] true true.

(** A list request answered without keys. *)
Definition keyless_env : Env := env (scripted [no_keys]) [] true true.



(** A path with no secret under it, asked for after a [SetToken] long
    ago, the token about to expire. *)
Definition missing_env : Env :=
  env (scripted [(None, None); ttl "2"; (None, None)])
    [200; 201; 202; 203] true true.

(** A server that is down for good, and a clock that shows ten more
    seconds at every reading. *)
Definition down_env : Env :=
  {| backend := fun _ _ _ => denied;
     now := fun n => 10 * Z.of_nat n + 200;
     creatable := fun _ => true;
     writable := fun _ => true |}.

(** A read that fails on an expired token and fails again twenty seconds
    after the login, the new token good for an hour. *)
Definition healed_env : Env :=
  env (scripted [denied; ttl "0"; grants "t-1"; denied; ttl "3600"])
    [100; 110; 130] true true.

(** A recovery long after an [InitApprole] that was given no secret-id
    file. *)
Definition secretless_world : World :=
  world (init_recorded "/r" "" "/t" "" emptyCache) "t-0" init_files.

End Scenario.

(* ===================================================================== *)
(** ** Path and string helpers of the package                            *)
(* ===================================================================== *)

(** The functions of Go's [strings] package these helpers use. *)
Module Strings.

Fixpoint skip (n : nat) (s : string) : string :=
  match n, s with
  | O, _ => s
  | S n, String _ rest => skip n rest
  | S _, EmptyString => EmptyString
  end.

(** [strings.HasPrefix] *)
Definition HasPrefix (s prefix : string) : bool := String.prefix prefix s.

(** [strings.Contains] *)
Fixpoint Contains (s substr : string) : bool :=
  String.prefix substr s
  || match s with
     | EmptyString => false
     | String _ rest => Contains rest substr
     end.

(** [strings.Replace(s, old, new, 1)]: the leftmost [old] becomes [new]. *)
Fixpoint Replace1 (s old new : string) : string :=
  if String.prefix old s then new +:+ skip (String.length old) s
  else match s with
       | EmptyString => EmptyString
       | String c rest => String c (Replace1 rest old new)
       end.

(** [s[len(s)-1:]] for a string that is not empty. *)
Definition last1 (s : string) : string :=
  substring (String.length s - 1) 1 s.

End Strings.

(** [GetKV2ListPath] *)
Definition GetKV2ListPath (path : string) : string :=
  if negb (Strings.Contains path "/metadata/")
  then Strings.Replace1 path "/data/" "/metadata/"
  else path.

(** [GetAuthType], before the backend is read: the mount that will be
    looked up in sys/auth.  Slicing an empty path panics. *)
Definition GetAuthType_mount (path : string) : Outcome string :=
  let path :=
    if Strings.HasPrefix path "auth/"
    then Strings.Replace1 path "auth/" ""
    else path in
  if (String.length path =? 0)%nat
  then Panics "slice bounds out of range"
  else if negb (Strings.last1 path =? "/") then Returns (path +:+ "/")
       else Returns path.

(** [GetAuthType], after the backend has answered: the loop over
    [data.Data], whose entries come as [entries], in the order the range
    statement yields them. *)
Fixpoint GetAuthType_select (entries : list (string * Value)) (path : string)
    : Outcome (string * option error) :=
  match entries with
  | [] => Returns ("", Some "mount not found")
  | (clusterMount, mountConfig) :: entries =>
      if clusterMount =? path then
        match mountConfig with
        | VMap mountData =>
            match mountData !! "type" with
            | Some (VString t) => Returns (t, None)
            | _ => Panics "interface conversion: not string"
            end
        | _ => Returns ("", Some "failed to work with data from sys/auth")
        end
      else GetAuthType_select entries path
  end.

(** [GetAuthMountsByType], after the backend has answered: the loop over
    [data.Data], with the mounts collected so far. *)
Fixpoint GetAuthMountsByType_collect (entries : list (string * Value))
    (authType prefixMatch : string) (authMounts : list string)
    : Outcome (list string * option error) :=
  match entries with
  | [] => Returns (authMounts, None)
  | (clusterMount, mountConfig) :: entries =>
      match mountConfig with
      | VMap mountData =>
          if negb (Strings.HasPrefix clusterMount prefixMatch)
          then GetAuthMountsByType_collect entries authType prefixMatch
                 authMounts
          else
            match mountData !! "type" with
            | Some (VString t) =>
                if t =? authType
                then GetAuthMountsByType_collect entries authType prefixMatch
                       (authMounts ++ [clusterMount])
                else GetAuthMountsByType_collect entries authType prefixMatch
                       authMounts
            | _ => Panics "interface conversion: not string"
            end
      | _ =>
          Returns (authMounts, Some "failed to work with data from sys/auth")
      end
  end.

(** [sort.Sort(sort.Reverse(sort.IntSlice(l)))]: the integers of [l] from
    the largest to the smallest, which is one list whatever the
    algorithm. *)
Definition sort_reverse (l : list Z) : list Z := merge_sort Z.ge l.

(** The two tests of [GetKV2VersionList] on the metadata of a version:
    [data["deletion_time"] != ""] and [data["destroyed"] == true], on
    interface values. *)
Definition deleted (data : gmap string Value) : bool :=
  match data !! "deletion_time" with
  | Some (VString "") => false
  | _ => true
  end.

Definition destroyed (data : gmap string Value) : bool :=
  match data !! "destroyed" with
  | Some (VBool true) => true
  | _ => false
  end.

(** The loop of [GetKV2VersionList] over the versions, with the versions
    collected so far.  The text of the [strconv] error is cut after the
    name of the function. *)
Fixpoint GetKV2VersionList_collect (entries : list (string * Value))
    (includeDeleted includeDestroyed : bool) (returnVersions : list Z)
    : Outcome (list Z * option error) :=
  match entries with
  | [] => Returns (returnVersions, None)
  | (k, v) :: entries =>
      match v with
      | VMap data =>
          if deleted data && negb includeDeleted
          then GetKV2VersionList_collect entries includeDeleted
                 includeDestroyed returnVersions
          else if destroyed data && negb includeDestroyed
          then GetKV2VersionList_collect entries includeDeleted
                 includeDestroyed returnVersions
          else
            match Go.ParseInt64 k with
            | Some version =>
                GetKV2VersionList_collect entries includeDeleted
                  includeDestroyed (returnVersions ++ [version])
            | None =>
                Returns
                  (returnVersions,
                   Some ("failed to convert version key from string to int on "
                         +:+ k +:+ ": strconv.Atoi"))
            end
      | _ => Panics "interface conversion: not map[string]interface {}"
      end
  end.

Section Range.
Variable E : Env.

(** The order in which a range statement yields the entries of a map;
    Go leaves it open. *)
Variable range_ : gmap string Value -> list (string * Value).

Fixpoint GetKV2VersionList (fuel : nat) (path : string)
    (autoFixPath includeDeleted includeDestroyed : bool)
    : M (list Z * option error) :=
  match fuel with
  | O => out_of_fuel
  | S fuel =>
      let path := if autoFixPath then GetKV2ListPath path else path in
      '(secret, err) ← Read E fuel path;
      match err with
      | Some e =>
          checkAuthErr ← checkAuthNeeded E;
          match checkAuthErr with
          | None =>
              GetKV2VersionList fuel path false includeDeleted includeDestroyed
          | Some _ => mret ([], Some e)
          end
      | None =>
          match secret with
          | None => mret ([], Some "secret not found")
          | Some secret =>
              match Data secret !! "versions" with
              | None =>
                  mret ([], Some "version information not found in secret")
              | Some (VMap versions) =>
                  match GetKV2VersionList_collect (range_ versions)
                          includeDeleted includeDestroyed [] with
                  | Returns (returnVersions, None) =>
                      mret (sort_reverse returnVersions, None)
                  | Returns (returnVersions, Some e) =>
                      mret (returnVersions, Some e)
                  | Panics msg => panic msg
                  | OutOfFuel => out_of_fuel
                  end
              | Some _ => mret (sort_reverse [], None)
              end
          end
      end
  end.

(** [GetAuthType]; the call it retries with is given the mount, which
    goes through the normalisation again. *)
Fixpoint GetAuthType (fuel : nat) (path : string)
    : M (string * option error) :=
  match fuel with
  | O => out_of_fuel
  | S fuel =>
      match GetAuthType_mount path with
      | Returns path =>
          '(data, err) ← Logical E InGetAuthType (ReqRead "sys/auth");
          match err with
          | Some e =>
              checkAuthErr ← checkAuthNeeded E;
              match checkAuthErr with
              | None => GetAuthType fuel path
              | Some _ => mret ("", Some e)
              end
          | None =>
              match data with
              | None => panic "nil pointer dereference"
              | Some data =>
                  match GetAuthType_select (range_ (Data data)) path with
                  | Returns r => mret r
                  | Panics msg => panic msg
                  | OutOfFuel => out_of_fuel
                  end
              end
          end
      | Panics msg => panic msg
      | OutOfFuel => out_of_fuel
      end
  end.

(** [GetAuthMountsByType] *)
Fixpoint GetAuthMountsByType (fuel : nat) (authType prefixMatch : string)
    : M (list string * option error) :=
  match fuel with
  | O => out_of_fuel
  | S fuel =>
      let authMounts : list string := [] in
      '(data, err) ← Logical E InGetAuthMountsByType (ReqRead "sys/auth");
      match err with
      | Some e =>
          checkAuthErr ← checkAuthNeeded E;
          match checkAuthErr with
          | None => GetAuthMountsByType fuel authType prefixMatch
          | Some _ => mret (authMounts, Some e)
          end
      | None =>
          match data with
          | None => panic "nil pointer dereference"
          | Some data =>
              match GetAuthMountsByType_collect (range_ (Data data))
                      authType prefixMatch authMounts with
              | Returns r => mret r
              | Panics msg => panic msg
              | OutOfFuel => out_of_fuel
              end
          end
      end
  end.

End Range.

Section Base64.

(** [base64.StdEncoding.DecodeString] of the Go library; [None] is its
    error. *)
Variable DecodeString : string -> option string.

(** [Base64SmartDecode]; [strconv.Atoi] is [strconv.ParseInt] at the width
    of [int], 64 bits here.  Slicing the empty string panics. *)
Definition Base64SmartDecode (data : string) : Outcome string :=
  match Go.ParseInt64 data with
  | Some _ => Returns data
  | None =>
      let decoded :=
        match DecodeString data with
        | Some decodeData => Returns decodeData
        | None => Returns data
        end in
      if (String.length data <? 5)%nat then
        if (String.length data =? 0)%nat
        then Panics "slice bounds out of range"
        else if negb (Strings.last1 data =? "=") then Returns data
             else decoded
      else decoded
  end.

End Base64.

(* ===================================================================== *)
(** ** What the loops over a map select                                  *)
(* ===================================================================== *)

(** [mount] is in sys/auth, of type [authType], and starts with
    [prefixMatch]. *)
Definition mount_matches (data : gmap string Value)
    (authType prefixMatch mount : string) : Prop :=
  Strings.HasPrefix mount prefixMatch = true
  /\ exists mountData,
       data !! mount = Some (VMap mountData)
       /\ mountData !! "type" = Some (VString authType).

(** Every mount of sys/auth is an object, and those that start with
    [prefixMatch] carry their type as a string. *)
Definition mounts_typed (data : gmap string Value) (prefixMatch : string)
    : Prop :=
  forall mount v, data !! mount = Some v ->
    exists mountData,
      v = VMap mountData
      /\ (Strings.HasPrefix mount prefixMatch = true ->
          exists t, mountData !! "type" = Some (VString t)).

(** The metadata of a version passes the two filters of
    [GetKV2VersionList]. *)
Definition kept (includeDeleted includeDestroyed : bool)
    (data : gmap string Value) : bool :=
  negb (deleted data && negb includeDeleted)
  && negb (destroyed data && negb includeDestroyed).

(** Every version is an object, and the key of those that pass the
    filters is a number. *)
Definition versions_numbered (includeDeleted includeDestroyed : bool)
    (versions : gmap string Value) : Prop :=
  forall k v, versions !! k = Some v ->
    exists data,
      v = VMap data
      /\ (kept includeDeleted includeDestroyed data = true ->
          exists n, Go.ParseInt64 k = Some n).

(** [n] is the number of a version that passes the filters. *)
Definition listed (includeDeleted includeDestroyed : bool)
    (versions : gmap string Value) (n : Z) : Prop :=
  exists k data,
    versions !! k = Some (VMap data)
    /\ kept includeDeleted includeDestroyed data = true
    /\ Go.ParseInt64 k = Some n.

(** The entry is no object. *)
Definition not_an_object (v : Value) : Prop :=
  match v with
  | VMap _ => False
  | _ => True
  end.

Module Sample.

(** sys/auth with an LDAP mount and two Kubernetes mounts. *)
Definition mounts : gmap string Value :=
  {[ "ldap/" := VMap {[ "type" := VString "ldap" ]};
     "k8s/a/" := VMap {[ "type" := VString "kubernetes" ]};
     "k8s/b/" := VMap {[ "type" := VString "kubernetes" ]} ]}.

(** The same with a mount that is no object. *)
Definition broken_mounts : gmap string Value :=
  <[ "zz/" := VString "?" ]> mounts.

(** The metadata of a secret with three versions: the first deleted, the
    second destroyed, the third live. *)
Definition version (deletion_time : string) (destroyed : bool) : Value :=
  VMap {[ "deletion_time" := VString deletion_time;
          "destroyed" := VBool destroyed ]}.
Definition versions : gmap string Value :=
  {[ "1" := version "2020-01-01T00:00:00Z" false;
     "2" := version "" true;
     "3" := version "" false;
     "10" := version "" false ]}.
Definition metadata : Response :=
  (Some {| Data := {[ "versions" := VMap versions ]}; Auth := None |}, None).

(** Metadata in which one version is no object. *)
Definition broken_versions : gmap string Value :=
  <[ "4" := VNil ]> versions.

End Sample.

(* ===================================================================== *)
(** ** One retry: what is observed                                       *)
(* ===================================================================== *)

(** One level of an operation: the backend call, and on an error the
    dispatcher, which hands over to [next] when it reports a recovery.
    [retrying] at [S fuel] is [attempt] with [retrying] at [fuel] for
    [next] ([retrying_attempt]). *)
Definition attempt {R} (E : Env) (by_ : Caller) (req : Request)
    (done : Response -> M R) (giveup : Response -> R) (next : M R) : M R :=
  resp ← Logical E by_ req;
  match snd resp with
  | Some _ =>
      checkAuthErr ← checkAuthNeeded E;
      match checkAuthErr with
      | None => next
      | Some _ => mret (giveup resp)
      end
  | None => done resp
  end.

(** The part [GetKV] and [GetKV2VersionList] share: they call [Read] and,
    when [Read] returns an error, ask [checkAuthNeeded] themselves and
    start over if it reports none ([GetKV_reading],
    [GetKV2VersionList_reading]). *)
Fixpoint reading {R} (E : Env) (path : string)
    (done : option Secret -> M R) (giveup : error -> R) (fuel : nat) : M R :=
  match fuel with
  | O => out_of_fuel
  | S fuel =>
      '(secret, err) ← Read E fuel path;
      match err with
      | Some e =>
          checkAuthErr ← checkAuthNeeded E;
          match checkAuthErr with
          | None => reading E path done giveup fuel
          | Some _ => mret (giveup e)
          end
      | None => done secret
      end
  end.

Definition GetKV_done (path : string) (returnOnlyData : bool)
    (secret : option Secret) : M (gmap string Value * option error) :=
  match secret with
  | None => mret (∅, Some "secret not found")
  | Some secret =>
      if returnOnlyData then
        match Data secret !! "data" with
        | Some (VMap m) => mret (m, None)
        | _ => mret (∅, Some ("unable to read requested secret at " +:+ path))
        end
      else mret (Data secret, None)
  end.

Definition GetKV2VersionList_done
    (range_ : gmap string Value -> list (string * Value))
    (includeDeleted includeDestroyed : bool) (secret : option Secret)
    : M (list Z * option error) :=
  match secret with
  | None => mret ([], Some "secret not found")
  | Some secret =>
      match Data secret !! "versions" with
      | None => mret ([], Some "version information not found in secret")
      | Some (VMap versions) =>
          match GetKV2VersionList_collect (range_ versions)
                  includeDeleted includeDestroyed [] with
          | Returns (returnVersions, None) =>
              mret (sort_reverse returnVersions, None)
          | Returns (returnVersions, Some e) => mret (returnVersions, Some e)
          | Panics msg => panic msg
          | OutOfFuel => out_of_fuel
          end
      | Some _ => mret (sort_reverse [], None)
      end
  end.

Definition GetAuthType_done
    (range_ : gmap string Value -> list (string * Value)) (mount : string)
    (resp : Response) : M (string * option error) :=
  match fst resp with
  | None => panic "nil pointer dereference"
  | Some data =>
      match GetAuthType_select (range_ (Data data)) mount with
      | Returns r => mret r
      | Panics msg => panic msg
      | OutOfFuel => out_of_fuel
      end
  end.

Definition GetAuthMountsByType_done
    (range_ : gmap string Value -> list (string * Value))
    (authType prefixMatch : string) (resp : Response)
    : M (list string * option error) :=
  match fst resp with
  | None => panic "nil pointer dereference"
  | Some data =>
      match GetAuthMountsByType_collect (range_ (Data data))
              authType prefixMatch [] with
      | Returns r => mret r
      | Panics msg => panic msg
      | OutOfFuel => out_of_fuel
      end
  end.

(** The run of [m] from [w] ends, with one login request and two backend
    calls of [by_] in all. *)
Definition once {R} (by_ : Caller) (m : M R) (w : World) : Prop :=
  fst (m w) <> OutOfFuel
  /\ logins (events m w) = 1%nat
  /\ calls by_ (events m w) = 2%nat.

(** One of the two guards of [checkAuthNeeded] holds in [w]: the cooldown
    is not over, or the health check does not ask for a refresh. *)
Definition guarded (E : Env) (w : World) : Prop :=
  elapsed E w < 5 \/ ~ stale E (requests w) (clientToken w).

(** [checkAuthNeeded], called in [w], reports no recovery and sends no
    login request. *)
Definition quiet (E : Env) (w : World) : Prop :=
  fst (checkAuthNeeded E w) <> Returns None
  /\ logins (events (checkAuthNeeded E) w) = O.

(** The recovery [checkAuthNeeded] would dispatch in [w] is a login: the
    recorded method is kubernetes or ldap, or it is approle with a
    credential path missing, or approle with nothing to reuse in the token
    cache file (which [InitApprole] reads after the self-lookup of the
    dispatcher). *)
Definition recovers_by_login (E : Env) (w : World) : Prop :=
  lastAuthMethod (authCache w) = "kubernetes"
  \/ lastAuthMethod (authCache w) = "ldap"
  \/ (lastAuthMethod (authCache w) = "approle"
      /\ (roleIDFile (approle (authCache w)) = ""
          \/ secretIDFile (approle (authCache w)) = ""
          \/ nothing_cached E (tokenFile (approle (authCache w)))
               (sent E InGetTokenTTL lookup_self (tick E w)))).

(** The first call of an operation, [req] sent by [by_] in [w], fails;
    [checkAuthNeeded] then reports a recovery, which is a login and leaves
    [w2]. *)
Definition recovered (E : Env) (by_ : Caller) (req : Request)
    (w w2 : World) : Prop :=
  (exists e, snd (answer E w req) = Some e)
  /\ checkAuthNeeded E (sent E by_ req w) = (Returns None, w2)
  /\ recovers_by_login E (sent E by_ req w).

(** An operation [op] that sends [req] itself.  After a first call that
    fails and a recovery by login, that recovery is one login request, and
    the operation ends with this one login request and two calls in all
    exactly when the retried call returns no error or [checkAuthNeeded],
    called after it, is [quiet]. *)
Definition retries_once {R} (E : Env) (by_ : Caller) (req : Request)
    (op : nat -> M R) : Prop :=
  forall fuel w w2,
    recovered E by_ req w w2 ->
    logins (events (checkAuthNeeded E) (sent E by_ req w)) = 1%nat
    /\ (once by_ (op (S (S fuel))) w
        <-> snd (answer E w2 req) = None \/ quiet E (sent E by_ req w2)).

(** What an operation that goes through [Read] needs after the retried
    call, answered [resp] and leaving [w]: a secret; or, [Read] returning
    its own error for a missing secret, a [quiet] dispatcher when the
    operation calls it; or, the call failing, a [quiet] dispatcher when
    [Read] calls it and again when the operation does. *)
Definition settles (E : Env) (w : World) (resp : Response) : Prop :=
  match resp with
  | (Some _, None) => True
  | (None, None) => quiet E w
  | (_, Some _) =>
      quiet E w
      /\ forall err w3,
           checkAuthNeeded E w = (Returns (Some err), w3) -> quiet E w3
  end.

(** An operation [op] that reads [path] through [Read]: as
    [retries_once], with [settles] for what the retried call needs. *)
Definition reads_once {R} (E : Env) (path : string) (op : nat -> M R)
    : Prop :=
  forall fuel w w2,
    recovered E InRead (ReqRead path) w w2 ->
    logins (events (checkAuthNeeded E) (sent E InRead (ReqRead path) w))
      = 1%nat
    /\ (once InRead (op (S (S (S fuel)))) w
        <-> settles E (sent E InRead (ReqRead path) w2)
              (answer E w2 (ReqRead path))).

(** [GetAuthType] normalises the path it is given at every level, so the
    retried call needs the mount to pass the normalisation again; with
    that, as [retries_once].  The converse needs the normalisation to pass
    a third time, since a further retry that panics on the path sends
    nothing. *)
Definition GetAuthType_retries_once (E : Env)
    (range_ : gmap string Value -> list (string * Value)) (path : string)
    : Prop :=
  forall fuel w w2 mount mount',
    GetAuthType_mount path = Returns mount ->
    GetAuthType_mount mount = Returns mount' ->
    recovered E InGetAuthType (ReqRead "sys/auth") w w2 ->
    logins (events (checkAuthNeeded E)
              (sent E InGetAuthType (ReqRead "sys/auth") w)) = 1%nat
    /\ (snd (answer E w2 (ReqRead "sys/auth")) = None
        \/ quiet E (sent E InGetAuthType (ReqRead "sys/auth") w2) ->
        once InGetAuthType (GetAuthType E range_ (S (S fuel)) path) w)
    /\ ((exists mount'', GetAuthType_mount mount' = Returns mount'') ->
        once InGetAuthType (GetAuthType E range_ (S (S fuel)) path) w ->
        snd (answer E w2 (ReqRead "sys/auth")) = None
        \/ quiet E (sent E InGetAuthType (ReqRead "sys/auth") w2)).

(** A computation never stops for want of fuel. *)
Definition ends {A} (m : M A) : Prop := forall w, fst (m w) <> OutOfFuel.

(** The run of [m] from [w] ends, with [l] login requests and [c] backend
    calls of [by_]. *)
Definition tally {R} (by_ : Caller) (m : M R) (w : World) (l c : nat)
    : Prop :=
  fst (m w) <> OutOfFuel
  /\ logins (events m w) = l
  /\ calls by_ (events m w) = c.

(* ===================================================================== *)
(** ** Proofs                                                            *)
(* ===================================================================== *)

Ltac run :=
  unfold mbind, M_bind, mret, M_ret, cache, assign, panic, out_of_fuel,
    time_Now_Unix, Logical, Client_SetToken, os_ReadFile, os_Create,
    WriteString;
  cbn [fst snd authCache clientToken files requests ticks trace log].

Lemma events_eq {A} (m : M A) w d :
  trace (snd (m w)) = trace w ++ d -> events m w = d.
Proof. unfold events. intros ->. apply drop_app_length. Qed.

Lemma sub64_exact a b :
  - 2 ^ 63 <= a - b < 2 ^ 63 -> Go.sub64 a b = a - b.
Proof.
  intros H. unfold Go.sub64, Go.wrap64.
  rewrite Z.mod_small by lia. lia.
Qed.

Section Shapes.
Variable E : Env.

(** *** The operations are instances of [retrying] *)

Lemma Read_retrying fuel path w :
  Read E fuel path w
  = retrying E InRead (ReqRead path) Read_done (fun r => (None, snd r)) fuel w.
Proof.
  revert w. induction fuel as [|fuel IH]; intros w; [reflexivity|].
  cbn [Read retrying]. unfold mbind, M_bind, Logical.
  destruct (backend E (requests w) (clientToken w) (ReqRead path)) as [secret [e|]];
    cbn [fst snd].
  - destruct (checkAuthNeeded E _) as [[[ce|]| |] w']; try reflexivity.
    apply IH.
  - unfold Read_done. cbn [fst]. destruct secret; reflexivity.
Qed.

Lemma List_retrying fuel path w :
  List E fuel path w
  = retrying E InList (ReqList path) List_done (fun r => ([], snd r)) fuel w.
Proof.
  revert w. induction fuel as [|fuel IH]; intros w; [reflexivity|].
  cbn [List retrying]. unfold mbind, M_bind, Logical.
  destruct (backend E (requests w) (clientToken w) (ReqList path)) as [secret [e|]];
    cbn [fst snd].
  - destruct (checkAuthNeeded E _) as [[[ce|]| |] w']; try reflexivity.
    apply IH.
  - unfold List_done. cbn [fst]. destruct secret; reflexivity.
Qed.

Lemma Write_retrying fuel path data w :
  Write E fuel path data w
  = retrying E InWrite (ReqWrite path data) mret (fun r => r) fuel w.
Proof.
  revert w. induction fuel as [|fuel IH]; intros w; [reflexivity|].
  cbn [Write retrying]. unfold mbind, M_bind, Logical.
  destruct (backend E (requests w) (clientToken w) (ReqWrite path data)) as [secret [e|]];
    cbn [fst snd].
  - destruct (checkAuthNeeded E _) as [[[ce|]| |] w']; try reflexivity.
    apply IH.
  - reflexivity.
Qed.

Lemma Delete_retrying fuel path w :
  Delete E fuel path w
  = retrying E InDelete (ReqDelete path) (fun r => mret (snd r)) snd fuel w.
Proof.
  revert w. induction fuel as [|fuel IH]; intros w; [reflexivity|].
  cbn [Delete retrying]. unfold mbind, M_bind, Logical.
  destruct (backend E (requests w) (clientToken w) (ReqDelete path)) as [secret [e|]];
    cbn [fst snd].
  - destruct (checkAuthNeeded E _) as [[[ce|]| |] w']; try reflexivity.
    apply IH.
  - reflexivity.
Qed.

Lemma GetKV2ByVersion_retrying fuel path version w :
  GetKV2ByVersion E fuel path version w
  = retrying E InGetKV2ByVersion
      (ReqReadWithData path {[ "version" := [Itoa version] ]})
      (GetKV2ByVersion_done path) (fun r => (∅, snd r)) fuel w.
Proof.
  revert w. induction fuel as [|fuel IH]; intros w; [reflexivity|].
  cbn [GetKV2ByVersion retrying]. unfold mbind, M_bind, Logical.
  destruct (backend E (requests w) (clientToken w) _) as [secret [e|]];
    cbn [fst snd].
  - destruct (checkAuthNeeded E _) as [[[ce|]| |] w']; try reflexivity.
    apply IH.
  - unfold GetKV2ByVersion_done. cbn [fst]. destruct secret; reflexivity.
Qed.


(** *** The token health check *)

Lemma tokenRefreshNeeded_run m w :
  tokenRefreshNeeded E m w
  = (verdict m (answer E w lookup_self), sent E InGetTokenTTL lookup_self w).
Proof.
  unfold tokenRefreshNeeded, GetTokenTTL, sent, answer, verdict, lookup_self.
  run.
  destruct (backend E (requests w) (clientToken w) _) as [[s|] [e|]];
    try reflexivity.
  destruct (Data s !! "ttl") as [[]|]; try reflexivity.
  destruct (Go.ParseInt64 n); try reflexivity.
  cbn. destruct (_ <? _)%Z; reflexivity.
Qed.

Lemma verdict_false m resp :
  verdict m resp = Returns false <-> reports_ttl m resp.
Proof.
  unfold reports_ttl, verdict. split.
  - destruct resp as [[s|] [e|]]; try discriminate.
    destruct (Data s !! "ttl") as [[]|] eqn:Hd; try discriminate.
    destruct (Go.ParseInt64 n) as [ttl|] eqn:Hp; try discriminate.
    destruct (Z.ltb_spec ttl m); try discriminate.
    intros _. exists s, n, ttl. auto.
  - intros (s & n & ttl & -> & -> & -> & Hle).
    destruct (Z.ltb_spec ttl m); [lia|reflexivity].
Qed.

(** *** The two guards of the dispatcher *)

Lemma checkAuthNeeded_cooldown w :
  elapsed E w < 5 ->
  checkAuthNeeded E w
  = (Returns (Some "login was attempted recently, not retrying"), tick E w).
Proof.
  unfold elapsed, checkAuthNeeded, tick. intros H. run.
  destruct (Z.ltb_spec (Go.sub64 (Unix E (ticks w)) (lastAuthTime (authCache w))) 5);
    [reflexivity|lia].
Qed.

(** Past the cooldown the dispatcher runs the health check. *)
Lemma checkAuthNeeded_past_cooldown w :
  5 <= elapsed E w ->
  checkAuthNeeded E w
  = match verdict 5 (answer E (tick E w) lookup_self) with
    | Returns false =>
        (Returns (Some "vault token does not need refreshing"),
         sent E InGetTokenTTL lookup_self (tick E w))
    | Returns true =>
        let w1 := sent E InGetTokenTTL lookup_self (tick E w) in
        let c := authCache w1 in
        if lastAuthMethod c =? "approle" then
          if (roleIDFile (approle c) =? "") || (secretIDFile (approle c) =? "")
          then
            ('(_, err) ← ApproleLogin E (roleID (approle c))
                           (secretID (approle c))
                           (approle_authPath (approle c));
             mret err) w1
          else
            ('(_, err) ← InitApprole E (roleIDFile (approle c))
                           (secretIDFile (approle c)) (tokenFile (approle c))
                           (approle_authPath (approle c));
             mret err) w1
        else if lastAuthMethod c =? "kubernetes" then
          ('(_, err) ← KubernetesLogin E (jwt (kubernetes c))
                         (role (kubernetes c))
                         (kubernetes_authPath (kubernetes c));
           mret err) w1
        else if lastAuthMethod c =? "ldap" then
          ('(_, err) ← LDAPLogin E (username (ldap c)) (password (ldap c))
                         (ldap_authPath (ldap c));
           mret err) w1
        else if lastAuthMethod c =? "token" then
          (t ← time_Now_Unix E; assign (Assign.set_lastAuthTime t);; mret None) w1
        else
          (Returns
             (Some ("unknown previous auth method or no authentication performed: ["
                    +:+ lastAuthMethod c +:+ "]")), w1)
    | Panics msg => (Panics msg, sent E InGetTokenTTL lookup_self (tick E w))
    | OutOfFuel => (OutOfFuel, sent E InGetTokenTTL lookup_self (tick E w))
    end.
Proof.
  unfold elapsed, checkAuthNeeded. intros Hc.
  unfold mbind at 1, M_bind at 1. unfold time_Now_Unix at 1.
  unfold mbind at 1, M_bind at 1. unfold cache at 1.
  cbn [authCache log].
  destruct (Z.ltb_spec (Go.sub64 (Unix E (ticks w)) (lastAuthTime (authCache w))) 5);
    [lia|].
  unfold mbind at 1, M_bind at 1.
  change (log _ _) with (tick E w).
  rewrite tokenRefreshNeeded_run.
  destruct (verdict 5 _) as [[|]| |]; try reflexivity.
  cbn [negb]. unfold mbind at 1, M_bind at 1. unfold cache at 1.
  set (w1 := sent E InGetTokenTTL lookup_self (tick E w)).
  cbn zeta.
  repeat (match goal with |- context [if ?b then _ else _] =>
            destruct b end; try reflexivity).
Qed.

Lemma checkAuthNeeded_healthy w :
  5 <= elapsed E w -> healthy E (requests w) (clientToken w) ->
  checkAuthNeeded E w
  = (Returns (Some "vault token does not need refreshing"),
     sent E InGetTokenTTL lookup_self (tick E w)).
Proof.
  intros Hc Hh. rewrite checkAuthNeeded_past_cooldown by exact Hc.
  unfold healthy in Hh. unfold answer. cbn [requests clientToken tick snd time_Now_Unix log].
  rewrite Hh. reflexivity.
Qed.

(** *** The retry shape under the two guards *)

Section Guards.
Context {R : Type} (by_ : Caller) (req : Request)
  (done : Response -> M R) (giveup : Response -> R).

Lemma retrying_fails fuel w e :
  snd (answer E w req) = Some e ->
  retrying E by_ req done giveup (S fuel) w
  = match checkAuthNeeded E (sent E by_ req w) with
    | (Returns None, w') => retrying E by_ req done giveup fuel w'
    | (Returns (Some _), w') => (Returns (giveup (answer E w req)), w')
    | (Panics msg, w') => (Panics msg, w')
    | (OutOfFuel, w') => (OutOfFuel, w')
    end.
Proof.
  intros He. cbn [retrying]. unfold mbind at 1, M_bind at 1.
  unfold Logical at 1. fold (answer E w req). rewrite He.
  unfold mbind, M_bind. 
  match goal with |- context [checkAuthNeeded E ?w1] =>
    change w1 with (sent E by_ req w) end.
  destruct (checkAuthNeeded E _) as [[[ce|]| |] w']; reflexivity.
Qed.

Lemma retrying_succeeds fuel w :
  snd (answer E w req) = None ->
  retrying E by_ req done giveup (S fuel) w
  = done (answer E w req) (sent E by_ req w).
Proof.
  intros He. cbn [retrying]. unfold mbind at 1, M_bind at 1.
  unfold Logical at 1. fold (answer E w req). rewrite He. reflexivity.
Qed.

Lemma retrying_cooldown fuel w e :
  snd (answer E w req) = Some e ->
  elapsed E w < 5 ->
  retrying E by_ req done giveup (S fuel) w
  = (Returns (giveup (answer E w req)), tick E (sent E by_ req w)).
Proof.
  intros He Hc. rewrite retrying_fails with (e := e) by exact He.
  rewrite checkAuthNeeded_cooldown by exact Hc. reflexivity.
Qed.

Lemma retrying_healthy fuel w e :
  snd (answer E w req) = Some e ->
  5 <= elapsed E w ->
  healthy E (S (requests w)) (clientToken w) ->
  retrying E by_ req done giveup (S fuel) w
  = (Returns (giveup (answer E w req)),
     sent E InGetTokenTTL lookup_self (tick E (sent E by_ req w))).
Proof.
  intros He Hc Hh. rewrite retrying_fails with (e := e) by exact He.
  rewrite checkAuthNeeded_healthy by assumption. reflexivity.
Qed.

End Guards.

End Shapes.

(* --------------------------------------------------------------------- *)
(** *** What a computation appends to the trace                          *)

Section Emits.
Variable P : Event -> Prop.

Lemma emits_ret {A} (a : A) : emits P (mret a).
Proof. intros w. exists []. rewrite app_nil_r. auto. Qed.

Lemma emits_panic {A} msg : emits P (panic (A := A) msg).
Proof. intros w. exists []. rewrite app_nil_r. auto. Qed.

Lemma emits_out_of_fuel {A} : emits P (out_of_fuel (A := A)).
Proof. intros w. exists []. rewrite app_nil_r. auto. Qed.

Lemma emits_assign f : emits P (assign f).
Proof. intros w. exists []. rewrite app_nil_r. auto. Qed.

Lemma emits_cache : emits P cache.
Proof. intros w. exists []. rewrite app_nil_r. auto. Qed.

Lemma emits_bind {A B} (m : M A) (f : A -> M B) :
  emits P m -> (forall a, emits P (f a)) -> emits P (m ≫= f).
Proof.
  intros Hm Hf w. unfold mbind, M_bind.
  destruct (Hm w) as (d & Hd & HP).
  destruct (m w) as [[a| |] w1]; cbn [snd] in *.
  - destruct (Hf a w1) as (d' & Hd' & HP').
    exists (d ++ d'). rewrite Hd', Hd, app_assoc. split; [reflexivity|].
    apply Forall_app; auto.
  - exists d; auto.
  - exists d; auto.
Qed.

Lemma emits_one {A} (m : M A) :
  (forall w, exists ev, trace (snd (m w)) = trace w ++ [ev] /\ P ev) ->
  emits P m.
Proof.
  intros H w. destruct (H w) as (ev & Hev & HP). exists [ev]. auto.
Qed.

Lemma emits_now E : (forall t, P (EvNow t)) -> emits P (time_Now_Unix E).
Proof. intros H. apply emits_one. intros w. eexists. split; [reflexivity|apply H]. Qed.

Lemma emits_Logical E by_ req :
  (forall tok resp, P (EvRequest by_ tok req resp)) ->
  emits P (Logical E by_ req).
Proof. intros H. apply emits_one. intros w. eexists. split; [reflexivity|apply H]. Qed.

Lemma emits_SetToken tok :
  (forall c, P (EvSetToken tok c)) -> emits P (Client_SetToken tok).
Proof. intros H. apply emits_one. intros w. eexists. split; [reflexivity|apply H]. Qed.

Lemma emits_ReadFile path :
  (forall content, P (EvReadFile path content)) -> emits P (os_ReadFile path).
Proof. intros H. apply emits_one. intros w. eexists. split; [reflexivity|apply H]. Qed.

Lemma emits_Create E path :
  (forall ok, P (EvCreate path ok)) -> emits P (os_Create E path).
Proof.
  intros H. apply emits_one. intros w. unfold os_Create.
  destruct (creatable E path); eexists; (split; [reflexivity|apply H]).
Qed.

Lemma emits_WriteString E path content :
  (forall ok, P (EvWriteString path content ok)) ->
  emits P (WriteString E path content).
Proof.
  intros H. apply emits_one. intros w. unfold WriteString.
  destruct (writable E path); eexists; (split; [reflexivity|apply H]).
Qed.

End Emits.

(** Splits a computation along its binds and branches, by the head of the
    term. *)
Ltac emits_step :=
  cbv beta;
  lazymatch goal with
  | |- emits _ (mbind _ _) => apply emits_bind; [|intros ?]
  | |- emits _ (mret _) => apply emits_ret
  | |- emits _ (panic _) => apply emits_panic
  | |- emits _ out_of_fuel => apply emits_out_of_fuel
  | |- emits _ (assign _) => apply emits_assign
  | |- emits _ cache => apply emits_cache
  | |- emits _ (time_Now_Unix _) => apply emits_now; intros; exact I
  | |- emits _ (Logical _ _ _) => apply emits_Logical; intros; reflexivity
  | |- emits _ (Client_SetToken _) => apply emits_SetToken; intros; exact I
  | |- emits _ (os_ReadFile _) => apply emits_ReadFile; intros; exact I
  | |- emits _ (os_Create _ _) => apply emits_Create; intros; exact I
  | |- emits _ (WriteString _ _ _) =>
      apply emits_WriteString; intros; exact I
  | |- emits _ (match ?x with _ => _ end) => destruct x
  end.

Section AuthEvents.
Variable E : Env.

Lemma tokenRefreshNeeded_auth m : emits auth_event (tokenRefreshNeeded E m).
Proof. unfold tokenRefreshNeeded, GetTokenTTL. repeat emits_step. Qed.

Lemma ApproleLogin_auth r s p : emits auth_event (ApproleLogin E r s p).
Proof. unfold ApproleLogin. repeat emits_step. Qed.

Lemma KubernetesLogin_auth j r p : emits auth_event (KubernetesLogin E j r p).
Proof. unfold KubernetesLogin. repeat emits_step. Qed.

Lemma LDAPLogin_auth u pw p : emits auth_event (LDAPLogin E u pw p).
Proof. unfold LDAPLogin. repeat emits_step. Qed.

Ltac auth_step :=
  cbv beta;
  lazymatch goal with
  | |- emits _ (tokenRefreshNeeded _ _) => apply tokenRefreshNeeded_auth
  | |- emits _ (ApproleLogin _ _ _ _) => apply ApproleLogin_auth
  | |- emits _ (KubernetesLogin _ _ _ _) => apply KubernetesLogin_auth
  | |- emits _ (LDAPLogin _ _ _ _) => apply LDAPLogin_auth
  | |- _ => emits_step
  end.

Lemma InitApprole_auth rf sf tf p : emits auth_event (InitApprole E rf sf tf p).
Proof. unfold InitApprole. repeat auth_step. Qed.

Lemma checkAuthNeeded_auth : emits auth_event (checkAuthNeeded E).
Proof.
  unfold checkAuthNeeded.
  repeat lazymatch goal with
         | |- emits _ (InitApprole _ _ _ _ _) => apply InitApprole_auth
         | |- _ => auth_step
         end.
Qed.

End AuthEvents.

Lemma count_app p tr1 tr2 : count p (tr1 ++ tr2) = (count p tr1 + count p tr2)%nat.
Proof.
  induction tr1 as [|ev tr1 IH]; [reflexivity|].
  cbn. destruct (p ev); cbn; rewrite IH; reflexivity.
Qed.

Lemma calls_auth c d :
  auth_caller c = false -> Forall auth_event d -> calls c d = O.
Proof.
  intros Hc. induction 1 as [|ev d Hev _ IH]; [reflexivity|].
  unfold calls in *. cbn. rewrite IH.
  destruct ev; cbn; try reflexivity.
  cbn in Hev. case_bool_decide; [subst; congruence|reflexivity].
Qed.

(* --------------------------------------------------------------------- *)
(** *** The login flows                                                  *)

Section Flows.
Variable E : Env.

Lemma ApproleLogin_exchange r s p w :
  ApproleLogin E r s p w
  = exchange E InApproleLogin
      (ReqWrite ((if p =? "" then "auth/approle" else p) +:+ "/login")
         {[ "role_id" := VString r; "secret_id" := VString s ]})
      (with_cache
         (approle_recorded r s (if p =? "" then "auth/approle" else p)
            (authCache w)) w).
Proof. reflexivity. Qed.

Lemma KubernetesLogin_exchange j r p w :
  KubernetesLogin E j r p w
  = exchange E InKubernetesLogin
      (ReqWrite p {[ "jwt" := VString j; "role" := VString r ]})
      (with_cache (kubernetes_recorded j r p (authCache w)) w).
Proof. reflexivity. Qed.

Lemma LDAPLogin_exchange u pw p w :
  LDAPLogin E u pw p w
  = exchange E InLDAPLogin
      (ReqWrite ((if p =? "" then "auth/ldap" else p) +:+ "/login/" +:+ u)
         {[ "password" := VString pw ]})
      (with_cache
         (ldap_recorded u pw (if p =? "" then "auth/ldap" else p)
            (authCache w)) w).
Proof. reflexivity. Qed.

(** A granted login returns the token, stamped and installed. *)
Lemma exchange_granted by_ req w tok :
  granted (answer E w req) = Some tok ->
  exchange E by_ req w
  = (Returns (tok, None), installed E tok (sent E by_ req w)).
Proof.
  unfold granted, exchange, answer, installed, sent, tick. intros H. run.
  destruct (backend E _ _ _) as [[[data [auth|]]|] [e|]]; try discriminate.
  cbn in H. injection H as <-. reflexivity.
Qed.

(** Any other response ends the flow after the request, with an error or
    a panic. *)
Lemma exchange_refused by_ req w :
  granted (answer E w req) = None ->
  snd (exchange E by_ req w) = sent E by_ req w
  /\ forall tok, fst (exchange E by_ req w) <> Returns (tok, None).
Proof.
  unfold granted, exchange, answer, sent. intros H. run.
  destruct (backend E _ _ _) as [[[data [auth|]]|] [e|]]; try discriminate;
    (split; [reflexivity|intros tok; discriminate]).
Qed.

Lemma exchange_events by_ req w :
  events (exchange E by_ req) w
  = EvRequest by_ (clientToken w) req (answer E w req) ::
    match granted (answer E w req) with
    | Some tok =>
        [EvNow (Unix E (ticks w));
         EvSetToken tok
           (Assign.set_lastAuthTime (Unix E (ticks w)) (authCache w))]
    | None => []
    end.
Proof.
  apply events_eq.
  destruct (granted (answer E w req)) as [tok|] eqn:Hg.
  - rewrite exchange_granted with (tok := tok) by exact Hg.
    cbn. rewrite <- !app_assoc. reflexivity.
  - destruct (exchange_refused by_ req w Hg) as [-> _]. reflexivity.
Qed.

End Flows.

(* --------------------------------------------------------------------- *)
(** *** Invariants of the auth cache along a computation                 *)

Section Preserves.
Variable I : vaultAuthCache -> Prop.
Variable P : Event -> Prop.

Lemma preserves_silent {A} (m : M A) :
  (forall w, I (authCache w) ->
     I (authCache (snd (m w))) /\ trace (snd (m w)) = trace w) ->
  preserves I P m.
Proof.
  intros H w HI. destruct (H w HI) as [HI' Ht]. split; [exact HI'|].
  exists []. rewrite app_nil_r. auto.
Qed.

Lemma preserves_ret {A} (a : A) : preserves I P (mret a).
Proof. apply preserves_silent. intros w HI. split; [exact HI|reflexivity]. Qed.

Lemma preserves_panic {A} msg : preserves I P (panic (A := A) msg).
Proof. apply preserves_silent. intros w HI. split; [exact HI|reflexivity]. Qed.

Lemma preserves_cache : preserves I P cache.
Proof. apply preserves_silent. intros w HI. split; [exact HI|reflexivity]. Qed.

Lemma preserves_assign f :
  (forall c, I c -> I (f c)) -> preserves I P (assign f).
Proof.
  intros Hf. apply preserves_silent. intros w HI.
  split; [apply Hf, HI|reflexivity].
Qed.

Lemma preserves_bind {A B} (m : M A) (f : A -> M B) :
  preserves I P m -> (forall a, preserves I P (f a)) ->
  preserves I P (m ≫= f).
Proof.
  intros Hm Hf w HI. unfold mbind, M_bind.
  destruct (Hm w HI) as (HI1 & d & Hd & HP).
  destruct (m w) as [[a| |] w1]; cbn [snd] in *.
  - destruct (Hf a w1 HI1) as (HI2 & d' & Hd' & HP').
    split; [exact HI2|].
    exists (d ++ d'). rewrite Hd', Hd, app_assoc. split; [reflexivity|].
    apply Forall_app; auto.
  - split; [exact HI1|]. exists d; auto.
  - split; [exact HI1|]. exists d; auto.
Qed.

Lemma preserves_one {A} (m : M A) :
  (forall w, I (authCache w) ->
     authCache (snd (m w)) = authCache w
     /\ exists ev, trace (snd (m w)) = trace w ++ [ev] /\ P ev) ->
  preserves I P m.
Proof.
  intros H w HI. destruct (H w HI) as (Hc & ev & Hev & HP).
  rewrite Hc. split; [exact HI|]. exists [ev]. auto.
Qed.

Lemma preserves_now E : (forall t, P (EvNow t)) -> preserves I P (time_Now_Unix E).
Proof.
  intros H. apply preserves_one. intros w _. split; [reflexivity|].
  eexists. split; [reflexivity|apply H].
Qed.

Lemma preserves_Logical E by_ req :
  (forall tok resp, P (EvRequest by_ tok req resp)) ->
  preserves I P (Logical E by_ req).
Proof.
  intros H. apply preserves_one. intros w _. split; [reflexivity|].
  eexists. split; [reflexivity|apply H].
Qed.

Lemma preserves_SetToken tok :
  (forall c, I c -> P (EvSetToken tok c)) -> preserves I P (Client_SetToken tok).
Proof.
  intros H. apply preserves_one. intros w HI. split; [reflexivity|].
  eexists. split; [reflexivity|apply H, HI].
Qed.

Lemma preserves_ReadFile path :
  (forall content, P (EvReadFile path content)) ->
  preserves I P (os_ReadFile path).
Proof.
  intros H. apply preserves_one. intros w _. split; [reflexivity|].
  eexists. split; [reflexivity|apply H].
Qed.

Lemma preserves_Create E path :
  (forall ok, P (EvCreate path ok)) -> preserves I P (os_Create E path).
Proof.
  intros H. apply preserves_one. intros w _. unfold os_Create.
  destruct (creatable E path); (split; [reflexivity|]);
    eexists; (split; [reflexivity|apply H]).
Qed.

Lemma preserves_WriteString E path content :
  (forall ok, P (EvWriteString path content ok)) ->
  preserves I P (WriteString E path content).
Proof.
  intros H. apply preserves_one. intros w _. unfold WriteString.
  destruct (writable E path); (split; [reflexivity|]);
    eexists; (split; [reflexivity|apply H]).
Qed.

End Preserves.

Lemma run_assign_bind {B} f (k : unit -> M B) w :
  (assign f ≫= k) w = k tt (snd (assign f w)).
Proof. reflexivity. Qed.

Lemma run_ret_bind {A B} (a : A) (k : A -> M B) w : (mret a ≫= k) w = k a w.
Proof. reflexivity. Qed.

Lemma attributed_installs method d :
  Forall (attributed method) d -> installs_attributed method d.
Proof.
  induction 1 as [|ev d Hev _ IH]; [exact I|].
  destruct ev; cbn in *; auto.
Qed.

Section ApproleFiles.
Variable E : Env.
Variables rf sf tf : string.

Let Inv := approle_files rf sf tf.
Let Adm := attributed "approle".

Ltac preserves_step :=
  cbv beta;
  lazymatch goal with
  | |- preserves _ _ (mbind _ _) => apply preserves_bind; [|intros ?]
  | |- preserves _ _ (mret _) => apply preserves_ret
  | |- preserves _ _ (panic _) => apply preserves_panic
  | |- preserves _ _ cache => apply preserves_cache
  | |- preserves _ _ (assign _) =>
      apply preserves_assign;
        intros ? (? & ? & ? & ?); repeat split; assumption || reflexivity
  | |- preserves _ _ (time_Now_Unix _) =>
      apply preserves_now; intros; exact Logic.I
  | |- preserves _ _ (Logical _ _ _) =>
      apply preserves_Logical; intros; exact Logic.I
  | |- preserves _ _ (Client_SetToken _) =>
      apply preserves_SetToken; intros ? (? & _); assumption
  | |- preserves _ _ (os_ReadFile _) =>
      apply preserves_ReadFile; intros; exact Logic.I
  | |- preserves _ _ (os_Create _ _) =>
      apply preserves_Create; intros; exact Logic.I
  | |- preserves _ _ (WriteString _ _ _) =>
      apply preserves_WriteString; intros; exact Logic.I
  | |- preserves _ _ (match ?x with _ => _ end) => destruct x
  end.

Lemma tokenRefreshNeeded_files m : preserves Inv Adm (tokenRefreshNeeded E m).
Proof. unfold tokenRefreshNeeded, GetTokenTTL. repeat preserves_step. Qed.

Lemma ApproleLogin_files r s p : preserves Inv Adm (ApproleLogin E r s p).
Proof. unfold ApproleLogin. repeat preserves_step. Qed.

(** Whatever the outcome, [InitApprole] leaves the method and the three
    paths in the auth cache, and every token it installs finds the method
    recorded. *)
Lemma InitApprole_files p w :
  Inv (authCache (snd (InitApprole E rf sf tf p w)))
  /\ exists d, trace (snd (InitApprole E rf sf tf p w)) = trace w ++ d
               /\ Forall Adm d.
Proof.
  unfold InitApprole.
  destruct (negb (p =? ""));
    rewrite ?run_ret_bind, ?run_assign_bind;
    lazymatch goal with
    | |- _ (authCache (snd (?m ?w0))) /\ _ =>
        assert (Hk : preserves Inv Adm m)
          by (repeat lazymatch goal with
                     | |- preserves _ _ (tokenRefreshNeeded _ _) =>
                         apply tokenRefreshNeeded_files
                     | |- preserves _ _ (ApproleLogin _ _ _ _) =>
                         apply ApproleLogin_files
                     | |- _ => preserves_step
                     end);
        apply (Hk w0); repeat split; reflexivity
    end.
Qed.

End ApproleFiles.

(* ===================================================================== *)
(** ** The cooldown guard and the relevance check                        *)
(* ===================================================================== *)

(** C3.  When [checkAuthNeeded] is invoked less than 5 seconds after the
    recorded attempt time, it returns the "attempted recently" error at
    once: its only event is the clock reading (no health check, no login)
    and the auth cache is unchanged.  An operation whose backend call then
    fails returns that call's own error. *)
Theorem cooldown_blocks_recovery (E : Env) (w : World) :
  elapsed E w < 5 ->
  checkAuthNeeded E w
    = (Returns (Some "login was attempted recently, not retrying"), tick E w)
  /\ events (checkAuthNeeded E) w = [EvNow (Unix E (ticks w))]
  /\ authCache (tick E w) = authCache w
  /\ (forall fuel path s e,
        answer E w (ReqRead path) = (s, Some e) ->
        fst (Read E (S fuel) path w) = Returns (None, Some e))
  /\ (forall fuel path s e,
        answer E w (ReqList path) = (s, Some e) ->
        fst (List E (S fuel) path w) = Returns ([], Some e))
  /\ (forall fuel path data s e,
        answer E w (ReqWrite path data) = (s, Some e) ->
        fst (Write E (S fuel) path data w) = Returns (s, Some e))
  /\ (forall fuel path s e,
        answer E w (ReqDelete path) = (s, Some e) ->
        fst (Delete E (S fuel) path w) = Returns (Some e))
  /\ (forall fuel path version s e,
        answer E w (ReqReadWithData path {[ "version" := [Itoa version] ]})
          = (s, Some e) ->
        fst (GetKV2ByVersion E (S fuel) path version w) = Returns (∅, Some e))
  /\ (forall fuel path returnOnlyData s e,
        answer E w (ReqRead path) = (s, Some e) ->
        elapsed E (tick E w) < 5 ->
        fst (GetKV E (S (S fuel)) path returnOnlyData w) = Returns (∅, Some e)).
Proof.
  intros Hc. pose proof (checkAuthNeeded_cooldown E w Hc) as Hrun.
  split; [exact Hrun|]. split.
  { apply events_eq. rewrite Hrun. reflexivity. }
  split; [reflexivity|].
  repeat split.
  - intros fuel path s e Ha. rewrite Read_retrying.
    rewrite retrying_cooldown with (e := e); rewrite ?Ha; auto.
  - intros fuel path s e Ha. rewrite List_retrying.
    rewrite retrying_cooldown with (e := e); rewrite ?Ha; auto.
  - intros fuel path data s e Ha. rewrite Write_retrying.
    rewrite retrying_cooldown with (e := e); rewrite ?Ha; auto.
  - intros fuel path s e Ha. rewrite Delete_retrying.
    rewrite retrying_cooldown with (e := e); rewrite ?Ha; auto.
  - intros fuel path version s e Ha. rewrite GetKV2ByVersion_retrying.
    rewrite retrying_cooldown with (e := e); rewrite ?Ha; auto.
  - intros fuel path b s e Ha Hc2.
    cbn [GetKV]. unfold mbind at 1, M_bind at 1.
    rewrite Read_retrying.
    rewrite retrying_cooldown with (e := e); rewrite ?Ha; auto.
    cbn [snd]. unfold mbind, M_bind.
    rewrite checkAuthNeeded_cooldown; [reflexivity|exact Hc2].
Qed.

Lemma cooldown_blocks_recovery_witness :
  elapsed Scenario.cooling_env Scenario.cooling_world < 5
  /\ fst (checkAuthNeeded Scenario.cooling_env Scenario.cooling_world)
     = Returns (Some "login was attempted recently, not retrying")
  /\ fst (Read Scenario.cooling_env 1 "secret/x" Scenario.cooling_world)
     = Returns (None, Some "permission denied")
  /\ fst (GetKV Scenario.cooling_env 2 "secret/x" true Scenario.cooling_world)
     = Returns (∅, Some "permission denied").
Proof.
  assert (H : elapsed Scenario.cooling_env Scenario.cooling_world < 5)
    by (vm_compute; reflexivity).
  destruct (cooldown_blocks_recovery _ _ H)
    as (Hrun & _ & _ & HRead & _ & _ & _ & _ & HGetKV).
  split; [exact H|]. split; [rewrite Hrun; reflexivity|]. split.
  - apply (HRead O "secret/x" None "permission denied"). reflexivity.
  - apply (HGetKV O "secret/x" true None "permission denied").
    + reflexivity.
    + vm_compute; reflexivity.
Defined.

(** C4.  Past the cooldown, when the health check finds the token in good
    standing, [checkAuthNeeded] returns the "does not need refreshing"
    error after the clock reading and the self-lookup alone (no login, the
    auth cache and the token unchanged), and an operation whose backend
    call failed returns that call's own error, not the dispatcher's. *)
Theorem healthy_token_not_an_auth_problem (E : Env) (w : World) :
  5 <= elapsed E w ->
  (healthy E (requests w) (clientToken w) ->
     checkAuthNeeded E w
       = (Returns (Some "vault token does not need refreshing"),
          sent E InGetTokenTTL lookup_self (tick E w))
     /\ events (checkAuthNeeded E) w
        = [EvNow (Unix E (ticks w));
           EvRequest InGetTokenTTL (clientToken w) lookup_self
             (answer E w lookup_self)]
     /\ logins (events (checkAuthNeeded E) w) = O
     /\ authCache (snd (checkAuthNeeded E w)) = authCache w
     /\ clientToken (snd (checkAuthNeeded E w)) = clientToken w)
  /\ (healthy E (S (requests w)) (clientToken w) ->
      (forall fuel path s e,
         answer E w (ReqRead path) = (s, Some e) ->
         fst (Read E (S fuel) path w) = Returns (None, Some e))
      /\ (forall fuel path s e,
            answer E w (ReqList path) = (s, Some e) ->
            fst (List E (S fuel) path w) = Returns ([], Some e))
      /\ (forall fuel path data s e,
            answer E w (ReqWrite path data) = (s, Some e) ->
            fst (Write E (S fuel) path data w) = Returns (s, Some e))
      /\ (forall fuel path s e,
            answer E w (ReqDelete path) = (s, Some e) ->
            fst (Delete E (S fuel) path w) = Returns (Some e))
      /\ (forall fuel path version s e,
            answer E w (ReqReadWithData path {[ "version" := [Itoa version] ]})
              = (s, Some e) ->
            fst (GetKV2ByVersion E (S fuel) path version w)
            = Returns (∅, Some e))
      /\ (forall fuel path returnOnlyData s e,
            answer E w (ReqRead path) = (s, Some e) ->
            healthy E (S (S (requests w))) (clientToken w) ->
            fst (GetKV E (S (S fuel)) path returnOnlyData w)
            = Returns (∅, Some e))).
Proof.
  intros Hc. split.
  - intros Hh. pose proof (checkAuthNeeded_healthy E w Hc Hh) as Hrun.
    assert (Hev : events (checkAuthNeeded E) w
                  = [EvNow (Unix E (ticks w));
                     EvRequest InGetTokenTTL (clientToken w) lookup_self
                       (answer E w lookup_self)]).
    { apply events_eq. rewrite Hrun. cbn. rewrite <- app_assoc. reflexivity. }
    rewrite Hev, Hrun. repeat split; reflexivity.
  - intros Hh. repeat split.
    + intros fuel path s e Ha. rewrite Read_retrying.
      rewrite retrying_healthy with (e := e); rewrite ?Ha; auto.
    + intros fuel path s e Ha. rewrite List_retrying.
      rewrite retrying_healthy with (e := e); rewrite ?Ha; auto.
    + intros fuel path data s e Ha. rewrite Write_retrying.
      rewrite retrying_healthy with (e := e); rewrite ?Ha; auto.
    + intros fuel path s e Ha. rewrite Delete_retrying.
      rewrite retrying_healthy with (e := e); rewrite ?Ha; auto.
    + intros fuel path version s e Ha. rewrite GetKV2ByVersion_retrying.
      rewrite retrying_healthy with (e := e); rewrite ?Ha; auto.
    + intros fuel path b s e Ha Hh2.
      cbn [GetKV]. unfold mbind at 1, M_bind at 1.
      rewrite Read_retrying.
      rewrite retrying_healthy with (e := e); rewrite ?Ha; auto.
      cbn [snd]. unfold mbind, M_bind.
      set (w2 := sent E InGetTokenTTL lookup_self _).
      destruct (Z.lt_ge_cases (elapsed E w2) 5) as [Hlt|Hge].
      * rewrite checkAuthNeeded_cooldown by exact Hlt. reflexivity.
      * rewrite checkAuthNeeded_healthy; [reflexivity|exact Hge|exact Hh2].
Qed.

Lemma healthy_token_not_an_auth_problem_witness :
  5 <= elapsed Scenario.unrelated_env Scenario.unrelated_world
  /\ healthy Scenario.unrelated_env 0 "t-0"
  /\ fst (checkAuthNeeded Scenario.unrelated_env Scenario.unrelated_world)
     = Returns (Some "vault token does not need refreshing")
  /\ fst (Read Scenario.unrelated_env 1 "secret/x" Scenario.unrelated_world)
     = Returns (None, Some "permission denied")
  /\ fst (GetKV Scenario.unrelated_env 2 "secret/x" true Scenario.unrelated_world)
     = Returns (∅, Some "permission denied").
Proof.
  assert (H : 5 <= elapsed Scenario.unrelated_env Scenario.unrelated_world)
    by (vm_compute; discriminate).
  assert (Hh : forall n, healthy Scenario.unrelated_env n "t-0")
    by (intros n; reflexivity).
  destruct (healthy_token_not_an_auth_problem _ _ H) as (Hd & Hops).
  destruct (Hd (Hh O)) as (Hrun & _).
  destruct (Hops (Hh 1%nat)) as (HRead & _ & _ & _ & _ & HGetKV).
  split; [exact H|]. split; [exact (Hh O)|].
  split; [rewrite Hrun; reflexivity|]. split.
  - apply (HRead O "secret/x" None "permission denied"). reflexivity.
  - apply (HGetKV O "secret/x" true None "permission denied").
    + reflexivity.
    + exact (Hh 2%nat).
Defined.

(* ===================================================================== *)
(** ** Login flows: attribution, stamping and login paths                *)
(* ===================================================================== *)

Section LoginFacts.
Variable E : Env.

Lemma exchange_stamped by_ req w method :
  lastAuthMethod (authCache w) = method ->
  installs_stamped method [] (events (exchange E by_ req) w).
Proof.
  intros Hm. rewrite exchange_events.
  destruct (granted (answer E w req)); cbn; auto.
Qed.

Lemma exchange_login_paths by_ req w :
  login_caller by_ = true ->
  login_paths (events (exchange E by_ req) w) = [request_path req].
Proof.
  intros Hl. rewrite exchange_events.
  destruct (granted (answer E w req)); cbn; rewrite Hl; reflexivity.
Qed.

Lemma exchange_lastAuthTime by_ req w :
  lastAuthTime (authCache (snd (exchange E by_ req w)))
  = match granted (answer E w req) with
    | Some _ => Unix E (ticks w)
    | None => lastAuthTime (authCache w)
    end.
Proof.
  destruct (granted (answer E w req)) as [tok|] eqn:Hg.
  - rewrite exchange_granted with (tok := tok) by exact Hg. reflexivity.
  - destruct (exchange_refused E by_ req w Hg) as [-> _]. reflexivity.
Qed.

Lemma exchange_succeeded by_ req w :
  succeeded (fst (exchange E by_ req w))
  <-> exists tok, granted (answer E w req) = Some tok.
Proof.
  destruct (granted (answer E w req)) as [tok|] eqn:Hg.
  - rewrite exchange_granted with (tok := tok) by exact Hg.
    split; [eauto|]. intros _. exists tok. reflexivity.
  - destruct (exchange_refused E by_ req w Hg) as [_ Hn].
    split; [|intros [? ?]; discriminate].
    intros [tok Hr]. destruct (Hn tok Hr).
Qed.

End LoginFacts.

Lemma SetToken_events E tok w :
  events (SetToken E tok) w
  = [EvNow (Unix E (ticks w));
     EvSetToken tok
       (Assign.set_lastAuthTime (Unix E (ticks w))
          (Assign.set_lastAuthMethod "token" (authCache w)))].
Proof.
  apply events_eq. unfold SetToken. run. rewrite <- ?app_assoc. reflexivity.
Qed.

(** C2, as the code has it.  Every [Client.SetToken] of [ApproleLogin],
    [KubernetesLogin], [LDAPLogin] and [SetToken] finds the auth cache
    naming the flow's own method and holding a time read from the clock
    earlier in the same call.  [InitApprole] installs the token of the
    cache file with the method recorded but no time stamped: every
    [Client.SetToken] of [InitApprole] finds the method approle in the
    auth cache. *)
Theorem login_flows_record_before_install (E : Env) (w : World) :
  (forall r s p,
     installs_stamped "approle" [] (events (ApproleLogin E r s p) w))
  /\ (forall j r p,
        installs_stamped "kubernetes" [] (events (KubernetesLogin E j r p) w))
  /\ (forall u pw p,
        installs_stamped "ldap" [] (events (LDAPLogin E u pw p) w))
  /\ (forall tok, installs_stamped "token" [] (events (SetToken E tok) w))
  /\ (forall rf sf tf p,
        installs_attributed "approle" (events (InitApprole E rf sf tf p) w)).
Proof.
  repeat split.
  - intros r s p. unfold events. rewrite ApproleLogin_exchange.
    apply (exchange_stamped E InApproleLogin _ (with_cache _ w)). reflexivity.
  - intros j r p. unfold events. rewrite KubernetesLogin_exchange.
    apply (exchange_stamped E InKubernetesLogin _ (with_cache _ w)).
    reflexivity.
  - intros u pw p. unfold events. rewrite LDAPLogin_exchange.
    apply (exchange_stamped E InLDAPLogin _ (with_cache _ w)). reflexivity.
  - intros tok. rewrite SetToken_events. cbn. auto.
  - intros rf sf tf p.
    destruct (InitApprole_files E rf sf tf p w) as (_ & d & Hd & HP).
    rewrite (events_eq _ _ _ Hd). apply attributed_installs, HP.
Qed.

(** C2, as stated, fails for [InitApprole]: with a good token in the cache
    file it installs that token while the auth cache still holds the old
    time (here 0) and the clock has not been read. *)
Lemma cached_token_installed_unstamped_counterexample :
  ~ installs_stamped "approle" []
      (events (InitApprole Scenario.init_env "/r" "/s" "/t" "")
         Scenario.init_world).
Proof. vm_compute. intros (_ & [] & _). Qed.

Section Stamps.
Variable E : Env.

Lemma exchange_stamps_on_success by_ req c w (m : M (string * option error)) :
  m w = exchange E by_ req (with_cache c w) ->
  lastAuthTime c = lastAuthTime (authCache w) ->
  stamps_on_success E m w.
Proof.
  intros Hm Hc. unfold stamps_on_success. rewrite Hm.
  rewrite exchange_succeeded, exchange_lastAuthTime.
  destruct (granted _) as [tok|]; split.
  - reflexivity.
  - intros Hn. destruct Hn. eauto.
  - intros [tok Htok]. discriminate.
  - intros _. exact Hc.
Qed.

Lemma ApproleLogin_stamps r s p w :
  stamps_on_success E (ApproleLogin E r s p) w.
Proof.
  eapply exchange_stamps_on_success;
    [apply ApproleLogin_exchange|reflexivity].
Qed.

Lemma KubernetesLogin_stamps j r p w :
  stamps_on_success E (KubernetesLogin E j r p) w.
Proof.
  eapply exchange_stamps_on_success;
    [apply KubernetesLogin_exchange|reflexivity].
Qed.

Lemma LDAPLogin_stamps u pw p w :
  stamps_on_success E (LDAPLogin E u pw p) w.
Proof.
  eapply exchange_stamps_on_success;
    [apply LDAPLogin_exchange|reflexivity].
Qed.

(** The token branch of the dispatcher. *)
Lemma checkAuthNeeded_token w :
  5 <= elapsed E w ->
  stale E (requests w) (clientToken w) ->
  lastAuthMethod (authCache w) = "token" ->
  checkAuthNeeded E w
  = (Returns None,
     snd (assign (Assign.set_lastAuthTime (Unix E (S (ticks w))))
            (tick E (sent E InGetTokenTTL lookup_self (tick E w))))).
Proof.
  intros Hc Hs Hm. rewrite checkAuthNeeded_past_cooldown by exact Hc.
  unfold stale in Hs. unfold answer.
  cbn [requests clientToken tick snd time_Now_Unix log]. rewrite Hs.
  cbv zeta. cbn [authCache sent snd Logical log]. rewrite Hm. reflexivity.
Qed.

End Stamps.

(** C5, as the code has it.  [lastAuthTime] is set to the time read during
    the call by a login that succeeds ([ApproleLogin], [KubernetesLogin],
    [LDAPLogin]), by [SetToken], and by the token branch of
    [checkAuthNeeded]; a login that does not succeed leaves it as it was,
    and so does a [checkAuthNeeded] stopped by the cooldown or by the
    health check. *)
Theorem lastAuthTime_follows_success (E : Env) (w : World) :
  (forall r s p, stamps_on_success E (ApproleLogin E r s p) w)
  /\ (forall j r p, stamps_on_success E (KubernetesLogin E j r p) w)
  /\ (forall u pw p, stamps_on_success E (LDAPLogin E u pw p) w)
  /\ (forall tok,
        lastAuthTime (authCache (snd (SetToken E tok w))) = Unix E (ticks w))
  /\ (5 <= elapsed E w ->
      stale E (requests w) (clientToken w) ->
      lastAuthMethod (authCache w) = "token" ->
      fst (checkAuthNeeded E w) = Returns None
      /\ lastAuthTime (authCache (snd (checkAuthNeeded E w)))
         = Unix E (S (ticks w)))
  /\ (elapsed E w < 5 ->
      authCache (snd (checkAuthNeeded E w)) = authCache w)
  /\ (5 <= elapsed E w ->
      healthy E (requests w) (clientToken w) ->
      authCache (snd (checkAuthNeeded E w)) = authCache w).
Proof.
  split; [intros; apply ApproleLogin_stamps|].
  split; [intros; apply KubernetesLogin_stamps|].
  split; [intros; apply LDAPLogin_stamps|].
  split; [reflexivity|].
  split; [|split].
  - intros Hc Hs Hm. rewrite checkAuthNeeded_token by assumption.
    split; reflexivity.
  - intros Hc. rewrite checkAuthNeeded_cooldown by exact Hc. reflexivity.
  - intros Hc Hh. rewrite checkAuthNeeded_healthy by assumption. reflexivity.
Qed.

Lemma lastAuthTime_follows_success_witness :
  (succeeded (fst (LDAPLogin Scenario.granting_env "alice" "secret" ""
                     Scenario.token_world))
   /\ lastAuthTime
        (authCache (snd (LDAPLogin Scenario.granting_env "alice" "secret" ""
                           Scenario.token_world))) = 200)
  /\ (~ succeeded (fst (LDAPLogin Scenario.token_env "alice" "secret" ""
                          Scenario.token_world))
      /\ lastAuthTime
           (authCache (snd (LDAPLogin Scenario.token_env "alice" "secret" ""
                              Scenario.token_world))) = 100)
  /\ (5 <= elapsed Scenario.token_env Scenario.token_world
      /\ stale Scenario.token_env 0 "t-0"
      /\ lastAuthTime
           (authCache (snd (checkAuthNeeded Scenario.token_env
                              Scenario.token_world))) = 201)
  /\ (elapsed Scenario.cooling_env Scenario.cooling_world < 5
      /\ authCache (snd (checkAuthNeeded Scenario.cooling_env
                           Scenario.cooling_world))
         = authCache Scenario.cooling_world)
  /\ (5 <= elapsed Scenario.unrelated_env Scenario.unrelated_world
      /\ healthy Scenario.unrelated_env 0 "t-0"
      /\ authCache (snd (checkAuthNeeded Scenario.unrelated_env
                           Scenario.unrelated_world))
         = authCache Scenario.unrelated_world).
Proof.
  split; [|split; [|split; [|split]]].
  - assert (Hs : succeeded (fst (LDAPLogin Scenario.granting_env "alice"
                                   "secret" "" Scenario.token_world)))
      by (exists "t-1"; vm_compute; reflexivity).
    split; [exact Hs|].
    destruct (lastAuthTime_follows_success Scenario.granting_env
                Scenario.token_world) as (_ & _ & H & _).
    exact (proj1 (H "alice" "secret" "") Hs).
  - assert (Hs : ~ succeeded (fst (LDAPLogin Scenario.token_env "alice"
                                     "secret" "" Scenario.token_world)))
      by (intros [tok Htok]; vm_compute in Htok; discriminate).
    split; [exact Hs|].
    destruct (lastAuthTime_follows_success Scenario.token_env
                Scenario.token_world) as (_ & _ & H & _).
    exact (proj2 (H "alice" "secret" "") Hs).
  - assert (Hc : 5 <= elapsed Scenario.token_env Scenario.token_world)
      by (vm_compute; discriminate).
    assert (Hs : stale Scenario.token_env 0 "t-0") by reflexivity.
    split; [exact Hc|]. split; [exact Hs|].
    destruct (lastAuthTime_follows_success Scenario.token_env
                Scenario.token_world) as (_ & _ & _ & _ & H & _).
    exact (proj2 (H Hc Hs eq_refl)).
  - assert (Hc : elapsed Scenario.cooling_env Scenario.cooling_world < 5)
      by (vm_compute; reflexivity).
    split; [exact Hc|].
    destruct (lastAuthTime_follows_success Scenario.cooling_env
                Scenario.cooling_world) as (_ & _ & _ & _ & _ & H & _).
    exact (H Hc).
  - assert (Hc : 5 <= elapsed Scenario.unrelated_env Scenario.unrelated_world)
      by (vm_compute; discriminate).
    assert (Hh : healthy Scenario.unrelated_env 0 "t-0") by reflexivity.
    split; [exact Hc|]. split; [exact Hh|].
    destruct (lastAuthTime_follows_success Scenario.unrelated_env
                Scenario.unrelated_world) as (_ & _ & _ & _ & _ & _ & H).
    exact (H Hc Hh).
Defined.

(** C5, as stated, fails twice over: a [checkAuthNeeded] stopped by the
    cooldown reads the clock (102) and leaves the recorded time (100), and
    a login that the server denies leaves it without reading the clock. *)
Lemma lastAuthTime_not_stamped_counterexample :
  (elapsed Scenario.cooling_env Scenario.cooling_world < 5
   /\ ~ stamps (checkAuthNeeded Scenario.cooling_env) Scenario.cooling_world)
  /\ (fst (LDAPLogin Scenario.cooling_env "alice" "secret" ""
             Scenario.cooling_world)
      = Returns ("", Some "permission denied")
      /\ ~ stamps (LDAPLogin Scenario.cooling_env "alice" "secret" "")
             Scenario.cooling_world).
Proof.
  split; split.
  - vm_compute; reflexivity.
  - intros (t & Hin & Ht). vm_compute in Hin, Ht.
    destruct Hin as [Hin|[]]. congruence.
  - reflexivity.
  - intros (t & Hin & Ht). vm_compute in Hin.
    destruct Hin as [Hin|[]]. discriminate.
Qed.

Lemma login_paths_of_flow E by_ req c w (m : M (string * option error)) :
  m w = exchange E by_ req (with_cache c w) ->
  login_caller by_ = true ->
  login_paths (events m w) = [request_path req].
Proof.
  intros Hm Hl. unfold events. rewrite Hm.
  apply (exchange_login_paths E by_ req (with_cache c w) Hl).
Qed.

(** C7, as the code has it.  With an empty [authPath], [ApproleLogin]
    sends its one login request to auth/approle/login and [LDAPLogin] to
    auth/ldap/login/<username> (auth/ldap/login/alice for alice).
    [KubernetesLogin] sends its login request to [authPath] as it is
    given: no default, no suffix. *)
Theorem empty_authPath_defaults (E : Env) (w : World) :
  (forall r s,
     login_paths (events (ApproleLogin E r s "") w) = ["auth/approle/login"])
  /\ (forall u pw,
        login_paths (events (LDAPLogin E u pw "") w)
        = ["auth/ldap/login/" +:+ u])
  /\ (forall pw,
        login_paths (events (LDAPLogin E "alice" pw "") w)
        = ["auth/ldap/login/alice"])
  /\ (forall j r p,
        login_paths (events (KubernetesLogin E j r p) w) = [p]).
Proof.
  repeat split.
  - intros r s.
    rewrite (login_paths_of_flow E _ _ _ _ _
               (ApproleLogin_exchange E r s "" w) eq_refl).
    reflexivity.
  - intros u pw.
    rewrite (login_paths_of_flow E _ _ _ _ _
               (LDAPLogin_exchange E u pw "" w) eq_refl).
    reflexivity.
  - intros pw.
    rewrite (login_paths_of_flow E _ _ _ _ _
               (LDAPLogin_exchange E "alice" pw "" w) eq_refl).
    reflexivity.
  - intros j r p.
    rewrite (login_paths_of_flow E _ _ _ _ _
               (KubernetesLogin_exchange E j r p w) eq_refl).
    reflexivity.
Qed.

(** C7, as stated, fails for [KubernetesLogin]: with an empty [authPath]
    its login request goes to the empty path. *)
Lemma kubernetes_empty_authPath_counterexample :
  login_paths
    (events (KubernetesLogin Scenario.granting_env "jwt" "role" "")
       (Scenario.world emptyCache "" ∅))
  = [""].
Proof. vm_compute. reflexivity. Qed.

(* ===================================================================== *)
(** ** InitApprole                                                       *)
(* ===================================================================== *)

Lemma run_cache_bind {B} (k : vaultAuthCache -> M B) w :
  (cache ≫= k) w = k (authCache w) w.
Proof. reflexivity. Qed.

Lemma run_ReadFile_bind {B} path (k : string * option error -> M B) w :
  (os_ReadFile path ≫= k) w
  = k match files w !! path with
      | Some content => (content, None)
      | None => ("", Some ("open " +:+ path))
      end (log (EvReadFile path (files w !! path)) w).
Proof. reflexivity. Qed.

Lemma run_SetToken_bind {B} tok (k : unit -> M B) w :
  (Client_SetToken tok ≫= k) w = k tt (snd (Client_SetToken tok w)).
Proof. reflexivity. Qed.

Lemma run_bind {A B} (m : M A) (k : A -> M B) w :
  (m ≫= k) w
  = match m w with
    | (Returns a, w') => k a w'
    | (Panics msg, w') => (Panics msg, w')
    | (OutOfFuel, w') => (OutOfFuel, w')
    end.
Proof. reflexivity. Qed.

Section Init.
Variable E : Env.

Ltac init_prefix :=
  unfold InitApprole, init_loaded, init_recorded;
  destruct (negb (_ =? ""));
  rewrite ?run_ret_bind, ?run_assign_bind;
  rewrite run_cache_bind;
  cbn [authCache snd assign approle Assign.on_approle
       Assign.set_lastAuthMethod
       structs.roleIDFile structs.secretIDFile structs.tokenFile
       Assign.set_tokenFile Assign.set_secretIDFile Assign.set_roleIDFile
       Assign.set_approle_authPath].

Lemma InitApprole_no_role_id rf sf tf p w :
  files w !! rf = None ->
  InitApprole E rf sf tf p w
  = (Returns ("", Some ("error occurred while trying to read role-id from file: "
                        +:+ rf)),
     log (EvReadFile rf None)
       (with_cache (init_recorded rf sf tf p (authCache w)) w)).
Proof.
  intros Hr. init_prefix;
    rewrite run_ReadFile_bind; cbn [files]; rewrite Hr; reflexivity.
Qed.

Lemma InitApprole_no_secret_id rf sf tf p w r :
  files w !! rf = Some r -> files w !! sf = None ->
  InitApprole E rf sf tf p w
  = (Returns ("", Some ("error occurred while trying to read secret-id from file: "
                        +:+ sf)),
     log (EvReadFile sf None)
       (log (EvReadFile rf (Some r))
          (with_cache (init_recorded rf sf tf p (authCache w)) w))).
Proof.
  intros Hr Hs. init_prefix;
    rewrite run_ReadFile_bind; cbn [files]; rewrite Hr;
    rewrite run_ReadFile_bind; cbn [files log]; rewrite Hs; reflexivity.
Qed.

(** With both credential files read, what is left is the health check of
    the cached token and, if need be, the login and the cache file. *)
Lemma InitApprole_loaded rf sf tf p w r s :
  files w !! rf = Some r -> files w !! sf = Some s ->
  InitApprole E rf sf tf p w
  = (refresh ← (if Go.TrimSuffix (default "" (files w !! tf)) Go.newline =? ""
                then mret true else tokenRefreshNeeded E 5);
     if refresh : bool then
       c ← cache;
       '(vaultToken, err) ←
         ApproleLogin E (Go.TrimSuffix r Go.newline)
           (Go.TrimSuffix s Go.newline) (approle_authPath (approle c));
       match err with
       | Some e => mret ("", Some ("error attempting approle login: " +:+ e))
       | None =>
           c ← cache;
           err ← os_Create E (structs.tokenFile (approle c));
           match err with
           | Some _ =>
               mret ("", Some ("unable to create vault token file: "
                               +:+ structs.tokenFile (approle c)))
           | None =>
               err ← WriteString E (structs.tokenFile (approle c)) vaultToken;
               match err with
               | Some _ =>
                   mret ("", Some ("unable to write to vault token file: "
                                   +:+ structs.tokenFile (approle c)))
               | None => mret (vaultToken, None)
               end
           end
       end
     else mret (Go.TrimSuffix (default "" (files w !! tf)) Go.newline, None))
      (init_loaded rf sf tf p w).
Proof.
  intros Hr Hs. init_prefix;
    rewrite run_ReadFile_bind; cbn [files]; rewrite Hr;
    rewrite run_ReadFile_bind; cbn [files log]; rewrite Hs;
    rewrite run_ReadFile_bind; cbn [files log];
    destruct (files w !! tf); reflexivity.
Qed.

End Init.

Section InitClaims.
Variable E : Env.

Lemma InitApprole_cache_hit rf sf tf p w r s content :
  files w !! rf = Some r -> files w !! sf = Some s ->
  files w !! tf = Some content ->
  Go.TrimSuffix content Go.newline <> "" ->
  healthy E (requests w) (Go.TrimSuffix content Go.newline) ->
  InitApprole E rf sf tf p w
  = (Returns (Go.TrimSuffix content Go.newline, None),
     sent E InGetTokenTTL lookup_self (init_loaded rf sf tf p w)).
Proof.
  intros Hr Hs Ht Hne Hh. apply String.eqb_neq in Hne.
  rewrite InitApprole_loaded with (r := r) (s := s) by assumption.
  rewrite Ht. cbn [from_option id]. rewrite Hne.
  rewrite run_bind, tokenRefreshNeeded_run.
  unfold healthy in Hh. unfold answer, init_loaded. rewrite Ht.
  cbn [from_option id requests clientToken snd Client_SetToken log with_cache assign].
  rewrite Hh. reflexivity.
Qed.

Lemma checkAuthNeeded_reruns_InitApprole rf sf tf w :
  approle_files rf sf tf (authCache w) ->
  rf <> "" -> sf <> "" ->
  5 <= elapsed E w ->
  stale E (requests w) (clientToken w) ->
  checkAuthNeeded E w
  = ('(_, err) ← InitApprole E rf sf tf (approle_authPath (approle (authCache w)));
     mret err)
      (sent E InGetTokenTTL lookup_self (tick E w)).
Proof.
  intros (Hm & Hrf & Hsf & Htf) Hr Hs Hc Hst.
  apply String.eqb_neq in Hr, Hs.
  rewrite checkAuthNeeded_past_cooldown by exact Hc.
  unfold stale in Hst. unfold answer.
  cbn [requests clientToken tick snd time_Now_Unix log]. rewrite Hst.
  cbv zeta. cbn [authCache sent snd Logical log].
  rewrite Hm, Hrf, Hsf, Htf, Hr, Hs. reflexivity.
Qed.

Lemma checkAuthNeeded_approle_without_files w :
  lastAuthMethod (authCache w) = "approle" ->
  roleIDFile (approle (authCache w)) = ""
  \/ secretIDFile (approle (authCache w)) = "" ->
  5 <= elapsed E w ->
  stale E (requests w) (clientToken w) ->
  checkAuthNeeded E w
  = ('(_, err) ← ApproleLogin E (roleID (approle (authCache w)))
                   (secretID (approle (authCache w)))
                   (approle_authPath (approle (authCache w)));
     mret err)
      (sent E InGetTokenTTL lookup_self (tick E w)).
Proof.
  intros Hm Hf Hc Hst.
  rewrite checkAuthNeeded_past_cooldown by exact Hc.
  unfold stale in Hst. unfold answer.
  cbn [requests clientToken tick snd time_Now_Unix log]. rewrite Hst.
  cbv zeta. cbn [authCache sent snd Logical log].
  rewrite Hm.
  assert (Hb : (roleIDFile (approle (authCache w)) =? "")
               || (secretIDFile (approle (authCache w)) =? "") = true).
  { destruct Hf as [-> | ->]; [reflexivity|apply orb_true_r]. }
  rewrite Hb. reflexivity.
Qed.

End InitClaims.

(** C6, with the precondition the code has.  When the role-id and
    secret-id files can be read and the token cache file holds a token
    that is not empty and that the health check finds good (a TTL of at
    least 5), [InitApprole] sends no login request: it reads the three
    files, installs the cached token, looks the token up and returns
    it. *)
Theorem InitApprole_reuses_cached_token
    (E : Env) (rf sf tf p : string) (w : World) (r s content : string) :
  files w !! rf = Some r -> files w !! sf = Some s ->
  files w !! tf = Some content ->
  Go.TrimSuffix content Go.newline <> "" ->
  reports_ttl 5
    (backend E (requests w) (Go.TrimSuffix content Go.newline) lookup_self) ->
  fst (InitApprole E rf sf tf p w)
    = Returns (Go.TrimSuffix content Go.newline, None)
  /\ clientToken (snd (InitApprole E rf sf tf p w))
     = Go.TrimSuffix content Go.newline
  /\ events (InitApprole E rf sf tf p) w
     = [EvReadFile rf (Some r); EvReadFile sf (Some s);
        EvReadFile tf (Some content);
        EvSetToken (Go.TrimSuffix content Go.newline)
          (init_recorded rf sf tf p (authCache w));
        EvRequest InGetTokenTTL (Go.TrimSuffix content Go.newline)
          lookup_self
          (backend E (requests w) (Go.TrimSuffix content Go.newline)
             lookup_self)]
  /\ logins (events (InitApprole E rf sf tf p) w) = O.
Proof.
  intros Hr Hs Ht Hne Hh. apply verdict_false in Hh.
  pose proof (InitApprole_cache_hit E rf sf tf p w r s content
                Hr Hs Ht Hne Hh) as Hrun.
  assert (Hev : events (InitApprole E rf sf tf p) w
     = [EvReadFile rf (Some r); EvReadFile sf (Some s);
        EvReadFile tf (Some content);
        EvSetToken (Go.TrimSuffix content Go.newline)
          (init_recorded rf sf tf p (authCache w));
        EvRequest InGetTokenTTL (Go.TrimSuffix content Go.newline)
          lookup_self
          (backend E (requests w) (Go.TrimSuffix content Go.newline)
             lookup_self)]).
  { apply events_eq. rewrite Hrun. unfold init_loaded.
    rewrite Hr, Hs, Ht. cbn. rewrite <- !app_assoc. reflexivity. }
  rewrite Hev, Hrun. unfold init_loaded. rewrite Ht.
  repeat split; reflexivity.
Qed.

Lemma InitApprole_reuses_cached_token_witness :
  fst (InitApprole Scenario.init_env "/r" "/s" "/t" "" Scenario.init_world)
    = Returns ("t-0", None)
  /\ logins (events (InitApprole Scenario.init_env "/r" "/s" "/t" "")
               Scenario.init_world) = O.
Proof.
  destruct (InitApprole_reuses_cached_token Scenario.init_env
              "/r" "/s" "/t" "" Scenario.init_world
              ("role-id" +:+ Go.newline) ("secret-id" +:+ Go.newline) "t-0")
    as (Hret & _ & _ & Hlog).
  - reflexivity.
  - reflexivity.
  - reflexivity.
  - discriminate.
  - exists {| Data := {[ "ttl" := VNumber "3600" ]}; Auth := None |},
      "3600", 3600.
    split; [reflexivity|split; [reflexivity|split; [reflexivity|lia]]].
  - split; [exact Hret|exact Hlog].
Defined.

(** C6, as stated, fails when the role-id file cannot be read: the cached
    token is good, and yet [InitApprole] returns an error and leaves the
    connection's token as it was. *)
Lemma InitApprole_unreadable_role_id_counterexample :
  files Scenario.no_role_world !! "/t" = Some "t-0"
  /\ healthy Scenario.init_env 0 "t-0"
  /\ fst (InitApprole Scenario.init_env "/r" "/s" "/t" ""
            Scenario.no_role_world)
     = Returns ("", Some "error occurred while trying to read role-id from file: /r")
  /\ clientToken (snd (InitApprole Scenario.init_env "/r" "/s" "/t" ""
                         Scenario.no_role_world)) = "".
Proof. repeat split; vm_compute; reflexivity. Qed.

Section InitLogin.
Variable E : Env.

(** With nothing to reuse, [InitApprole] goes on to its login. *)
Lemma InitApprole_fresh rf sf tf p w r s :
  files w !! rf = Some r -> files w !! sf = Some s ->
  nothing_cached E tf w ->
  InitApprole E rf sf tf p w
  = (c ← cache;
     '(vaultToken, err) ←
       ApproleLogin E (Go.TrimSuffix r Go.newline)
         (Go.TrimSuffix s Go.newline) (approle_authPath (approle c));
     match err with
     | Some e => mret ("", Some ("error attempting approle login: " +:+ e))
     | None =>
         c ← cache;
         err ← os_Create E (structs.tokenFile (approle c));
         match err with
         | Some _ =>
             mret ("", Some ("unable to create vault token file: "
                             +:+ structs.tokenFile (approle c)))
         | None =>
             err ← WriteString E (structs.tokenFile (approle c)) vaultToken;
             match err with
             | Some _ =>
                 mret ("", Some ("unable to write to vault token file: "
                                 +:+ structs.tokenFile (approle c)))
             | None => mret (vaultToken, None)
             end
         end
     end) (init_checked E rf sf tf p w).
Proof.
  intros Hr Hs Hn.
  rewrite InitApprole_loaded with (r := r) (s := s) by assumption.
  unfold init_checked, nothing_cached in *.
  destruct (Go.TrimSuffix (default "" (files w !! tf)) Go.newline =? "")
    eqn:Hempty.
  - reflexivity.
  - destruct Hn as [Hn|Hn]; [apply String.eqb_neq in Hempty; contradiction|].
    rewrite run_bind, tokenRefreshNeeded_run.
    unfold stale in Hn. unfold answer, init_loaded.
    cbn [requests clientToken snd Client_SetToken log with_cache assign].
    rewrite Hn. reflexivity.
Qed.

Lemma init_checked_cache rf sf tf p w :
  authCache (init_checked E rf sf tf p w)
  = init_recorded rf sf tf p (authCache w).
Proof. unfold init_checked. destruct (_ =? ""); reflexivity. Qed.

(** A login that succeeds leaves its token on the connection and the file
    paths where they were. *)
Lemma ApproleLogin_succeeded r s p w tok :
  fst (ApproleLogin E r s p w) = Returns (tok, None) ->
  exists w',
    ApproleLogin E r s p w = (Returns (tok, None), w')
    /\ clientToken w' = tok
    /\ structs.tokenFile (approle (authCache w'))
       = structs.tokenFile (approle (authCache w)).
Proof.
  rewrite ApproleLogin_exchange. intros H.
  match type of H with
  | fst (exchange E ?by_ ?req ?w1) = _ =>
      destruct (granted (answer E w1 req)) as [tok'|] eqn:Hg
  end.
  - rewrite exchange_granted with (tok := tok') in * by exact Hg.
    cbn [fst] in H. injection H as ->.
    eexists. split; [reflexivity|]. split; reflexivity.
  - eapply exchange_refused in Hg. destruct Hg as [_ Hn].
    destruct (Hn tok H).
Qed.

End InitLogin.

(** C8.  When [InitApprole] has read its credential files, finds nothing
    to reuse, and its login succeeds with [tok], a cache file that cannot
    be created, or cannot be written, makes [InitApprole] return an error
    and no token; [tok] is on the connection all the same. *)
Theorem InitApprole_surfaces_cache_write_failure
    (E : Env) (rf sf tf p : string) (w : World) (r s tok : string) :
  files w !! rf = Some r -> files w !! sf = Some s ->
  nothing_cached E tf w ->
  fst (ApproleLogin E (Go.TrimSuffix r Go.newline) (Go.TrimSuffix s Go.newline)
         (approle_authPath (approle (init_recorded rf sf tf p (authCache w))))
         (init_checked E rf sf tf p w))
    = Returns (tok, None) ->
  (creatable E tf = false ->
     fst (InitApprole E rf sf tf p w)
     = Returns ("", Some ("unable to create vault token file: " +:+ tf)))
  /\ (creatable E tf = true -> writable E tf = false ->
        fst (InitApprole E rf sf tf p w)
        = Returns ("", Some ("unable to write to vault token file: " +:+ tf)))
  /\ (creatable E tf = false \/ writable E tf = false ->
        clientToken (snd (InitApprole E rf sf tf p w)) = tok).
Proof.
  intros Hr Hs Hn Hlogin.
  rewrite (InitApprole_fresh E rf sf tf p w r s Hr Hs Hn).
  rewrite run_cache_bind, init_checked_cache.
  destruct (ApproleLogin_succeeded E _ _ _ _ _ Hlogin)
    as (w' & Hrun & Htok & Htf).
  rewrite init_checked_cache in Htf.
  assert (Htf' : structs.tokenFile (approle (authCache w')) = tf).
  { rewrite Htf. unfold init_recorded. destruct (negb (p =? "")); reflexivity. }
  rewrite run_bind, Hrun. cbv beta iota.
  rewrite run_cache_bind, Htf'.
  unfold mbind, M_bind, os_Create, WriteString.
  destruct (creatable E tf), (writable E tf); cbn [fst snd clientToken log];
    repeat split; try (intros; discriminate); try (intros; reflexivity);
    try (intros; exact Htok); try (intros [?|?]; discriminate).
Qed.

Lemma InitApprole_surfaces_cache_write_failure_witness :
  (fst (InitApprole Scenario.readonly_env "/r" "/s" "/t" "" Scenario.fresh_world)
   = Returns ("", Some "unable to create vault token file: /t")
   /\ clientToken (snd (InitApprole Scenario.readonly_env "/r" "/s" "/t" ""
                          Scenario.fresh_world)) = "t-1")
  /\ (fst (InitApprole Scenario.full_disk_env "/r" "/s" "/t" ""
             Scenario.fresh_world)
      = Returns ("", Some "unable to write to vault token file: /t")
      /\ clientToken (snd (InitApprole Scenario.full_disk_env "/r" "/s" "/t" ""
                             Scenario.fresh_world)) = "t-1").
Proof.
  split.
  - destruct (InitApprole_surfaces_cache_write_failure Scenario.readonly_env
                "/r" "/s" "/t" "" Scenario.fresh_world
                ("role-id" +:+ Go.newline) ("secret-id" +:+ Go.newline) "t-1")
      as (Hcreate & _ & Htok).
    + reflexivity.
    + reflexivity.
    + left. reflexivity.
    + vm_compute. reflexivity.
    + split; [apply Hcreate; reflexivity|apply Htok; left; reflexivity].
  - destruct (InitApprole_surfaces_cache_write_failure Scenario.full_disk_env
                "/r" "/s" "/t" "" Scenario.fresh_world
                ("role-id" +:+ Go.newline) ("secret-id" +:+ Go.newline) "t-1")
      as (_ & Hwrite & Htok).
    + reflexivity.
    + reflexivity.
    + left. reflexivity.
    + vm_compute. reflexivity.
    + split; [apply Hwrite; reflexivity|apply Htok; right; reflexivity].
Defined.

(** C9, with the precondition the code has.  [InitApprole] records the
    method and its three paths before it reads a file, so after every call,
    whatever its outcome, the auth cache names approle and these paths; a
    call that cannot read the role-id file returns the error with the
    cache so recorded.  In any later world whose cache still holds them, a
    recovery of [checkAuthNeeded] (past the cooldown, the token in need of
    a refresh) is a call of [InitApprole] with the stored paths when
    neither the role-id path nor the secret-id path is empty, and a call
    of [ApproleLogin] with the stored role-id and secret-id, which reads
    no file, when one of the two is empty. *)
Theorem InitApprole_records_for_recovery
    (E : Env) (rf sf tf p : string) (w : World) :
  approle_files rf sf tf (authCache (snd (InitApprole E rf sf tf p w)))
  /\ (files w !! rf = None ->
      exists e,
        fst (InitApprole E rf sf tf p w) = Returns ("", Some e)
        /\ authCache (snd (InitApprole E rf sf tf p w))
           = init_recorded rf sf tf p (authCache w))
  /\ (forall w2,
        approle_files rf sf tf (authCache w2) ->
        rf <> "" -> sf <> "" ->
        5 <= elapsed E w2 ->
        stale E (requests w2) (clientToken w2) ->
        checkAuthNeeded E w2
        = ('(_, err) ←
             InitApprole E rf sf tf (approle_authPath (approle (authCache w2)));
           mret err)
            (sent E InGetTokenTTL lookup_self (tick E w2)))
  /\ (forall w2,
        approle_files rf sf tf (authCache w2) ->
        rf = "" \/ sf = "" ->
        5 <= elapsed E w2 ->
        stale E (requests w2) (clientToken w2) ->
        checkAuthNeeded E w2
        = ('(_, err) ←
             ApproleLogin E (roleID (approle (authCache w2)))
               (secretID (approle (authCache w2)))
               (approle_authPath (approle (authCache w2)));
           mret err)
            (sent E InGetTokenTTL lookup_self (tick E w2))).
Proof.
  split; [apply InitApprole_files|]. split; [|split].
  - intros Hr. rewrite InitApprole_no_role_id by exact Hr.
    eexists. split; reflexivity.
  - intros w2. apply checkAuthNeeded_reruns_InitApprole.
  - intros w2 (Hm & Hrf & Hsf & _) Hempty Hc Hs.
    apply checkAuthNeeded_approle_without_files; [exact Hm| |exact Hc|exact Hs].
    rewrite Hrf, Hsf. exact Hempty.
Qed.

Lemma InitApprole_records_for_recovery_witness :
  (files Scenario.no_role_world !! "/r" = None
   /\ approle_files "/r" "/s" "/t"
        (authCache (snd (InitApprole Scenario.pathless_env "/r" "/s" "/t" ""
                           Scenario.no_role_world))))
  /\ (exists w2,
        5 <= elapsed Scenario.pathless_env w2
        /\ stale Scenario.pathless_env (requests w2) (clientToken w2)
        /\ checkAuthNeeded Scenario.pathless_env w2
           = ('(_, err) ←
                InitApprole Scenario.pathless_env "/r" "/s" "/t"
                  (approle_authPath (approle (authCache w2)));
              mret err)
               (sent Scenario.pathless_env InGetTokenTTL lookup_self
                  (tick Scenario.pathless_env w2)))
  /\ (approle_files "/r" "" "/t"
        (authCache (snd (InitApprole Scenario.pathless_env "/r" "" "/t" ""
                           (Scenario.world emptyCache "t-0"
                              Scenario.init_files))))
      /\ checkAuthNeeded Scenario.pathless_env Scenario.secretless_world
         = ('(_, err) ←
              ApproleLogin Scenario.pathless_env
                (roleID (approle (authCache Scenario.secretless_world)))
                (secretID (approle (authCache Scenario.secretless_world)))
                (approle_authPath
                   (approle (authCache Scenario.secretless_world)));
            mret err)
             (sent Scenario.pathless_env InGetTokenTTL lookup_self
                (tick Scenario.pathless_env Scenario.secretless_world))).
Proof.
  destruct (InitApprole_records_for_recovery Scenario.pathless_env
              "/r" "/s" "/t" "" Scenario.no_role_world)
    as (Hrec & _ & Hdisp & _).
  split; [split; [reflexivity|exact Hrec]|]. split.
  - exists (Scenario.world
              (authCache (snd (InitApprole Scenario.pathless_env
                                 "/r" "/s" "/t" "" Scenario.no_role_world)))
              "t-0" Scenario.init_files).
    assert (Hc : 5 <= elapsed Scenario.pathless_env
                   (Scenario.world
                      (authCache (snd (InitApprole Scenario.pathless_env
                                         "/r" "/s" "/t" ""
                                         Scenario.no_role_world)))
                      "t-0" Scenario.init_files))
      by (vm_compute; discriminate).
    split; [exact Hc|]. split; [reflexivity|].
    apply Hdisp.
    + exact Hrec.
    + discriminate.
    + discriminate.
    + exact Hc.
    + reflexivity.
  - destruct (InitApprole_records_for_recovery Scenario.pathless_env
                "/r" "" "/t" ""
                (Scenario.world emptyCache "t-0" Scenario.init_files))
      as (Hrec' & _ & _ & Hlogin).
    split; [exact Hrec'|].
    apply Hlogin.
    + repeat split; reflexivity.
    + right. reflexivity.
    + vm_compute. discriminate.
    + reflexivity.
Defined.

(** C9, as stated, fails when a stored path is empty: after
    [InitApprole] was given no role-id file, or no secret-id file (a call
    that fails to read it), a recovery of [checkAuthNeeded] reads no file;
    it sends the login request of [ApproleLogin] with the stored role-id
    and secret-id, here empty. *)
Lemma recovery_without_paths_counterexample :
  ((fst (InitApprole Scenario.pathless_env "" "/s" "/t" ""
           (Scenario.world emptyCache "t-0" Scenario.init_files))
    = Returns ("", Some "error occurred while trying to read role-id from file: ")
    /\ authCache (snd (InitApprole Scenario.pathless_env "" "/s" "/t" ""
                         (Scenario.world emptyCache "t-0" Scenario.init_files)))
       = authCache Scenario.pathless_world)
   /\ 5 <= elapsed Scenario.pathless_env Scenario.pathless_world
   /\ stale Scenario.pathless_env 0 "t-0"
   /\ events (checkAuthNeeded Scenario.pathless_env) Scenario.pathless_world
      = [EvNow 500;
         EvRequest InGetTokenTTL "t-0" lookup_self (Scenario.ttl "2");
         EvRequest InApproleLogin "t-0"
           (ReqWrite "auth/approle/login"
              {[ "role_id" := VString ""; "secret_id" := VString "" ]})
           (Scenario.grants "t-1");
         EvNow 501;
         EvSetToken "t-1"
           (Assign.set_lastAuthTime 501
              (approle_recorded "" "" "auth/approle"
                 (authCache Scenario.pathless_world)))])
  /\ ((fst (InitApprole Scenario.pathless_env "/r" "" "/t" ""
              (Scenario.world emptyCache "t-0" Scenario.init_files))
       = Returns ("", Some "error occurred while trying to read secret-id from file: ")
       /\ authCache (snd (InitApprole Scenario.pathless_env "/r" "" "/t" ""
                            (Scenario.world emptyCache "t-0"
                               Scenario.init_files)))
          = authCache Scenario.secretless_world)
      /\ 5 <= elapsed Scenario.pathless_env Scenario.secretless_world
      /\ events (checkAuthNeeded Scenario.pathless_env)
           Scenario.secretless_world
         = [EvNow 500;
            EvRequest InGetTokenTTL "t-0" lookup_self (Scenario.ttl "2");
            EvRequest InApproleLogin "t-0"
              (ReqWrite "auth/approle/login"
                 {[ "role_id" := VString ""; "secret_id" := VString "" ]})
              (Scenario.grants "t-1");
            EvNow 501;
            EvSetToken "t-1"
              (Assign.set_lastAuthTime 501
                 (approle_recorded "" "" "auth/approle"
                    (authCache Scenario.secretless_world)))]).
Proof.
  split.
  - split; [split|split; [|split]].
    + vm_compute. reflexivity.
    + vm_compute. reflexivity.
    + vm_compute. discriminate.
    + reflexivity.
    + vm_compute. reflexivity.
  - split; [split|split].
    + vm_compute. reflexivity.
    + vm_compute. reflexivity.
    + vm_compute. discriminate.
    + vm_compute. reflexivity.
Qed.
(* ===================================================================== *)
(** ** List and its unchecked assertion                                  *)
(* ===================================================================== *)

(** C10.  When the backend answers a list request with a secret and no
    error, and the secret's data has no ["keys"] entry that is a list,
    [List] returns no error: the assertion on [data.Data["keys"]] panics
    after the one request. *)
Theorem List_panics_without_keys
    (E : Env) (fuel : nat) (path : string) (w : World) (secret : Secret) :
  answer E w (ReqList path) = (Some secret, None) ->
  (forall keys, Data secret !! "keys" <> Some (VSlice keys)) ->
  List E (S fuel) path w
  = (Panics "interface conversion: not []interface {}",
     sent E InList (ReqList path) w).
Proof.
  intros Ha Hk. rewrite List_retrying.
  rewrite retrying_succeeds by (rewrite Ha; reflexivity).
  rewrite Ha. unfold List_done. cbn [fst].
  destruct (Data secret !! "keys") as [[]|] eqn:Hd; try reflexivity.
  destruct (Hk l eq_refl).
Qed.

Lemma List_panics_without_keys_witness :
  answer Scenario.keyless_env (Scenario.world emptyCache "t-0" ∅)
    (ReqList "secret/") = Scenario.no_keys
  /\ fst (List Scenario.keyless_env 1 "secret/"
            (Scenario.world emptyCache "t-0" ∅))
     = Panics "interface conversion: not []interface {}".
Proof.
  split; [reflexivity|].
  rewrite (List_panics_without_keys Scenario.keyless_env O "secret/"
             (Scenario.world emptyCache "t-0" ∅)
             {| Data := {[ "data" := VMap ∅ ]}; Auth := None |}).
  - reflexivity.
  - reflexivity.
  - intros keys. vm_compute. discriminate.
Defined.

(* ===================================================================== *)
(** ** Path helpers                                                      *)
(* ===================================================================== *)

Lemma prefix_append p x : String.prefix p (p +:+ x) = true.
Proof.
  induction p as [|c p IH]; [destruct x; reflexivity|].
  change (String c p +:+ x) with (String c (p +:+ x)).
  cbn [String.prefix]. destruct (ascii_dec c c); [exact IH|contradiction].
Qed.

Lemma Contains_append_l new x : Strings.Contains (new +:+ x) new = true.
Proof.
  destruct new as [|c new]; [destruct x; reflexivity|].
  change (String c new +:+ x) with (String c (new +:+ x)).
  cbn [Strings.Contains].
  change (String c (new +:+ x)) with (String c new +:+ x).
  rewrite prefix_append. reflexivity.
Qed.

Lemma Replace1_absent s old new :
  Strings.Contains s old = false -> Strings.Replace1 s old new = s.
Proof.
  induction s as [|c s IH]; cbn [Strings.Contains Strings.Replace1];
    intros H; apply orb_false_iff in H; destruct H as [Hp Hc]; rewrite Hp.
  - reflexivity.
  - rewrite IH by exact Hc. reflexivity.
Qed.

Lemma Contains_Replace1 s old new :
  Strings.Contains s old = true ->
  Strings.Contains (Strings.Replace1 s old new) new = true.
Proof.
  induction s as [|c s IH]; cbn [Strings.Contains Strings.Replace1]; intros H.
  - destruct (String.prefix old ""); [apply Contains_append_l|discriminate].
  - destruct (String.prefix old (String c s)) eqn:Hp.
    + apply Contains_append_l.
    + cbn [orb] in H. cbn [Strings.Contains]. rewrite IH by exact H.
      apply orb_true_r.
Qed.

(** X1.  Fixing a path twice is fixing it once. *)
Theorem GetKV2ListPath_idempotent (path : string) :
  GetKV2ListPath (GetKV2ListPath path) = GetKV2ListPath path.
Proof.
  destruct (Strings.Contains path "/metadata/") eqn:Hm.
  - assert (Hg : GetKV2ListPath path = path)
      by (unfold GetKV2ListPath; rewrite Hm; reflexivity).
    rewrite !Hg. reflexivity.
  - assert (Hg : GetKV2ListPath path
                 = Strings.Replace1 path "/data/" "/metadata/")
      by (unfold GetKV2ListPath; rewrite Hm; reflexivity).
    rewrite Hg. unfold GetKV2ListPath.
    destruct (Strings.Contains path "/data/") eqn:Hd.
    + rewrite (Contains_Replace1 path "/data/" "/metadata/" Hd). reflexivity.
    + rewrite (Replace1_absent path "/data/" "/metadata/" Hd).
      rewrite Hm. cbn [negb]. apply Replace1_absent, Hd.
Qed.

(** X2.  The fixed path is a metadata path exactly when the given path
    was a metadata path or a data path; a path that already is a metadata
    path, or that is neither, comes back as it is. *)
Theorem GetKV2ListPath_metadata (path : string) :
  (Strings.Contains (GetKV2ListPath path) "/metadata/"
   = Strings.Contains path "/metadata/" || Strings.Contains path "/data/")
  /\ (Strings.Contains path "/metadata/" = true ->
      GetKV2ListPath path = path)
  /\ (Strings.Contains path "/data/" = false ->
      GetKV2ListPath path = path).
Proof.
  unfold GetKV2ListPath.
  destruct (Strings.Contains path "/metadata/") eqn:Hm; cbn [negb orb].
  - repeat split; auto.
  - destruct (Strings.Contains path "/data/") eqn:Hd.
    + split; [apply Contains_Replace1, Hd|].
      split; intros; discriminate.
    + rewrite (Replace1_absent path "/data/" "/metadata/" Hd).
      repeat split; auto.
Qed.

Lemma GetKV2ListPath_metadata_witness :
  (Strings.Contains "kv/metadata/app/data/x" "/metadata/" = true
   /\ GetKV2ListPath "kv/metadata/app/data/x" = "kv/metadata/app/data/x")
  /\ (Strings.Contains "kv/secret/x" "/data/" = false
      /\ GetKV2ListPath "kv/secret/x" = "kv/secret/x").
Proof.
  split.
  - split; [reflexivity|].
    apply (proj1 (proj2 (GetKV2ListPath_metadata "kv/metadata/app/data/x"))).
    reflexivity.
  - split; [reflexivity|].
    apply (proj2 (proj2 (GetKV2ListPath_metadata "kv/secret/x"))).
    reflexivity.
Defined.

(** Only the leftmost /data/ is rewritten. *)
Example GetKV2ListPath_leftmost :
  GetKV2ListPath "kv/data/app/data/x" = "kv/metadata/app/data/x".
Proof. reflexivity. Qed.

Lemma skip_append p x : Strings.skip (String.length p) (p +:+ x) = x.
Proof. induction p as [|c p IH]; [reflexivity|exact IH]. Qed.

Lemma length_appended s t :
  String.length (s +:+ t) = (String.length s + String.length t)%nat.
Proof.
  induction s as [|c s IH]; [reflexivity|].
  change (String c s +:+ t) with (String c (s +:+ t)).
  cbn [String.length]. rewrite IH. reflexivity.
Qed.

Lemma substring_all t : substring 0 (String.length t) t = t.
Proof. induction t as [|c t IH]; [reflexivity|]. cbn. rewrite IH. reflexivity. Qed.

Lemma substring_at_end s t :
  substring (String.length s) (String.length t) (s +:+ t) = t.
Proof.
  induction s as [|c s IH].
  - change ("" +:+ t) with t. apply substring_all.
  - change (String c s +:+ t) with (String c (s +:+ t)). exact IH.
Qed.

Lemma last1_slash s : Strings.last1 (s +:+ "/") = "/".
Proof.
  unfold Strings.last1. rewrite length_appended. cbn [String.length].
  replace (String.length s + 1 - 1)%nat with (String.length s) by lia.
  apply (substring_at_end s "/").
Qed.

Lemma length_zero s : (String.length s =? 0)%nat = true <-> s = "".
Proof. destruct s; cbn; split; congruence. Qed.

(** X3.  [Base64SmartDecode] panics on the empty string and on nothing
    else.  What it returns is the string it was given or the decoding of
    that string; it is the string itself for everything [strconv.Atoi]
    accepts, for every string of fewer than 5 bytes whose last byte is not
    '=', and whenever the decoder rejects the string. *)
Theorem Base64SmartDecode_edges
    (DecodeString : string -> option string) (data : string) :
  (Base64SmartDecode DecodeString data = Panics "slice bounds out of range"
   <-> data = "")
  /\ (data <> "" ->
      Base64SmartDecode DecodeString data = Returns data
      \/ exists decoded,
           DecodeString data = Some decoded
           /\ Base64SmartDecode DecodeString data = Returns decoded)
  /\ (forall n, Go.ParseInt64 data = Some n ->
        Base64SmartDecode DecodeString data = Returns data)
  /\ (data <> "" -> (String.length data < 5)%nat ->
      Strings.last1 data <> "=" ->
      Base64SmartDecode DecodeString data = Returns data)
  /\ (data <> "" -> DecodeString data = None ->
      Base64SmartDecode DecodeString data = Returns data).
Proof.
  unfold Base64SmartDecode.
  destruct (Go.ParseInt64 data) as [n|] eqn:Hint.
  - assert (Hne : data <> "") by (intros ->; discriminate).
    split; [split; [discriminate|contradiction]|].
    repeat split; auto.
  - destruct (String.length data =? 0)%nat eqn:Hz.
    + apply length_zero in Hz. subst data. cbn.
      split; [split; reflexivity|].
      repeat split; try contradiction. discriminate.
    + assert (Hne : data <> "").
      { intros ->. discriminate. }
      assert (Hdec : forall o : option string,
                match o with Some d => Returns d | None => Returns data end
                <> Panics "slice bounds out of range")
        by (intros []; discriminate).
      split.
      { split; [|contradiction].
        destruct (String.length data <? 5)%nat;
          [destruct (negb (Strings.last1 data =? "="))|];
          intros H; try discriminate; destruct (Hdec _ H). }
      split.
      { intros _.
        destruct (String.length data <? 5)%nat;
          [destruct (negb (Strings.last1 data =? "="))|];
          try (left; reflexivity);
          (destruct (DecodeString data) as [d|];
           [right; exists d; split; reflexivity|left; reflexivity]). }
      split; [discriminate|]. split.
      { intros _ Hlt Hlast.
        apply Nat.ltb_lt in Hlt. rewrite Hlt.
        apply String.eqb_neq in Hlast. rewrite Hlast. reflexivity. }
      { intros _ ->.
        destruct (String.length data <? 5)%nat;
          [destruct (negb (Strings.last1 data =? "="))|]; reflexivity. }
Qed.

Lemma Base64SmartDecode_edges_witness :
  Base64SmartDecode (fun _ => Some "decoded") "1234" = Returns "1234"
  /\ Base64SmartDecode (fun _ => Some "decoded") "abcd" = Returns "abcd"
  /\ Base64SmartDecode (fun _ => None) "not base64!" = Returns "not base64!".
Proof.
  split; [|split].
  - apply (proj1 (proj2 (proj2 (Base64SmartDecode_edges _ "1234"))) 1234).
    reflexivity.
  - apply (proj1 (proj2 (proj2 (proj2 (Base64SmartDecode_edges _ "abcd"))))).
    + discriminate.
    + cbn. lia.
    + discriminate.
  - apply (proj2 (proj2 (proj2 (proj2 (Base64SmartDecode_edges _ "not base64!"))))).
    + discriminate.
    + reflexivity.
Defined.

Lemma HasPrefix_append p x : Strings.HasPrefix (p +:+ x) p = true.
Proof. apply prefix_append. Qed.

Lemma Replace1_prefix p x new :
  Strings.Replace1 (p +:+ x) p new = new +:+ x.
Proof.
  destruct p as [|c p].
  - destruct x; reflexivity.
  - change (String c p +:+ x) with (String c (p +:+ x)).
    cbn [Strings.Replace1].
    change (String c (p +:+ x)) with (String c p +:+ x).
    rewrite prefix_append, skip_append. reflexivity.
Qed.

(** X4.  [GetAuthType] looks up the same mount whether or not the path it
    is given starts with auth/, and the mount it looks up always ends with
    a slash: the path itself when it ends with one, the path and a slash
    otherwise.  The empty path and the path auth/ make it panic on the
    slice before any backend call. *)
Theorem GetAuthType_mount_prefix (path : string) :
  GetAuthType_mount "" = Panics "slice bounds out of range"
  /\ GetAuthType_mount "auth/" = Panics "slice bounds out of range"
  /\ (path <> "" -> Strings.HasPrefix path "auth/" = false ->
      exists mount,
        GetAuthType_mount path = Returns mount
        /\ GetAuthType_mount ("auth/" +:+ path) = Returns mount
        /\ Strings.last1 mount = "/"
        /\ (mount = path \/ mount = path +:+ "/")).
Proof.
  split; [reflexivity|]. split; [reflexivity|].
  intros Hne Hp.
  assert (Hz : (String.length path =? 0)%nat = false).
  { destruct path; [contradiction|reflexivity]. }
  assert (H1 : GetAuthType_mount path
               = if negb (Strings.last1 path =? "/")
                 then Returns (path +:+ "/") else Returns path).
  { unfold GetAuthType_mount. rewrite Hp, Hz. reflexivity. }
  assert (H2 : GetAuthType_mount ("auth/" +:+ path) = GetAuthType_mount path).
  { rewrite H1. unfold GetAuthType_mount.
    rewrite HasPrefix_append, Replace1_prefix.
    change ("" +:+ path) with path. rewrite Hz. reflexivity. }
  rewrite H2, H1.
  destruct (Strings.last1 path =? "/") eqn:Hl; cbn [negb].
  - exists path. apply String.eqb_eq in Hl. auto.
  - exists (path +:+ "/"). repeat split; auto using last1_slash.
Qed.

Lemma GetAuthType_mount_prefix_witness :
  GetAuthType_mount "ldap" = Returns "ldap/"
  /\ GetAuthType_mount "auth/ldap" = Returns "ldap/".
Proof.
  destruct (GetAuthType_mount_prefix "ldap") as (_ & _ & H).
  destruct H as (mount & H1 & H2 & _ & _).
  - discriminate.
  - reflexivity.
  - assert (mount = "ldap/") by (cbv in H1; congruence). subst mount.
    split; [exact H1|exact H2].
Defined.

(** After a recovery [GetAuthType] calls itself with the mount it has
    already derived, which is stripped of a leading auth/ once more. *)
Example GetAuthType_mount_twice :
  GetAuthType_mount "auth/auth/x" = Returns "auth/x/"
  /\ GetAuthType_mount "auth/x/" = Returns "x/".
Proof. split; reflexivity. Qed.

(* ===================================================================== *)
(** ** More on the health check, the login flows and the dispatcher      *)
(* ===================================================================== *)

(** X5.  The health check sends exactly one self-lookup and fails open:
    it asks for a refresh when the lookup returns an error, when the TTL
    is not a 64-bit integer, and when the TTL is below the minimum; it
    reports a token in good standing only for a TTL of at least the
    minimum; a lookup answered without secret and without error makes it
    panic. *)
Theorem tokenRefreshNeeded_fails_open
    (E : Env) (minimumTokenTTL : Z) (w : World) :
  events (tokenRefreshNeeded E minimumTokenTTL) w
    = [EvRequest InGetTokenTTL (clientToken w) lookup_self
         (answer E w lookup_self)]
  /\ (forall secret e,
        answer E w lookup_self = (secret, Some e) ->
        fst (tokenRefreshNeeded E minimumTokenTTL w) = Returns true)
  /\ (forall secret num,
        answer E w lookup_self = (Some secret, None) ->
        Data secret !! "ttl" = Some (VNumber num) ->
        fst (tokenRefreshNeeded E minimumTokenTTL w)
        = Returns match Go.ParseInt64 num with
                  | Some ttl => (ttl <? minimumTokenTTL)%Z
                  | None => true
                  end)
  /\ (fst (tokenRefreshNeeded E minimumTokenTTL w) = Returns false
      <-> reports_ttl minimumTokenTTL (answer E w lookup_self))
  /\ (answer E w lookup_self = (None, None) ->
      fst (tokenRefreshNeeded E minimumTokenTTL w)
      = Panics "nil pointer dereference").
Proof.
  rewrite tokenRefreshNeeded_run. cbn [fst].
  split; [apply events_eq; rewrite tokenRefreshNeeded_run; reflexivity|].
  split; [intros secret e ->; destruct secret; reflexivity|].
  split.
  { intros secret num -> Hd. cbn. rewrite Hd.
    destruct (Go.ParseInt64 num); reflexivity. }
  split; [apply verdict_false|].
  intros ->. reflexivity.
Qed.

Lemma tokenRefreshNeeded_fails_open_witness :
  fst (tokenRefreshNeeded Scenario.cooling_env 5 Scenario.cooling_world)
    = Returns true
  /\ fst (tokenRefreshNeeded Scenario.token_env 5 Scenario.token_world)
     = Returns true.
Proof.
  split.
  - destruct (tokenRefreshNeeded_fails_open Scenario.cooling_env 5
                Scenario.cooling_world) as (_ & H & _).
    apply (H None "permission denied"). reflexivity.
  - destruct (tokenRefreshNeeded_fails_open Scenario.token_env 5
                Scenario.token_world) as (_ & _ & H & _).
    apply (H {| Data := {[ "ttl" := VNumber "2" ]}; Auth := None |} "2");
      reflexivity.
Defined.




Lemma exchange_cache (E : Env) by_ req w :
  authCache (snd (exchange E by_ req w))
  = match granted (answer E w req) with
    | Some _ => Assign.set_lastAuthTime (Unix E (ticks w)) (authCache w)
    | None => authCache w
    end.
Proof.
  destruct (granted (answer E w req)) as [tok|] eqn:Hg.
  - rewrite exchange_granted with (tok := tok) by exact Hg. reflexivity.
  - destruct (exchange_refused E by_ req w Hg) as [-> _]. reflexivity.
Qed.

(** Splits a computation for an invariant that names two of the three
    parameter sets. *)
Ltac keeps_step :=
  cbv beta;
  lazymatch goal with
  | |- preserves _ _ (mbind _ _) => apply preserves_bind; [|intros ?]
  | |- preserves _ _ (mret _) => apply preserves_ret
  | |- preserves _ _ (panic _) => apply preserves_panic
  | |- preserves _ _ cache => apply preserves_cache
  | |- preserves _ _ (assign _) =>
      apply preserves_assign; intros ? [? ?]; split; assumption
  | |- preserves _ _ (time_Now_Unix _) =>
      apply preserves_now; intros; exact Logic.I
  | |- preserves _ _ (Logical _ _ _) =>
      apply preserves_Logical; intros; exact Logic.I
  | |- preserves _ _ (Client_SetToken _) =>
      apply preserves_SetToken; intros; exact Logic.I
  | |- preserves _ _ (os_ReadFile _) =>
      apply preserves_ReadFile; intros; exact Logic.I
  | |- preserves _ _ (os_Create _ _) =>
      apply preserves_Create; intros; exact Logic.I
  | |- preserves _ _ (WriteString _ _ _) =>
      apply preserves_WriteString; intros; exact Logic.I
  | |- preserves _ _ (tokenRefreshNeeded _ _) =>
      unfold tokenRefreshNeeded, GetTokenTTL
  | |- preserves _ _ (ApproleLogin _ _ _ _) => unfold ApproleLogin
  | |- preserves _ _ (match ?x with _ => _ end) => destruct x
  end.

Lemma InitApprole_keeps (E : Env) k l rf sf tf p :
  preserves (fun c => kubernetes c = k /\ ldap c = l) (fun _ => True)
    (InitApprole E rf sf tf p).
Proof. unfold InitApprole. repeat keeps_step. Qed.

(** X7.  A login flow writes the parameters of its own method only: the
    sets of the other methods stay in the auth cache as they were, so a
    later switch back finds them.  [InitApprole] keeps the kubernetes and
    ldap sets whatever its outcome. *)
Theorem login_flows_keep_other_methods (E : Env) (w : World) :
  (forall r s p,
     kubernetes (authCache (snd (ApproleLogin E r s p w)))
       = kubernetes (authCache w)
     /\ ldap (authCache (snd (ApproleLogin E r s p w))) = ldap (authCache w))
  /\ (forall j r p,
        approle (authCache (snd (KubernetesLogin E j r p w)))
          = approle (authCache w)
        /\ ldap (authCache (snd (KubernetesLogin E j r p w)))
           = ldap (authCache w))
  /\ (forall u pw p,
        approle (authCache (snd (LDAPLogin E u pw p w)))
          = approle (authCache w)
        /\ kubernetes (authCache (snd (LDAPLogin E u pw p w)))
           = kubernetes (authCache w))
  /\ (forall tok,
        approle (authCache (snd (SetToken E tok w))) = approle (authCache w)
        /\ kubernetes (authCache (snd (SetToken E tok w)))
           = kubernetes (authCache w)
        /\ ldap (authCache (snd (SetToken E tok w))) = ldap (authCache w))
  /\ (forall rf sf tf p,
        kubernetes (authCache (snd (InitApprole E rf sf tf p w)))
          = kubernetes (authCache w)
        /\ ldap (authCache (snd (InitApprole E rf sf tf p w)))
           = ldap (authCache w)).
Proof.
  split; [|split; [|split; [|split]]]; [| | | |
    intros rf sf tf p;
    exact (proj1 (InitApprole_keeps E _ _ rf sf tf p w (conj eq_refl eq_refl)))];
  repeat split.
  - rewrite ApproleLogin_exchange, exchange_cache.
    destruct (granted _); reflexivity.
  - rewrite ApproleLogin_exchange, exchange_cache.
    destruct (granted _); reflexivity.
  - rewrite KubernetesLogin_exchange, exchange_cache.
    destruct (granted _); reflexivity.
  - rewrite KubernetesLogin_exchange, exchange_cache.
    destruct (granted _); reflexivity.
  - rewrite LDAPLogin_exchange, exchange_cache.
    destruct (granted _); reflexivity.
  - rewrite LDAPLogin_exchange, exchange_cache.
    destruct (granted _); reflexivity.
Qed.

Lemma events_after {A B} (m : M A) (k : M B) w w1 d1 :
  trace w1 = trace w ++ d1 ->
  snd (m w) = snd (k w1) ->
  (exists d, trace (snd (k w1)) = trace w1 ++ d) ->
  events m w = d1 ++ events k w1.
Proof.
  intros H1 Hm (d & Hd). unfold events. rewrite Hm, Hd, H1.
  rewrite (drop_app_length (trace w ++ d1) d).
  rewrite <- app_assoc. apply drop_app_length.
Qed.

Lemma events_dropping_value {A B} (m : M (A * B)) w :
  events ('(_, err) ← m; mret err) w = events m w.
Proof.
  unfold events, mbind, M_bind. destruct (m w) as [[[a b]| |] w']; reflexivity.
Qed.

Lemma events_of_exchange (E : Env) by_ req c w (m : M (string * option error)) :
  m w = exchange E by_ req (with_cache c w) ->
  exists rest,
    events m w
    = EvRequest by_ (clientToken w) req
        (backend E (requests w) (clientToken w) req) :: rest.
Proof.
  intros Hm.
  pose proof (exchange_events E by_ req (with_cache c w)) as Hev.
  unfold events in *. rewrite Hm.
  change (trace (with_cache c w)) with (trace w) in Hev. rewrite Hev.
  eexists. reflexivity.
Qed.

Section Replay.
Variable E : Env.

Lemma LDAPLogin_records u pw p w :
  ldap (authCache (snd (LDAPLogin E u pw p w)))
  = {| username := u; password := pw;
       ldap_authPath := if p =? "" then "auth/ldap" else p |}
  /\ lastAuthMethod (authCache (snd (LDAPLogin E u pw p w))) = "ldap".
Proof.
  rewrite LDAPLogin_exchange, exchange_cache.
  destruct (granted _); split; reflexivity.
Qed.

Lemma KubernetesLogin_records j r p w :
  kubernetes (authCache (snd (KubernetesLogin E j r p w)))
  = {| jwt := j; role := r; kubernetes_authPath := p |}
  /\ lastAuthMethod (authCache (snd (KubernetesLogin E j r p w)))
     = "kubernetes".
Proof.
  rewrite KubernetesLogin_exchange, exchange_cache.
  destruct (granted _); split; reflexivity.
Qed.

Lemma default_path_fixed d p :
  d <> "" ->
  (if (if p =? "" then d else p) =? "" then d else (if p =? "" then d else p))
  = (if p =? "" then d else p).
Proof.
  intros Hd. destruct (p =? "") eqn:Hp.
  - apply String.eqb_neq in Hd. rewrite Hd. reflexivity.
  - rewrite Hp. reflexivity.
Qed.

(** The events of a dispatcher that goes on to a login flow. *)
Lemma dispatched_events w (k : M (option error)) d :
  checkAuthNeeded E w
  = k (sent E InGetTokenTTL lookup_self (tick E w)) ->
  events k (sent E InGetTokenTTL lookup_self (tick E w)) = d ->
  emits auth_event k ->
  events (checkAuthNeeded E) w
  = EvNow (Unix E (ticks w))
    :: EvRequest InGetTokenTTL (clientToken w) lookup_self
         (answer E w lookup_self)
    :: d.
Proof.
  intros Hrun Hd Hk.
  rewrite (events_after (checkAuthNeeded E) k w
             (sent E InGetTokenTTL lookup_self (tick E w))
             [EvNow (Unix E (ticks w));
              EvRequest InGetTokenTTL (clientToken w) lookup_self
                (answer E w lookup_self)]).
  - rewrite Hd. reflexivity.
  - cbn. rewrite <- app_assoc. reflexivity.
  - rewrite Hrun. reflexivity.
  - destruct (Hk (sent E InGetTokenTTL lookup_self (tick E w)))
      as (d' & Hd' & _). eauto.
Qed.

End Replay.

(** X8.  What a login records is what a recovery replays.  After
    [LDAPLogin] with a user, a password and a path (whether or not that
    login succeeded), a later recovery whose cache still holds that set
    and the method ldap sends its login with the same password to the same
    path, <path or auth/ldap>/login/<user>; after [KubernetesLogin] it
    sends the same jwt and role to the same path. *)
Theorem recovery_replays_recorded_login (E : Env) (w w2 : World) :
  5 <= elapsed E w2 ->
  stale E (requests w2) (clientToken w2) ->
  (forall u pw p,
     ldap (authCache w2) = ldap (authCache (snd (LDAPLogin E u pw p w))) ->
     lastAuthMethod (authCache w2) = "ldap" ->
     exists rest,
       events (checkAuthNeeded E) w2
       = EvNow (Unix E (ticks w2))
         :: EvRequest InGetTokenTTL (clientToken w2) lookup_self
              (answer E w2 lookup_self)
         :: EvRequest InLDAPLogin (clientToken w2)
              (ReqWrite ((if p =? "" then "auth/ldap" else p)
                         +:+ "/login/" +:+ u)
                 {[ "password" := VString pw ]})
              (backend E (S (requests w2)) (clientToken w2)
                 (ReqWrite ((if p =? "" then "auth/ldap" else p)
                            +:+ "/login/" +:+ u)
                    {[ "password" := VString pw ]}))
         :: rest)
  /\ (forall j r p,
        kubernetes (authCache w2)
          = kubernetes (authCache (snd (KubernetesLogin E j r p w))) ->
        lastAuthMethod (authCache w2) = "kubernetes" ->
        exists rest,
          events (checkAuthNeeded E) w2
          = EvNow (Unix E (ticks w2))
            :: EvRequest InGetTokenTTL (clientToken w2) lookup_self
                 (answer E w2 lookup_self)
            :: EvRequest InKubernetesLogin (clientToken w2)
                 (ReqWrite p {[ "jwt" := VString j; "role" := VString r ]})
                 (backend E (S (requests w2)) (clientToken w2)
                    (ReqWrite p
                       {[ "jwt" := VString j; "role" := VString r ]}))
            :: rest).
Proof.
  intros Hc Hs.
  pose proof (checkAuthNeeded_past_cooldown E w2 Hc) as Hrun.
  unfold stale in Hs. unfold answer in Hrun at 1.
  cbn [requests clientToken tick snd time_Now_Unix log] in Hrun.
  rewrite Hs in Hrun. cbv zeta in Hrun.
  cbn [authCache sent snd Logical log] in Hrun.
  split.
  - intros u pw p Hl Hm.
    destruct (LDAPLogin_records E u pw p w) as [Hrec _].
    rewrite Hrec in Hl. rewrite Hm, Hl in Hrun.
    cbn [String.eqb Ascii.eqb Bool.eqb username password ldap_authPath]
      in Hrun.
    set (p' := if p =? "" then "auth/ldap" else p) in *.
    destruct (events_of_exchange E InLDAPLogin _ _
                (sent E InGetTokenTTL lookup_self (tick E w2)) _
                (LDAPLogin_exchange E u pw p'
                   (sent E InGetTokenTTL lookup_self (tick E w2))))
      as (rest & Hrest).
    subst p'. rewrite (default_path_fixed "auth/ldap" p) in Hrest
      by discriminate.
    exists rest.
    apply (dispatched_events E w2 _ _ Hrun).
    + rewrite events_dropping_value. exact Hrest.
    + apply emits_bind; [apply LDAPLogin_auth|].
      intros [? ?]. apply emits_ret.
  - intros j r p Hk Hm.
    destruct (KubernetesLogin_records E j r p w) as [Hrec _].
    rewrite Hrec in Hk. rewrite Hm, Hk in Hrun.
    cbn [String.eqb Ascii.eqb Bool.eqb jwt role kubernetes_authPath] in Hrun.
    destruct (events_of_exchange E InKubernetesLogin _ _
                (sent E InGetTokenTTL lookup_self (tick E w2)) _
                (KubernetesLogin_exchange E j r p
                   (sent E InGetTokenTTL lookup_self (tick E w2))))
      as (rest & Hrest).
    exists rest.
    apply (dispatched_events E w2 _ _ Hrun).
    + rewrite events_dropping_value. exact Hrest.
    + apply emits_bind; [apply KubernetesLogin_auth|].
      intros [? ?]. apply emits_ret.
Qed.

Lemma recovery_replays_recorded_login_witness :
  5 <= elapsed Scenario.token_env
         (Scenario.world
            (authCache (snd (LDAPLogin Scenario.token_env "alice" "secret" ""
                               Scenario.token_world))) "t-0" ∅)
  /\ exists rest,
       events (checkAuthNeeded Scenario.token_env)
         (Scenario.world
            (authCache (snd (LDAPLogin Scenario.token_env "alice" "secret" ""
                               Scenario.token_world))) "t-0" ∅)
       = EvNow 200
         :: EvRequest InGetTokenTTL "t-0" lookup_self (Scenario.ttl "2")
         :: EvRequest InLDAPLogin "t-0"
              (ReqWrite "auth/ldap/login/alice"
                 {[ "password" := VString "secret" ]})
              Scenario.denied
         :: rest.
Proof.
  assert (Hc : 5 <= elapsed Scenario.token_env
                 (Scenario.world
                    (authCache (snd (LDAPLogin Scenario.token_env "alice"
                                       "secret" "" Scenario.token_world)))
                    "t-0" ∅))
    by (vm_compute; discriminate).
  split; [exact Hc|].
  destruct (recovery_replays_recorded_login Scenario.token_env
              Scenario.token_world
              (Scenario.world
                 (authCache (snd (LDAPLogin Scenario.token_env "alice"
                                    "secret" "" Scenario.token_world)))
                 "t-0" ∅) Hc eq_refl) as (Hldap & _).
  destruct (Hldap "alice" "secret" "" eq_refl) as (rest & Hrest).
  - vm_compute. reflexivity.
  - exists rest. exact Hrest.
Defined.

(** X9.  With no method recorded, or one the dispatcher does not know, a
    recovery sends no login: past the cooldown and with the token in need
    of a refresh, [checkAuthNeeded] returns an error that names the method,
    after the clock reading and the self-lookup alone, and leaves the auth
    cache and the token as they were. *)
Theorem unknown_method_is_an_error (E : Env) (w : World) :
  5 <= elapsed E w ->
  stale E (requests w) (clientToken w) ->
  lastAuthMethod (authCache w) <> "approle" ->
  lastAuthMethod (authCache w) <> "kubernetes" ->
  lastAuthMethod (authCache w) <> "ldap" ->
  lastAuthMethod (authCache w) <> "token" ->
  checkAuthNeeded E w
  = (Returns
       (Some ("unknown previous auth method or no authentication performed: ["
              +:+ lastAuthMethod (authCache w) +:+ "]")),
     sent E InGetTokenTTL lookup_self (tick E w))
  /\ logins (events (checkAuthNeeded E) w) = O
  /\ authCache (snd (checkAuthNeeded E w)) = authCache w
  /\ clientToken (snd (checkAuthNeeded E w)) = clientToken w.
Proof.
  intros Hc Hs Ha Hk Hl Ht.
  apply String.eqb_neq in Ha, Hk, Hl, Ht.
  assert (Hrun : checkAuthNeeded E w
    = (Returns
         (Some ("unknown previous auth method or no authentication performed: ["
                +:+ lastAuthMethod (authCache w) +:+ "]")),
       sent E InGetTokenTTL lookup_self (tick E w))).
  { rewrite checkAuthNeeded_past_cooldown by exact Hc.
    unfold stale in Hs. unfold answer.
    cbn [requests clientToken tick snd time_Now_Unix log]. rewrite Hs.
    cbv zeta. cbn [authCache sent snd Logical log].
    rewrite Ha, Hk, Hl, Ht. reflexivity. }
  split; [exact Hrun|].
  assert (Hev : events (checkAuthNeeded E) w
                = [EvNow (Unix E (ticks w));
                   EvRequest InGetTokenTTL (clientToken w) lookup_self
                     (answer E w lookup_self)]).
  { apply events_eq. rewrite Hrun. cbn. rewrite <- app_assoc. reflexivity. }
  rewrite Hev, Hrun. repeat split; reflexivity.
Qed.

Lemma unknown_method_is_an_error_witness :
  fst (checkAuthNeeded Scenario.token_env (Scenario.world emptyCache "t-0" ∅))
  = Returns
      (Some "unknown previous auth method or no authentication performed: []").
Proof.
  destruct (unknown_method_is_an_error Scenario.token_env
              (Scenario.world emptyCache "t-0" ∅)) as (Hrun & _).
  - vm_compute. discriminate.
  - reflexivity.
  - discriminate.
  - discriminate.
  - discriminate.
  - discriminate.
  - rewrite Hrun. reflexivity.
Defined.

(* --------------------------------------------------------------------- *)
(** *** At most one login for each call of the dispatcher                *)

Section Spends.

Lemma spends_silent {A} (m : M A) :
  (forall w, trace (snd (m w)) = trace w) -> spends 0 m.
Proof. intros H w. exists []. rewrite app_nil_r. split; [apply H|reflexivity]. Qed.

Lemma spends_event {A} (m : M A) n :
  (forall w, exists ev, trace (snd (m w)) = trace w ++ [ev]
                        /\ (logins [ev] <= n)%nat) ->
  spends n m.
Proof. intros H w. destruct (H w) as (ev & Hev & Hl). exists [ev]. auto. Qed.

Lemma spends_more {A} (m : M A) a b :
  (a <= b)%nat -> spends a m -> spends b m.
Proof.
  intros Hab Hm w. destruct (Hm w) as (d & Hd & Hl). exists d.
  split; [exact Hd|lia].
Qed.

Lemma spends_bind {A B} (m : M A) (f : A -> M B) a b :
  spends a m -> (forall x, spends b (f x)) -> spends (a + b) (m ≫= f).
Proof.
  intros Hm Hf w. unfold mbind, M_bind.
  destruct (Hm w) as (d & Hd & Hl).
  destruct (m w) as [[x| |] w1]; cbn [snd] in *.
  - destruct (Hf x w1) as (d' & Hd' & Hl').
    exists (d ++ d'). rewrite Hd', Hd, app_assoc. split; [reflexivity|].
    unfold logins in *. rewrite count_app. lia.
  - exists d. split; [exact Hd|lia].
  - exists d. split; [exact Hd|lia].
Qed.

(** A step that sends no login, and then the rest. *)
Lemma spends_then {A B} (m : M A) (f : A -> M B) n :
  spends 0 m -> (forall x, spends n (f x)) -> spends n (m ≫= f).
Proof. intros Hm Hf. apply (spends_bind m f 0 n Hm Hf). Qed.

(** The login, and then steps that send none. *)
Lemma spends_first {A B} (m : M A) (f : A -> M B) n :
  spends n m -> (forall x, spends 0 (f x)) -> spends n (m ≫= f).
Proof.
  intros Hm Hf. apply (spends_more _ (n + 0) n); [lia|].
  apply (spends_bind m f n 0 Hm Hf).
Qed.

End Spends.

(** Steps that send no login request. *)
Ltac free_step :=
  cbv beta;
  lazymatch goal with
  | |- spends _ (mbind _ _) => apply spends_then; [|intros ?]
  | |- spends _ (mret _) => apply (spends_more _ 0); [lia|]; apply spends_silent; reflexivity
  | |- spends _ (panic _) => apply (spends_more _ 0); [lia|]; apply spends_silent; reflexivity
  | |- spends _ cache => apply (spends_more _ 0); [lia|]; apply spends_silent; reflexivity
  | |- spends _ (assign _) => apply (spends_more _ 0); [lia|]; apply spends_silent; reflexivity
  | |- spends _ (time_Now_Unix _) =>
      apply (spends_more _ 0); [lia|];
      apply spends_event; intros ?; eexists; split; [reflexivity|cbn; lia]
  | |- spends _ (Client_SetToken _) =>
      apply (spends_more _ 0); [lia|];
      apply spends_event; intros ?; eexists; split; [reflexivity|cbn; lia]
  | |- spends _ (os_ReadFile _) =>
      apply (spends_more _ 0); [lia|];
      apply spends_event; intros ?; eexists; split; [reflexivity|cbn; lia]
  | |- spends _ (os_Create _ _) =>
      apply (spends_more _ 0); [lia|];
      apply spends_event; intros ?; unfold os_Create;
      destruct (creatable _ _); eexists; (split; [reflexivity|cbn; lia])
  | |- spends _ (WriteString _ _ _) =>
      apply (spends_more _ 0); [lia|];
      apply spends_event; intros ?; unfold WriteString;
      destruct (writable _ _); eexists; (split; [reflexivity|cbn; lia])
  | |- spends _ (Logical _ InGetTokenTTL _) =>
      apply (spends_more _ 0); [lia|];
      apply spends_event; intros ?; eexists; split; [reflexivity|cbn; lia]
  | |- spends _ (match ?x with _ => _ end) => destruct x
  end.

Section OneLogin.
Variable E : Env.

Lemma tokenRefreshNeeded_free m : spends 0 (tokenRefreshNeeded E m).
Proof. unfold tokenRefreshNeeded, GetTokenTTL. repeat free_step. Qed.

Lemma exchange_spends_one by_ req : spends 1 (exchange E by_ req).
Proof.
  intros w. eexists. split.
  - pose proof (exchange_events E by_ req w) as Hev. unfold events in Hev.
    destruct (emits_now (fun _ => True) E (fun _ => I) w) as (d0 & _).
    assert (Hx : exists d, trace (snd (exchange E by_ req w)) = trace w ++ d).
    { destruct (granted (answer E w req)) as [tok|] eqn:Hg.
      - rewrite exchange_granted with (tok := tok) by exact Hg.
        eexists. cbn. rewrite <- !app_assoc. reflexivity.
      - destruct (exchange_refused E by_ req w Hg) as [-> _].
        eexists. reflexivity. }
    destruct Hx as (d & Hd). rewrite Hd in Hev.
    rewrite drop_app_length in Hev. rewrite Hd, Hev. reflexivity.
  - unfold logins. cbn [count is_login].
    destruct (granted _), (login_caller by_); cbn; lia.
Qed.

Lemma ApproleLogin_spends_one r s p : spends 1 (ApproleLogin E r s p).
Proof.
  intros w. rewrite ApproleLogin_exchange.
  destruct (exchange_spends_one InApproleLogin
              (ReqWrite ((if p =? "" then "auth/approle" else p) +:+ "/login")
                 {[ "role_id" := VString r; "secret_id" := VString s ]})
              (with_cache
                 (approle_recorded r s (if p =? "" then "auth/approle" else p)
                    (authCache w)) w)) as (d & Hd & Hl).
  exists d. split; [exact Hd|exact Hl].
Qed.

Lemma KubernetesLogin_spends_one j r p : spends 1 (KubernetesLogin E j r p).
Proof.
  intros w. rewrite KubernetesLogin_exchange.
  destruct (exchange_spends_one InKubernetesLogin
              (ReqWrite p {[ "jwt" := VString j; "role" := VString r ]})
              (with_cache (kubernetes_recorded j r p (authCache w)) w))
    as (d & Hd & Hl).
  exists d. split; [exact Hd|exact Hl].
Qed.

Lemma LDAPLogin_spends_one u pw p : spends 1 (LDAPLogin E u pw p).
Proof.
  intros w. rewrite LDAPLogin_exchange.
  destruct (exchange_spends_one InLDAPLogin
              (ReqWrite ((if p =? "" then "auth/ldap" else p)
                         +:+ "/login/" +:+ u)
                 {[ "password" := VString pw ]})
              (with_cache
                 (ldap_recorded u pw (if p =? "" then "auth/ldap" else p)
                    (authCache w)) w)) as (d & Hd & Hl).
  exists d. split; [exact Hd|exact Hl].
Qed.

(** Steps up to the login, the login, and the steps after it. *)
Ltac login_step :=
  cbv beta;
  lazymatch goal with
  | |- spends _ (tokenRefreshNeeded _ _ ≫= _) =>
      apply spends_then; [apply tokenRefreshNeeded_free|intros ?]
  | |- spends _ (ApproleLogin _ _ _ _ ≫= _) =>
      apply spends_first; [apply ApproleLogin_spends_one|intros ?]
  | |- spends _ (KubernetesLogin _ _ _ _ ≫= _) =>
      apply spends_first; [apply KubernetesLogin_spends_one|intros ?]
  | |- spends _ (LDAPLogin _ _ _ _ ≫= _) =>
      apply spends_first; [apply LDAPLogin_spends_one|intros ?]
  | |- spends _ ((if _ then mret true else tokenRefreshNeeded _ _) ≫= _) =>
      apply spends_then;
        [match goal with
         | |- spends _ (if ?b then _ else _) => destruct b
         end; [repeat free_step|apply tokenRefreshNeeded_free]
        |intros ?]
  | |- _ => free_step
  end.

Lemma InitApprole_spends_one rf sf tf p : spends 1 (InitApprole E rf sf tf p).
Proof. unfold InitApprole. repeat login_step. Qed.

Lemma checkAuthNeeded_spends_one : spends 1 (checkAuthNeeded E).
Proof.
  unfold checkAuthNeeded.
  repeat lazymatch goal with
         | |- spends _ (InitApprole _ _ _ _ _ ≫= _) =>
             apply spends_first; [apply InitApprole_spends_one|intros ?]
         | |- _ => login_step
         end.
Qed.

End OneLogin.

(** X10.  One call of [checkAuthNeeded] sends at most one login request,
    whatever the auth cache, the server and the files are; so does one
    call of [InitApprole]. *)
Theorem at_most_one_login_per_recovery (E : Env) (w : World) :
  (logins (events (checkAuthNeeded E) w) <= 1)%nat
  /\ forall rf sf tf p,
       (logins (events (InitApprole E rf sf tf p) w) <= 1)%nat.
Proof.
  split.
  - destruct (checkAuthNeeded_spends_one E w) as (d & Hd & Hl).
    rewrite (events_eq _ _ _ Hd). exact Hl.
  - intros rf sf tf p.
    destruct (InitApprole_spends_one E rf sf tf p w) as (d & Hd & Hl).
    rewrite (events_eq _ _ _ Hd). exact Hl.
Qed.

(* ===================================================================== *)
(** ** More on InitApprole                                               *)
(* ===================================================================== *)

Lemma init_checked_token (E : Env) rf sf tf p w :
  clientToken (init_checked E rf sf tf p w)
  = Go.TrimSuffix (default "" (files w !! tf)) Go.newline.
Proof. unfold init_checked. destruct (_ =? ""); reflexivity. Qed.

Lemma init_checked_files (E : Env) rf sf tf p w :
  files (init_checked E rf sf tf p w) = files w.
Proof. unfold init_checked. destruct (_ =? ""); reflexivity. Qed.

Lemma ApproleLogin_failed (E : Env) r s p w tok e :
  fst (ApproleLogin E r s p w) = Returns (tok, Some e) ->
  exists w',
    ApproleLogin E r s p w = (Returns (tok, Some e), w')
    /\ clientToken w' = clientToken w /\ files w' = files w.
Proof.
  rewrite ApproleLogin_exchange. intros H.
  match type of H with
  | fst (exchange E ?by_ ?req ?w1) = _ =>
      destruct (granted (answer E w1 req)) as [tok'|] eqn:Hg
  end.
  - rewrite exchange_granted with (tok := tok') in H by exact Hg.
    discriminate.
  - destruct (exchange_refused E InApproleLogin _ _ Hg) as [Hs _].
    match type of Hs with
    | _ = ?w' => exists w'
    end.
    split; [apply injective_projections; [exact H|exact Hs]|].
    split; reflexivity.
Qed.

(** X11.  When [InitApprole] finds nothing to reuse and its login is
    refused, it returns the login's error, wrapped, and leaves on the
    connection the token it took from the cache file (the empty string
    when there is no such file), not the token the connection had
    before.  The files are untouched. *)
Theorem InitApprole_refused_login
    (E : Env) (rf sf tf p : string) (w : World) (r s tok e : string) :
  files w !! rf = Some r -> files w !! sf = Some s ->
  nothing_cached E tf w ->
  fst (ApproleLogin E (Go.TrimSuffix r Go.newline) (Go.TrimSuffix s Go.newline)
         (approle_authPath (approle (init_recorded rf sf tf p (authCache w))))
         (init_checked E rf sf tf p w))
    = Returns (tok, Some e) ->
  fst (InitApprole E rf sf tf p w)
    = Returns ("", Some ("error attempting approle login: " +:+ e))
  /\ clientToken (snd (InitApprole E rf sf tf p w))
     = Go.TrimSuffix (default "" (files w !! tf)) Go.newline
  /\ files (snd (InitApprole E rf sf tf p w)) = files w.
Proof.
  intros Hr Hs Hn Hlogin.
  rewrite (InitApprole_fresh E rf sf tf p w r s Hr Hs Hn).
  rewrite run_cache_bind, init_checked_cache.
  destruct (ApproleLogin_failed E _ _ _ _ _ _ Hlogin)
    as (w' & Hrun & Htok & Hfiles).
  rewrite run_bind, Hrun. cbv beta iota. cbn [mret M_ret fst snd].
  rewrite Htok, Hfiles, init_checked_token, init_checked_files.
  repeat split; reflexivity.
Qed.

Lemma InitApprole_refused_login_witness :
  fst (InitApprole Scenario.token_env "/r" "/s" "/t" ""
         (Scenario.world emptyCache "t-old" (delete "/t" Scenario.init_files)))
    = Returns ("", Some "error attempting approle login: permission denied")
  /\ clientToken
       (snd (InitApprole Scenario.token_env "/r" "/s" "/t" ""
               (Scenario.world emptyCache "t-old"
                  (delete "/t" Scenario.init_files)))) = "".
Proof.
  destruct (InitApprole_refused_login Scenario.token_env "/r" "/s" "/t" ""
              (Scenario.world emptyCache "t-old"
                 (delete "/t" Scenario.init_files))
              ("role-id" +:+ Go.newline) ("secret-id" +:+ Go.newline)
              "" "permission denied") as (Hret & Htok & _).
  - reflexivity.
  - reflexivity.
  - left. reflexivity.
  - vm_compute. reflexivity.
  - split; [exact Hret|exact Htok].
Defined.

Lemma ApproleLogin_succeeded_files (E : Env) r s p w tok :
  fst (ApproleLogin E r s p w) = Returns (tok, None) ->
  files (snd (ApproleLogin E r s p w)) = files w
  /\ requests (snd (ApproleLogin E r s p w)) = S (requests w).
Proof.
  rewrite ApproleLogin_exchange. intros H.
  match type of H with
  | fst (exchange E ?by_ ?req ?w1) = _ =>
      destruct (granted (answer E w1 req)) as [tok'|] eqn:Hg
  end.
  - rewrite exchange_granted with (tok := tok') by exact Hg.
    split; reflexivity.
  - destruct (exchange_refused E InApproleLogin _ _ Hg) as [_ Hn].
    destruct (Hn tok H).
Qed.

(** A fresh login of [InitApprole] that can write its cache file. *)
Lemma InitApprole_logged_in
    (E : Env) (rf sf tf p : string) (w : World) (r s tok : string) :
  files w !! rf = Some r -> files w !! sf = Some s ->
  nothing_cached E tf w ->
  fst (ApproleLogin E (Go.TrimSuffix r Go.newline) (Go.TrimSuffix s Go.newline)
         (approle_authPath (approle (init_recorded rf sf tf p (authCache w))))
         (init_checked E rf sf tf p w))
    = Returns (tok, None) ->
  creatable E tf = true -> writable E tf = true ->
  fst (InitApprole E rf sf tf p w) = Returns (tok, None)
  /\ clientToken (snd (InitApprole E rf sf tf p w)) = tok
  /\ files (snd (InitApprole E rf sf tf p w)) = <[tf := tok]> (files w).
Proof.
  intros Hr Hs Hn Hlogin Hcreate Hwrite.
  rewrite (InitApprole_fresh E rf sf tf p w r s Hr Hs Hn).
  rewrite run_cache_bind, init_checked_cache.
  destruct (ApproleLogin_succeeded E _ _ _ _ _ Hlogin)
    as (w' & Hrun & Htok & Htf).
  destruct (ApproleLogin_succeeded_files E _ _ _ _ _ Hlogin) as [Hfiles _].
  rewrite Hrun in Hfiles. cbn [snd] in Hfiles.
  rewrite init_checked_cache in Htf. rewrite init_checked_files in Hfiles.
  assert (Htf' : structs.tokenFile (approle (authCache w')) = tf).
  { rewrite Htf. unfold init_recorded. destruct (negb (p =? "")); reflexivity. }
  rewrite run_bind, Hrun. cbv beta iota.
  rewrite run_cache_bind, Htf'.
  unfold mbind, M_bind, os_Create, WriteString. rewrite Hcreate.
  cbn [fst snd]. rewrite Hwrite. cbn [fst snd clientToken files log mret M_ret].
  rewrite Hfiles, insert_insert_eq. repeat split; [exact Htok].
Qed.

(** X12.  When [InitApprole] finds nothing to reuse, its login succeeds
    with [tok] and the cache file can be created and written,
    [InitApprole] returns [tok], leaves it on the connection, and the
    cache file holds exactly [tok], with no newline added; no other file
    changes. *)
Theorem InitApprole_writes_token_file
    (E : Env) (rf sf tf p : string) (w : World) (r s tok : string) :
  files w !! rf = Some r -> files w !! sf = Some s ->
  nothing_cached E tf w ->
  fst (ApproleLogin E (Go.TrimSuffix r Go.newline) (Go.TrimSuffix s Go.newline)
         (approle_authPath (approle (init_recorded rf sf tf p (authCache w))))
         (init_checked E rf sf tf p w))
    = Returns (tok, None) ->
  creatable E tf = true -> writable E tf = true ->
  fst (InitApprole E rf sf tf p w) = Returns (tok, None)
  /\ clientToken (snd (InitApprole E rf sf tf p w)) = tok
  /\ files (snd (InitApprole E rf sf tf p w)) = <[tf := tok]> (files w).
Proof.
  intros Hr Hs Hn Hlogin Hcreate Hwrite.
  exact (InitApprole_logged_in E rf sf tf p w r s tok
           Hr Hs Hn Hlogin Hcreate Hwrite).
Qed.

Lemma InitApprole_writes_token_file_witness :
  fst (InitApprole Scenario.init_env "/r" "/s" "/t" "" Scenario.fresh_world)
    = Returns ("t-1", None)
  /\ files (snd (InitApprole Scenario.init_env "/r" "/s" "/t" ""
                   Scenario.fresh_world)) !! "/t" = Some "t-1".
Proof.
  destruct (InitApprole_writes_token_file Scenario.init_env
              "/r" "/s" "/t" "" Scenario.fresh_world
              ("role-id" +:+ Go.newline) ("secret-id" +:+ Go.newline) "t-1")
    as (Hret & _ & Hfiles).
  - reflexivity.
  - reflexivity.
  - left. reflexivity.
  - vm_compute. reflexivity.
  - reflexivity.
  - reflexivity.
  - split; [exact Hret|]. rewrite Hfiles. apply lookup_insert_eq.
Defined.

Lemma InitApprole_cache_hit_logins (E : Env) rf sf tf p w r s content :
  files w !! rf = Some r -> files w !! sf = Some s ->
  files w !! tf = Some content ->
  Go.TrimSuffix content Go.newline <> "" ->
  healthy E (requests w) (Go.TrimSuffix content Go.newline) ->
  logins (events (InitApprole E rf sf tf p) w) = O.
Proof.
  intros Hr Hs Ht Hne Hh.
  pose proof (InitApprole_cache_hit E rf sf tf p w r s content
                Hr Hs Ht Hne Hh) as Hrun.
  erewrite events_eq; [|rewrite Hrun; unfold init_loaded;
                        rewrite Hr, Hs, Ht; cbn; rewrite <- !app_assoc;
                        reflexivity].
  reflexivity.
Qed.

Lemma TrimSuffix_without s suffix :
  Go.HasSuffix s suffix = false -> Go.TrimSuffix s suffix = s.
Proof. unfold Go.TrimSuffix. intros ->. reflexivity. Qed.

(** X13.  [InitApprole] reads back what it wrote.  After a call that
    logged in with [tok] and wrote the cache file, a second call on the
    same three paths returns [tok] without a login request, as long as the
    health check still finds [tok] good; this needs the cache file to be
    another file than the two credential files, and [tok] not to be empty
    nor to end with a newline. *)
Theorem InitApprole_reads_back_its_token
    (E : Env) (rf sf tf p p2 : string) (w : World) (r s tok : string) :
  files w !! rf = Some r -> files w !! sf = Some s ->
  nothing_cached E tf w ->
  fst (ApproleLogin E (Go.TrimSuffix r Go.newline) (Go.TrimSuffix s Go.newline)
         (approle_authPath (approle (init_recorded rf sf tf p (authCache w))))
         (init_checked E rf sf tf p w))
    = Returns (tok, None) ->
  creatable E tf = true -> writable E tf = true ->
  tf <> rf -> tf <> sf ->
  tok <> "" -> Go.HasSuffix tok Go.newline = false ->
  reports_ttl 5
    (backend E (requests (snd (InitApprole E rf sf tf p w))) tok lookup_self) ->
  fst (InitApprole E rf sf tf p2 (snd (InitApprole E rf sf tf p w)))
    = Returns (tok, None)
  /\ logins (events (InitApprole E rf sf tf p2)
               (snd (InitApprole E rf sf tf p w))) = O.
Proof.
  intros Hr Hs Hn Hlogin Hcreate Hwrite Hrf Hsf Hne Hnl Hh.
  destruct (InitApprole_logged_in E rf sf tf p w r s tok
              Hr Hs Hn Hlogin Hcreate Hwrite) as (_ & _ & Hfiles).
  set (w' := snd (InitApprole E rf sf tf p w)) in *.
  assert (Hr' : files w' !! rf = Some r)
    by (rewrite Hfiles, lookup_insert_ne by exact Hrf; exact Hr).
  assert (Hs' : files w' !! sf = Some s)
    by (rewrite Hfiles, lookup_insert_ne by exact Hsf; exact Hs).
  assert (Ht' : files w' !! tf = Some tok)
    by (rewrite Hfiles; apply lookup_insert_eq).
  assert (Htrim : Go.TrimSuffix tok Go.newline = tok)
    by (apply TrimSuffix_without, Hnl).
  assert (Hne' : Go.TrimSuffix tok Go.newline <> "") by (rewrite Htrim; exact Hne).
  assert (Hh' : healthy E (requests w') (Go.TrimSuffix tok Go.newline))
    by (rewrite Htrim; apply verdict_false, Hh).
  split.
  - rewrite (InitApprole_cache_hit E rf sf tf p2 w' r s tok Hr' Hs' Ht' Hne' Hh').
    cbn [fst]. rewrite Htrim. reflexivity.
  - apply (InitApprole_cache_hit_logins E rf sf tf p2 w' r s tok
             Hr' Hs' Ht' Hne' Hh').
Qed.

Lemma InitApprole_reads_back_its_token_witness :
  fst (InitApprole Scenario.init_env "/r" "/s" "/t" ""
         (snd (InitApprole Scenario.init_env "/r" "/s" "/t" ""
                 Scenario.fresh_world)))
    = Returns ("t-1", None)
  /\ logins (events (InitApprole Scenario.init_env "/r" "/s" "/t" "")
               (snd (InitApprole Scenario.init_env "/r" "/s" "/t" ""
                       Scenario.fresh_world))) = O.
Proof.
  apply (InitApprole_reads_back_its_token Scenario.init_env
           "/r" "/s" "/t" "" "" Scenario.fresh_world
           ("role-id" +:+ Go.newline) ("secret-id" +:+ Go.newline) "t-1").
  - reflexivity.
  - reflexivity.
  - left. reflexivity.
  - vm_compute. reflexivity.
  - reflexivity.
  - reflexivity.
  - discriminate.
  - discriminate.
  - discriminate.
  - reflexivity.
  - exists {| Data := {[ "ttl" := VNumber "3600" ]}; Auth := None |},
      "3600", 3600.
    split; [vm_compute; reflexivity|].
    split; [reflexivity|split; [reflexivity|lia]].
Defined.

(* ===================================================================== *)
(** ** More on the operations                                            *)
(* ===================================================================== *)

(** X14.  A path with no secret is no backend failure, and [Read]
    answers it with its own error after the one request.  [GetKV] takes
    that error for a failure all the same: it asks [checkAuthNeeded], and
    when that reports a recovery it starts over. *)
Theorem GetKV_asks_dispatcher_for_missing_secret
    (E : Env) (fuel : nat) (path : string) (returnOnlyData : bool)
    (w : World) :
  answer E w (ReqRead path) = (None, None) ->
  Read E (S fuel) path w
    = (Returns (None, Some "secret not found"),
       sent E InRead (ReqRead path) w)
  /\ GetKV E (S (S fuel)) path returnOnlyData w
     = match checkAuthNeeded E (sent E InRead (ReqRead path) w) with
       | (Returns None, w') => GetKV E (S fuel) path returnOnlyData w'
       | (Returns (Some _), w') =>
           (Returns (∅, Some "secret not found"), w')
       | (Panics msg, w') => (Panics msg, w')
       | (OutOfFuel, w') => (OutOfFuel, w')
       end.
Proof.
  intros Ha.
  assert (HRead : forall fuel,
            Read E (S fuel) path w
            = (Returns (None, Some "secret not found"),
               sent E InRead (ReqRead path) w)).
  { intros f. rewrite Read_retrying.
    rewrite retrying_succeeds by (rewrite Ha; reflexivity).
    rewrite Ha. reflexivity. }
  split; [apply HRead|].
  change (GetKV E (S (S fuel)) path returnOnlyData w)
    with (('(secret, err) ← Read E (S fuel) path;
           match err with
           | Some e =>
               checkAuthErr ← checkAuthNeeded E;
               match checkAuthErr with
               | None => GetKV E (S fuel) path returnOnlyData
               | Some _ => mret (∅, Some e)
               end
           | None =>
               match secret with
               | None => mret (∅, Some "secret not found")
               | Some secret =>
                   if returnOnlyData then
                     match Data secret !! "data" with
                     | Some (VMap m) => mret (m, None)
                     | _ => mret (∅, Some ("unable to read requested secret at "
                                           +:+ path))
                     end
                   else mret (Data secret, None)
               end
           end) w).
  rewrite run_bind, HRead. cbv beta iota. rewrite run_bind.
  destruct (checkAuthNeeded E _) as [[[e|]| |] w']; reflexivity.
Qed.

Lemma GetKV_asks_dispatcher_for_missing_secret_witness :
  answer Scenario.missing_env Scenario.token_world (ReqRead "secret/none")
    = (None, None)
  /\ events (Read Scenario.missing_env 1 "secret/none") Scenario.token_world
     = [EvRequest InRead "t-0" (ReqRead "secret/none") (None, None)]
  /\ events (GetKV Scenario.missing_env 3 "secret/none" true)
       Scenario.token_world
     = [EvRequest InRead "t-0" (ReqRead "secret/none") (None, None);
        EvNow 200;
        EvRequest InGetTokenTTL "t-0" lookup_self (Scenario.ttl "2");
        EvNow 201;
        EvRequest InRead "t-0" (ReqRead "secret/none") (None, None);
        EvNow 202].
Proof.
  destruct (GetKV_asks_dispatcher_for_missing_secret Scenario.missing_env
              1 "secret/none" true Scenario.token_world eq_refl)
    as (HRead & HGetKV).
  split; [reflexivity|]. split.
  - apply events_eq.
    rewrite (proj1 (GetKV_asks_dispatcher_for_missing_secret
                      Scenario.missing_env 0 "secret/none" true
                      Scenario.token_world eq_refl)).
    reflexivity.
  - apply events_eq. rewrite HGetKV. vm_compute. reflexivity.
Defined.

(** X15.  On a backend answer that carries a secret, [GetKV] and
    [GetKV2ByVersion] never panic, whatever the secret holds: the inner
    data when the ["data"] entry is a map, the whole data when [GetKV] is
    not asked for the inner one, and an error that names the path
    otherwise. *)
Theorem GetKV_checks_its_assertion
    (E : Env) (fuel : nat) (path : string) (w : World) (secret : Secret) :
  (answer E w (ReqRead path) = (Some secret, None) ->
   fst (GetKV E (S (S fuel)) path false w) = Returns (Data secret, None)
   /\ fst (GetKV E (S (S fuel)) path true w)
      = Returns match Data secret !! "data" with
                | Some (VMap m) => (m, None)
                | _ => (∅, Some ("unable to read requested secret at "
                                 +:+ path))
                end)
  /\ (forall version,
        answer E w (ReqReadWithData path {[ "version" := [Itoa version] ]})
          = (Some secret, None) ->
        fst (GetKV2ByVersion E (S fuel) path version w)
        = Returns match Data secret !! "data" with
                  | Some (VMap m) => (m, None)
                  | _ => (∅, Some ("unable to read requested secret at "
                                   +:+ path))
                  end).
Proof.
  split.
  - intros Ha.
    assert (HRead : Read E (S fuel) path w
                    = (Returns (Some secret, None),
                       sent E InRead (ReqRead path) w)).
    { rewrite Read_retrying.
      rewrite retrying_succeeds by (rewrite Ha; reflexivity).
      rewrite Ha. reflexivity. }
    split.
    + cbn [GetKV]. rewrite run_bind, HRead. reflexivity.
    + cbn [GetKV]. rewrite run_bind, HRead. cbv beta iota.
      destruct (Data secret !! "data") as [[]|]; reflexivity.
  - intros version Ha. rewrite GetKV2ByVersion_retrying.
    rewrite retrying_succeeds by (rewrite Ha; reflexivity).
    rewrite Ha. unfold GetKV2ByVersion_done. cbn [fst].
    destruct (Data secret !! "data") as [[]|]; reflexivity.
Qed.

Lemma GetKV_checks_its_assertion_witness :
  fst (GetKV (Scenario.env (Scenario.scripted [Scenario.ttl "7"]) [] true true)
         2 "secret/x" true (Scenario.world emptyCache "t-0" ∅))
  = Returns (∅, Some "unable to read requested secret at secret/x").
Proof.
  destruct (GetKV_checks_its_assertion
              (Scenario.env (Scenario.scripted [Scenario.ttl "7"]) [] true true)
              O "secret/x" (Scenario.world emptyCache "t-0" ∅)
              {| Data := {[ "ttl" := VNumber "7" ]}; Auth := None |})
    as (H & _).
  destruct H as (_ & H); [reflexivity|].
  rewrite H. vm_compute. reflexivity.
Defined.

(* ===================================================================== *)
(** ** A bare token and a server that is down                            *)
(* ===================================================================== *)

Section Down.
Variable E : Env.
Hypothesis Hdown : unreachable E.
Hypothesis Hclock : slow_clock E.

(** The ["token"] branch of the dispatcher: a failed self-lookup counts
    as a refresh being needed, the branch stamps the time and reports a
    recovery though nothing was done. *)
Lemma checkAuthNeeded_token_down w :
  token_expired E w ->
  exists w',
    checkAuthNeeded E w = (Returns None, w')
    /\ token_expired E w'
    /\ requests w' = S (requests w)
    /\ clientToken w' = clientToken w.
Proof.
  intros (Hm & Hc).
  assert (Hs : stale E (requests w) (clientToken w)).
  { unfold stale, verdict.
    destruct (Hdown (requests w) (clientToken w) lookup_self) as (e & He).
    destruct (backend E _ _ _) as [s oe]. cbn [snd] in He. subst oe.
    destruct s; reflexivity. }
  rewrite checkAuthNeeded_token by assumption.
  eexists. split; [reflexivity|].
  split; [|split; reflexivity].
  split; [exact Hm|]. unfold elapsed. cbn. apply Hclock.
Qed.

Lemma retrying_down {R} by_ req (done : Response -> M R) giveup fuel w :
  token_expired E w ->
  fst (retrying E by_ req done giveup fuel w) = OutOfFuel
  /\ requests (snd (retrying E by_ req done giveup fuel w))
     = (requests w + 2 * fuel)%nat.
Proof.
  revert w. induction fuel as [|fuel IH]; intros w Hw.
  - split; [reflexivity|]. cbn. lia.
  - destruct (Hdown (requests w) (clientToken w) req) as (e & He).
    rewrite retrying_fails with (e := e) by exact He.
    destruct (checkAuthNeeded_token_down (sent E by_ req w)) as (w' & -> & Hw' & Hr & _).
    { exact Hw. }
    destruct (IH w' Hw') as (-> & ->). split; [reflexivity|].
    rewrite Hr. cbn. lia.
Qed.

End Down.

Lemma wrap64_sub a b :
  Go.sub64 (Go.wrap64 a) (Go.wrap64 b) = Go.wrap64 (a - b).
Proof.
  unfold Go.sub64, Go.wrap64. f_equal.
  replace ((a + 2 ^ 63) mod 2 ^ 64 - 2 ^ 63
           - ((b + 2 ^ 63) mod 2 ^ 64 - 2 ^ 63) + 2 ^ 63)
    with ((a + 2 ^ 63) mod 2 ^ 64 - (b + 2 ^ 63) mod 2 ^ 64 + 2 ^ 63) by lia.
  rewrite Zplus_mod, <- Zminus_mod, <- Zplus_mod. f_equal. lia.
Qed.

Lemma down_env_unreachable : unreachable Scenario.down_env.
Proof. intros n tok req. eexists. reflexivity. Qed.

Lemma down_env_slow_clock : slow_clock Scenario.down_env.
Proof.
  intros n. unfold Unix. rewrite wrap64_sub.
  replace (now Scenario.down_env (S n) - now Scenario.down_env n) with 10
    by (cbn [now Scenario.down_env]; lia).
  vm_compute. discriminate.
Qed.

(** X16.  With the bare token of [SetToken], a server that fails every
    request and a clock that moves five seconds or more between two
    readings, no operation ever returns: the ["token"] branch of
    [checkAuthNeeded] reports a recovery each time, and the operation
    starts over.  Whatever the bound on the depth of the recursion, the
    run is unfinished at that depth, two requests sent at each level. *)
Theorem bare_token_retries_without_end
    (E : Env) (w : World) (fuel : nat) (path : string) :
  unreachable E -> slow_clock E -> token_expired E w ->
  (fst (Read E fuel path w) = OutOfFuel
   /\ requests (snd (Read E fuel path w)) = (requests w + 2 * fuel)%nat)
  /\ (fst (List E fuel path w) = OutOfFuel
      /\ requests (snd (List E fuel path w)) = (requests w + 2 * fuel)%nat)
  /\ (fst (Delete E fuel path w) = OutOfFuel
      /\ requests (snd (Delete E fuel path w)) = (requests w + 2 * fuel)%nat)
  /\ (forall data,
        fst (Write E fuel path data w) = OutOfFuel
        /\ requests (snd (Write E fuel path data w))
           = (requests w + 2 * fuel)%nat)
  /\ (forall data, fst (PutKV2 E fuel path data w) = OutOfFuel)
  /\ (forall version, fst (GetKV2ByVersion E fuel path version w) = OutOfFuel)
  /\ (forall returnOnlyData,
        fst (GetKV E fuel path returnOnlyData w) = OutOfFuel).
Proof.
  intros Hd Hc Hw.
  split. { rewrite Read_retrying. apply retrying_down; assumption. }
  split. { rewrite List_retrying. apply retrying_down; assumption. }
  split. { rewrite Delete_retrying. apply retrying_down; assumption. }
  split. { intros data. rewrite Write_retrying. apply retrying_down; assumption. }
  split. { intros data. unfold PutKV2. rewrite Write_retrying.
           apply retrying_down; assumption. }
  split. { intros version. rewrite GetKV2ByVersion_retrying.
           apply retrying_down; assumption. }
  intros returnOnlyData. destruct fuel as [|fuel]; [reflexivity|].
  cbn [GetKV]. rewrite run_bind.
  pose proof (retrying_down E Hd Hc InRead (ReqRead path) Read_done
                (fun r => (None, snd r)) fuel w Hw) as (Hf & _).
  rewrite <- Read_retrying in Hf.
  destruct (Read E fuel path w) as [o w']. cbn [fst] in Hf. subst o.
  reflexivity.
Qed.

Lemma bare_token_retries_without_end_witness :
  fst (Read Scenario.down_env 7 "secret/x" Scenario.token_world) = OutOfFuel
  /\ requests (snd (Read Scenario.down_env 7 "secret/x" Scenario.token_world))
     = 14%nat.
Proof.
  destruct (bare_token_retries_without_end Scenario.down_env
              Scenario.token_world 7 "secret/x"
              down_env_unreachable down_env_slow_clock) as (H & _).
  - split; [reflexivity|]. vm_compute. discriminate.
  - exact H.
Defined.

(* ===================================================================== *)
(** ** The loops over a map, in any order                                *)
(* ===================================================================== *)

Lemma entries_of_map (data : gmap string Value) entries :
  entries ≡ₚ map_to_list data ->
  NoDup entries.*1
  /\ forall k v, (k, v) ∈ entries <-> data !! k = Some v.
Proof.
  intros Hp. split.
  - rewrite Hp. apply NoDup_fst_map_to_list.
  - intros k v. rewrite Hp. apply elem_of_map_to_list.
Qed.

Lemma GetAuthType_select_absent entries path :
  path ∉ entries.*1 ->
  GetAuthType_select entries path = Returns ("", Some "mount not found").
Proof.
  induction entries as [|[k v] entries IH]; intros Hn; [reflexivity|].
  cbn [GetAuthType_select]. rewrite fmap_cons, not_elem_of_cons in Hn.
  destruct Hn as (Hk & Hn). cbn [fst] in Hk.
  destruct (String.eqb_spec k path) as [->|_]; [congruence|]. auto.
Qed.

Lemma GetAuthType_select_present entries path v :
  NoDup entries.*1 -> (path, v) ∈ entries ->
  GetAuthType_select entries path
  = match v with
    | VMap mountData =>
        match mountData !! "type" with
        | Some (VString t) => Returns (t, None)
        | _ => Panics "interface conversion: not string"
        end
    | _ => Returns ("", Some "failed to work with data from sys/auth")
    end.
Proof.
  induction entries as [|[k v'] entries IH]; intros Hd Hin.
  - inversion Hin.
  - rewrite fmap_cons, NoDup_cons in Hd. destruct Hd as (Hk & Hd).
    cbn [fst] in Hk. cbn [GetAuthType_select].
    apply elem_of_cons in Hin. destruct Hin as [Heq|Hin].
    + injection Heq as <- <-. rewrite String.eqb_refl. reflexivity.
    + destruct (String.eqb_spec k path) as [->|_]; [|auto].
      exfalso. apply Hk. apply list_elem_of_fmap. exists (path, v). auto.
Qed.

(** X17.  The answer of [GetAuthType] does not depend on the order in
    which the range statement yields the mounts of sys/auth: it is read
    off the one entry under the mount asked for. *)
Theorem GetAuthType_any_order
    (data : gmap string Value) (entries : list (string * Value))
    (path : string) :
  entries ≡ₚ map_to_list data ->
  GetAuthType_select entries path
  = match data !! path with
    | None => Returns ("", Some "mount not found")
    | Some (VMap mountData) =>
        match mountData !! "type" with
        | Some (VString t) => Returns (t, None)
        | _ => Panics "interface conversion: not string"
        end
    | Some _ => Returns ("", Some "failed to work with data from sys/auth")
    end.
Proof.
  intros Hp. destruct (entries_of_map data entries Hp) as (Hd & Hin).
  destruct (data !! path) as [v|] eqn:Hv.
  - rewrite (GetAuthType_select_present entries path v Hd)
      by (apply Hin; exact Hv).
    destruct v; reflexivity.
  - apply GetAuthType_select_absent. intros Hk.
    apply list_elem_of_fmap in Hk. destruct Hk as ([k v] & -> & Hk).
    apply Hin in Hk. cbn [fst] in Hv. congruence.
Qed.

Lemma GetAuthType_any_order_witness :
  GetAuthType_select (reverse (map_to_list Sample.mounts)) "ldap/"
    = Returns ("ldap", None)
  /\ GetAuthType_select (reverse (map_to_list Sample.broken_mounts)) "zz/"
     = Returns ("", Some "failed to work with data from sys/auth")
  /\ GetAuthType_select (reverse (map_to_list Sample.mounts)) "zz/"
     = Returns ("", Some "mount not found").
Proof.
  rewrite (GetAuthType_any_order Sample.mounts _ "ldap/"
             (reverse_Permutation _)).
  rewrite (GetAuthType_any_order Sample.broken_mounts _ "zz/"
             (reverse_Permutation _)).
  rewrite (GetAuthType_any_order Sample.mounts _ "zz/"
             (reverse_Permutation _)).
  vm_compute. auto.
Defined.

(* --------------------------------------------------------------------- *)
(** *** [GetAuthMountsByType]                                            *)

Lemma GetAuthMountsByType_collect_typed authType prefixMatch entries :
  forall authMounts,
  (forall k v, (k, v) ∈ entries ->
     exists mountData,
       v = VMap mountData
       /\ (Strings.HasPrefix k prefixMatch = true ->
           exists t, mountData !! "type" = Some (VString t))) ->
  exists found,
    GetAuthMountsByType_collect entries authType prefixMatch authMounts
      = Returns (authMounts ++ found, None)
    /\ found `sublist_of` entries.*1
    /\ forall m, m ∈ found <->
         exists mountData,
           (m, VMap mountData) ∈ entries
           /\ Strings.HasPrefix m prefixMatch = true
           /\ mountData !! "type" = Some (VString authType).
Proof.
  induction entries as [|[k v] entries IH]; intros authMounts Hty.
  - exists []. split; [cbn; rewrite app_nil_r; reflexivity|].
    split; [constructor|].
    intros m. split; [intros H; inversion H|].
    intros (md & H & _). inversion H.
  - destruct (Hty k v) as (md & -> & Hmd); [left|].
    assert (Hty' : forall k' v', (k', v') ∈ entries ->
              exists mountData,
                v' = VMap mountData
                /\ (Strings.HasPrefix k' prefixMatch = true ->
                    exists t, mountData !! "type" = Some (VString t))).
    { intros k' v' Hin. apply Hty. right. exact Hin. }
    cbn [GetAuthMountsByType_collect]. rewrite fmap_cons. cbn [fst].
    destruct (Strings.HasPrefix k prefixMatch) eqn:Hpre; cbn [negb].
    + destruct (Hmd eq_refl) as (t & Ht). rewrite Ht.
      destruct (String.eqb_spec t authType) as [->|Hne].
      * destruct (IH (authMounts ++ [k]) Hty') as (found & -> & Hsub & Hin).
        exists (k :: found). rewrite <- app_assoc. split; [reflexivity|].
        split; [apply sublist_skip; exact Hsub|].
        intros m. rewrite elem_of_cons, Hin. split.
        -- intros [->|(md' & H1 & H2)].
           ++ exists md. split; [left|]. auto.
           ++ exists md'. split; [right; exact H1|exact H2].
        -- intros (md' & H1 & H2). apply elem_of_cons in H1.
           destruct H1 as [Heq|H1]; [left; congruence|].
           right. exists md'. auto.
      * destruct (IH authMounts Hty') as (found & -> & Hsub & Hin).
        exists found. split; [reflexivity|].
        split; [apply sublist_cons; exact Hsub|].
        intros m. rewrite Hin. split.
        -- intros (md' & H1 & H2). exists md'. split; [right; exact H1|exact H2].
        -- intros (md' & H1 & H2 & H3). apply elem_of_cons in H1.
           destruct H1 as [Heq|H1]; [|exists md'; auto].
           injection Heq as -> ->. congruence.
    + destruct (IH authMounts Hty') as (found & -> & Hsub & Hin).
      exists found. split; [reflexivity|].
      split; [apply sublist_cons; exact Hsub|].
      intros m. rewrite Hin. split.
      * intros (md' & H1 & H2). exists md'. split; [right; exact H1|exact H2].
      * intros (md' & H1 & H2 & H3). apply elem_of_cons in H1.
        destruct H1 as [Heq|H1]; [|exists md'; auto].
        injection Heq as -> ->. congruence.
Qed.

(** X18.  When every mount of sys/auth is an object and those under the
    prefix carry their type, [GetAuthMountsByType] returns, in whatever
    order the range statement goes, exactly the mounts of the type asked
    for that start with the prefix, each of them once. *)
Theorem GetAuthMountsByType_selects
    (data : gmap string Value) (entries : list (string * Value))
    (authType prefixMatch : string) :
  entries ≡ₚ map_to_list data ->
  mounts_typed data prefixMatch ->
  exists authMounts,
    GetAuthMountsByType_collect entries authType prefixMatch []
      = Returns (authMounts, None)
    /\ NoDup authMounts
    /\ forall mount,
         mount ∈ authMounts
         <-> mount_matches data authType prefixMatch mount.
Proof.
  intros Hp Hty. destruct (entries_of_map data entries Hp) as (Hd & Hin).
  destruct (GetAuthMountsByType_collect_typed authType prefixMatch entries [])
    as (found & Hrun & Hsub & Hfound).
  { intros k v Hkv. apply Hin in Hkv. exact (Hty k v Hkv). }
  exists found. split; [exact Hrun|].
  split; [eapply sublist_NoDup; eassumption|].
  intros mount. rewrite Hfound. unfold mount_matches. split.
  - intros (md & H1 & H2 & H3). split; [exact H2|].
    exists md. split; [apply Hin; exact H1|exact H3].
  - intros (H2 & md & H1 & H3). exists md.
    split; [apply Hin; exact H1|]. auto.
Qed.

Lemma Sample_mounts_typed prefixMatch :
  mounts_typed Sample.mounts prefixMatch.
Proof.
  intros mount v Hv. unfold Sample.mounts in Hv.
  repeat (apply lookup_insert_Some in Hv;
          destruct Hv as [(_ & <-)|(_ & Hv)]; [eexists; split; [reflexivity|];
            intros _; eexists; reflexivity|]).
  apply lookup_singleton_Some in Hv. destruct Hv as (_ & <-).
  eexists; split; [reflexivity|]. intros _. eexists. reflexivity.
Qed.

Lemma GetAuthMountsByType_selects_witness :
  exists authMounts,
    GetAuthMountsByType_collect (reverse (map_to_list Sample.mounts))
      "kubernetes" "k8s/" [] = Returns (authMounts, None)
    /\ NoDup authMounts
    /\ forall mount,
         mount ∈ authMounts
         <-> mount_matches Sample.mounts "kubernetes" "k8s/" mount.
Proof.
  exact (GetAuthMountsByType_selects Sample.mounts
           (reverse (map_to_list Sample.mounts)) "kubernetes" "k8s/"
           (reverse_Permutation _) (Sample_mounts_typed "k8s/")).
Defined.

Lemma GetAuthMountsByType_collect_broken authType prefixMatch entries k v :
  (k, v) ∈ entries -> not_an_object v ->
  forall authMounts found,
    GetAuthMountsByType_collect entries authType prefixMatch authMounts
    <> Returns (found, None).
Proof.
  intros Hin Hv.
  induction entries as [|[k' v'] entries IH]; intros authMounts found;
    [inversion Hin|].
  cbn [GetAuthMountsByType_collect].
  apply elem_of_cons in Hin. destruct Hin as [Heq|Hin].
  - injection Heq as <- <-. destruct v; try discriminate. destruct Hv.
  - specialize (IH Hin).
    destruct v'; try discriminate.
    destruct (negb _); [apply IH|].
    destruct (_ !! "type") as [[]|]; try discriminate.
    destruct (_ =? _); apply IH.
Qed.

(** X19.  One mount of sys/auth that is no object makes
    [GetAuthMountsByType] fail whatever is asked for, also when that
    mount does not start with the prefix: the type assertion on the
    entry comes before the prefix test.  In no order of the range
    statement does the call return mounts and a [nil] error. *)
Theorem GetAuthMountsByType_needs_objects
    (data : gmap string Value) (entries : list (string * Value))
    (authType prefixMatch mount : string) (v : Value)
    (authMounts : list string) :
  entries ≡ₚ map_to_list data ->
  data !! mount = Some v -> not_an_object v ->
  GetAuthMountsByType_collect entries authType prefixMatch []
  <> Returns (authMounts, None).
Proof.
  intros Hp Hv Hno. destruct (entries_of_map data entries Hp) as (_ & Hin).
  apply (GetAuthMountsByType_collect_broken authType prefixMatch entries
           mount v); [apply Hin; exact Hv|exact Hno].
Qed.

Lemma GetAuthMountsByType_needs_objects_witness :
  GetAuthMountsByType_collect (map_to_list Sample.broken_mounts)
    "kubernetes" "k8s/" []
  <> Returns (["k8s/a/"; "k8s/b/"], None).
Proof.
  apply (GetAuthMountsByType_needs_objects Sample.broken_mounts
           (map_to_list Sample.broken_mounts) "kubernetes" "k8s/" "zz/"
           (VString "?")); [reflexivity|reflexivity|exact I].
Defined.

(* --------------------------------------------------------------------- *)
(** *** [GetKV2VersionList]                                              *)

Lemma GetKV2VersionList_collect_numbered d s entries :
  forall returnVersions,
  (forall k v, (k, v) ∈ entries ->
     exists data,
       v = VMap data
       /\ (kept d s data = true -> exists n, Go.ParseInt64 k = Some n)) ->
  exists found,
    GetKV2VersionList_collect entries d s returnVersions
      = Returns (returnVersions ++ found, None)
    /\ forall n, n ∈ found <->
         exists k data,
           (k, VMap data) ∈ entries
           /\ kept d s data = true
           /\ Go.ParseInt64 k = Some n.
Proof.
  induction entries as [|[k v] entries IH]; intros returnVersions Hwf.
  - exists []. split; [cbn; rewrite app_nil_r; reflexivity|].
    intros n. split; [intros H; inversion H|].
    intros (k & data & H & _). inversion H.
  - destruct (Hwf k v) as (data & -> & Hdata); [left|].
    assert (Hwf' : forall k' v', (k', v') ∈ entries ->
              exists data',
                v' = VMap data'
                /\ (kept d s data' = true ->
                    exists n, Go.ParseInt64 k' = Some n)).
    { intros k' v' Hin. apply Hwf. right. exact Hin. }
    cbn [GetKV2VersionList_collect]. unfold kept in Hdata.
    assert (Hskip : kept d s data = false ->
              exists found,
                GetKV2VersionList_collect entries d s returnVersions
                  = Returns (returnVersions ++ found, None)
                /\ forall n, n ∈ found <->
                     exists k0 data0,
                       (k0, VMap data0) ∈ (k, VMap data) :: entries
                       /\ kept d s data0 = true
                       /\ Go.ParseInt64 k0 = Some n).
    { intros Hk. destruct (IH returnVersions Hwf') as (found & Hrun & Hin).
      exists found. split; [exact Hrun|].
      intros n. rewrite Hin. split.
      - intros (k0 & data0 & H1 & H2). exists k0, data0.
        split; [right; exact H1|exact H2].
      - intros (k0 & data0 & H1 & H2 & H3). apply elem_of_cons in H1.
        destruct H1 as [Heq|H1]; [|exists k0, data0; auto].
        injection Heq as -> ->. congruence. }
    destruct (deleted data && negb d) eqn:Hdel.
    { apply Hskip. unfold kept. rewrite Hdel. reflexivity. }
    destruct (destroyed data && negb s) eqn:Hdes.
    { apply Hskip. unfold kept. rewrite Hdel, Hdes. reflexivity. }
    destruct (Hdata eq_refl) as (version & Hversion). rewrite Hversion.
    destruct (IH (returnVersions ++ [version]) Hwf') as (found & -> & Hin).
    exists (version :: found). rewrite <- app_assoc. split; [reflexivity|].
    intros n. rewrite elem_of_cons, Hin. split.
    + intros [->|(k0 & data0 & H1 & H2)].
      * exists k, data. split; [left|].
        unfold kept. rewrite Hdel, Hdes. auto.
      * exists k0, data0. split; [right; exact H1|exact H2].
    + intros (k0 & data0 & H1 & H2 & H3). apply elem_of_cons in H1.
      destruct H1 as [Heq|H1]; [|right; exists k0, data0; auto].
      injection Heq as -> ->. left. congruence.
Qed.

Lemma GetKV2VersionList_collect_broken d s entries k v :
  (k, v) ∈ entries -> not_an_object v ->
  forall returnVersions found,
    GetKV2VersionList_collect entries d s returnVersions
    <> Returns (found, None).
Proof.
  intros Hin Hv.
  induction entries as [|[k' v'] entries IH]; intros returnVersions found;
    [inversion Hin|].
  cbn [GetKV2VersionList_collect].
  apply elem_of_cons in Hin. destruct Hin as [Heq|Hin].
  - injection Heq as <- <-. destruct v; try discriminate. destruct Hv.
  - specialize (IH Hin).
    destruct v'; try discriminate.
    destruct (_ && _); [apply IH|].
    destruct (_ && _); [apply IH|].
    destruct (Go.ParseInt64 k'); [apply IH|discriminate].
Qed.

Lemma sort_reverse_sorted l : StronglySorted Z.ge (sort_reverse l).
Proof.
  unfold sort_reverse.
  assert (Transitive Z.ge) by (intros x y z; lia).
  assert (Total Z.ge) by (intros x y; lia).
  apply (StronglySorted_merge_sort Z.ge).
Qed.

Lemma sort_reverse_elem_of l n : n ∈ sort_reverse l <-> n ∈ l.
Proof. unfold sort_reverse. rewrite merge_sort_Permutation. reflexivity. Qed.

(** A read that finds the metadata of the secret hands its versions to the
    loop. *)
Lemma GetKV2VersionList_found (E : Env)
    (range_ : gmap string Value -> list (string * Value))
    fuel path (autoFixPath : bool) d s w (secret : Secret) versions :
  answer E w
    (ReqRead (if autoFixPath then GetKV2ListPath path else path))
    = (Some secret, None) ->
  Data secret !! "versions" = Some (VMap versions) ->
  fst (GetKV2VersionList E range_ (S (S fuel)) path autoFixPath d s w)
  = match GetKV2VersionList_collect (range_ versions) d s [] with
    | Returns (returnVersions, None) =>
        Returns (sort_reverse returnVersions, None)
    | Returns (returnVersions, Some e) => Returns (returnVersions, Some e)
    | Panics msg => Panics msg
    | OutOfFuel => OutOfFuel
    end.
Proof.
  intros Ha Hv.
  set (path' := if autoFixPath then GetKV2ListPath path else path) in *.
  assert (HRead : Read E (S fuel) path' w
                  = (Returns (Some secret, None),
                     sent E InRead (ReqRead path') w)).
  { rewrite Read_retrying.
    rewrite retrying_succeeds by (rewrite Ha; reflexivity).
    rewrite Ha. reflexivity. }
  cbn [GetKV2VersionList]. cbv zeta. fold path'.
  rewrite run_bind, HRead. cbv beta iota. rewrite Hv.
  destruct (GetKV2VersionList_collect _ _ _ _) as [[vs [e|]]| |];
    reflexivity.
Qed.

(** X20.  When the metadata of a secret is read and every version in it
    is an object whose key is a number if it passes the filters,
    [GetKV2VersionList] returns the numbers of the versions that pass
    the filters, from the largest to the smallest, in whatever order the
    range statement goes over them. *)
Theorem GetKV2VersionList_lists_kept_versions
    (E : Env) (range_ : gmap string Value -> list (string * Value))
    (fuel : nat) (path : string)
    (autoFixPath includeDeleted includeDestroyed : bool)
    (w : World) (secret : Secret) (versions : gmap string Value) :
  (forall m, range_ m ≡ₚ map_to_list m) ->
  answer E w
    (ReqRead (if autoFixPath then GetKV2ListPath path else path))
    = (Some secret, None) ->
  Data secret !! "versions" = Some (VMap versions) ->
  versions_numbered includeDeleted includeDestroyed versions ->
  exists returnVersions,
    fst (GetKV2VersionList E range_ (S (S fuel)) path autoFixPath
           includeDeleted includeDestroyed w)
      = Returns (returnVersions, None)
    /\ StronglySorted Z.ge returnVersions
    /\ forall n,
         n ∈ returnVersions
         <-> listed includeDeleted includeDestroyed versions n.
Proof.
  intros Hr Ha Hv Hwf.
  destruct (entries_of_map versions (range_ versions) (Hr versions))
    as (_ & Hin).
  destruct (GetKV2VersionList_collect_numbered includeDeleted
              includeDestroyed (range_ versions) [])
    as (found & Hrun & Hfound).
  { intros k v Hkv. apply Hin in Hkv. exact (Hwf k v Hkv). }
  exists (sort_reverse found).
  split.
  { rewrite (GetKV2VersionList_found E range_ fuel path autoFixPath
               includeDeleted includeDestroyed w secret versions Ha Hv).
    rewrite Hrun. reflexivity. }
  split; [apply sort_reverse_sorted|].
  intros n. rewrite sort_reverse_elem_of, Hfound. unfold listed. split.
  - intros (k & data & H1 & H2). exists k, data.
    split; [apply Hin; exact H1|exact H2].
  - intros (k & data & H1 & H2). exists k, data.
    split; [apply Hin; exact H1|exact H2].
Qed.

Lemma Sample_versions_numbered d s :
  versions_numbered d s Sample.versions.
Proof.
  intros k v Hv. unfold Sample.versions in Hv.
  repeat (apply lookup_insert_Some in Hv;
          destruct Hv as [(<- & <-)|(_ & Hv)]; [eexists; split; [reflexivity|];
            intros _; eexists; reflexivity|]).
  apply lookup_singleton_Some in Hv. destruct Hv as (<- & <-).
  eexists; split; [reflexivity|]. intros _. eexists. reflexivity.
Qed.

Lemma GetKV2VersionList_lists_kept_versions_witness :
  exists returnVersions,
    fst (GetKV2VersionList
           (Scenario.env (Scenario.scripted [Sample.metadata]) [] true true)
           (fun m => reverse (map_to_list m)) 2 "kv/data/app" true false false
           (Scenario.world emptyCache "t-0" ∅))
      = Returns (returnVersions, None)
    /\ StronglySorted Z.ge returnVersions
    /\ forall n, n ∈ returnVersions <-> listed false false Sample.versions n.
Proof.
  apply (GetKV2VersionList_lists_kept_versions
           (Scenario.env (Scenario.scripted [Sample.metadata]) [] true true)
           (fun m => reverse (map_to_list m)) 0 "kv/data/app" true false false
           (Scenario.world emptyCache "t-0" ∅)
           {| Data := {[ "versions" := VMap Sample.versions ]}; Auth := None |}
           Sample.versions).
  - intros m. apply reverse_Permutation.
  - reflexivity.
  - reflexivity.
  - apply Sample_versions_numbered.
Defined.

Example GetKV2VersionList_sample :
  fst (GetKV2VersionList
         (Scenario.env (Scenario.scripted [Sample.metadata]) [] true true)
         (fun m => reverse (map_to_list m)) 2 "kv/data/app" true false false
         (Scenario.world emptyCache "t-0" ∅))
  = Returns ([10; 3], None).
Proof. vm_compute. reflexivity. Qed.

(** X21.  One version that is no object keeps [GetKV2VersionList] from
    listing anything: in no order of the range statement does the call
    return versions and a [nil] error. *)
Theorem GetKV2VersionList_needs_objects
    (E : Env) (range_ : gmap string Value -> list (string * Value))
    (fuel : nat) (path : string)
    (autoFixPath includeDeleted includeDestroyed : bool)
    (w : World) (secret : Secret) (versions : gmap string Value)
    (k : string) (v : Value) (returnVersions : list Z) :
  (forall m, range_ m ≡ₚ map_to_list m) ->
  answer E w
    (ReqRead (if autoFixPath then GetKV2ListPath path else path))
    = (Some secret, None) ->
  Data secret !! "versions" = Some (VMap versions) ->
  versions !! k = Some v -> not_an_object v ->
  fst (GetKV2VersionList E range_ (S (S fuel)) path autoFixPath
         includeDeleted includeDestroyed w)
  <> Returns (returnVersions, None).
Proof.
  intros Hr Ha Hv Hk Hno.
  destruct (entries_of_map versions (range_ versions) (Hr versions))
    as (_ & Hin).
  rewrite (GetKV2VersionList_found E range_ fuel path autoFixPath
             includeDeleted includeDestroyed w secret versions Ha Hv).
  pose proof (GetKV2VersionList_collect_broken includeDeleted includeDestroyed
                (range_ versions) k v (proj2 (Hin k v) Hk) Hno []) as Hb.
  destruct (GetKV2VersionList_collect _ _ _ _) as [[vs [e|]]| |];
    try discriminate.
  exfalso. exact (Hb vs eq_refl).
Qed.

Lemma GetKV2VersionList_needs_objects_witness :
  fst (GetKV2VersionList
         (Scenario.env
            (Scenario.scripted
               [(Some {| Data := {[ "versions" := VMap Sample.broken_versions ]};
                         Auth := None |}, None)]) [] true true)
         map_to_list 2 "kv/metadata/app" false true true
         (Scenario.world emptyCache "t-0" ∅))
  <> Returns ([10; 3; 2; 1], None).
Proof.
  apply (GetKV2VersionList_needs_objects
           (Scenario.env
              (Scenario.scripted
                 [(Some {| Data := {[ "versions" := VMap Sample.broken_versions ]};
                           Auth := None |}, None)]) [] true true)
           map_to_list 0 "kv/metadata/app" false true true
           (Scenario.world emptyCache "t-0" ∅)
           {| Data := {[ "versions" := VMap Sample.broken_versions ]};
              Auth := None |}
           Sample.broken_versions "4" VNil).
  - reflexivity.
  - reflexivity.
  - reflexivity.
  - reflexivity.
  - exact I.
Defined.

(* --------------------------------------------------------------------- *)
(** *** [PutKV2] and [GetKV]                                             *)

(** X22.  [PutKV2] sends one write whose body holds the data under
    ["data"], and that is the entry [GetKV] unwraps when it is asked for
    the data only: reading back a secret whose data is the body
    [PutKV2] wrote gives the data [PutKV2] was given. *)
Theorem PutKV2_GetKV_round_trip
    (E : Env) (fuel : nat) (path : string) (data : gmap string Value)
    (w : World) :
  snd (answer E w (ReqWrite path {[ "data" := VMap data ]})) = None ->
  exists body,
    events (PutKV2 E (S fuel) path data) w
      = [EvRequest InWrite (clientToken w) (ReqWrite path body)
           (answer E w (ReqWrite path body))]
    /\ forall (E' : Env) (fuel' : nat) (w' : World) (secret : Secret),
         answer E' w' (ReqRead path) = (Some secret, None) ->
         Data secret = body ->
         fst (GetKV E' (S (S fuel')) path true w') = Returns (data, None).
Proof.
  intros Hw. exists {[ "data" := VMap data ]}. split.
  - apply events_eq. unfold PutKV2. rewrite Write_retrying.
    rewrite retrying_succeeds by exact Hw. reflexivity.
  - intros E' fuel' w' secret Ha Hd.
    assert (HRead : Read E' (S fuel') path w'
                    = (Returns (Some secret, None),
                       sent E' InRead (ReqRead path) w')).
    { rewrite Read_retrying.
      rewrite retrying_succeeds by (rewrite Ha; reflexivity).
      rewrite Ha. reflexivity. }
    cbn [GetKV]. rewrite run_bind, HRead. cbv beta iota.
    rewrite Hd, lookup_singleton. reflexivity.
Qed.

Lemma PutKV2_GetKV_round_trip_witness :
  exists body,
    events (PutKV2 (Scenario.env (Scenario.scripted [(None, None)]) []
                      true true)
              1 "kv/data/app" {[ "k" := VString "v" ]})
      (Scenario.world emptyCache "t-0" ∅)
      = [EvRequest InWrite "t-0" (ReqWrite "kv/data/app" body) (None, None)]
    /\ forall (E' : Env) (fuel' : nat) (w' : World) (secret : Secret),
         answer E' w' (ReqRead "kv/data/app") = (Some secret, None) ->
         Data secret = body ->
         fst (GetKV E' (S (S fuel')) "kv/data/app" true w')
         = Returns ({[ "k" := VString "v" ]}, None).
Proof.
  exact (PutKV2_GetKV_round_trip
           (Scenario.env (Scenario.scripted [(None, None)]) [] true true)
           0 "kv/data/app" {[ "k" := VString "v" ]}
           (Scenario.world emptyCache "t-0" ∅) eq_refl).
Defined.

(* ===================================================================== *)
(** ** One retry                                                         *)
(* ===================================================================== *)

Lemma logins_op_request by_ tok req resp :
  auth_caller by_ = false ->
  is_login (EvRequest by_ tok req resp) = false.
Proof. destruct by_; cbn; congruence. Qed.

Lemma request_by_self by_ tok req resp :
  request_by by_ (EvRequest by_ tok req resp) = true.
Proof. cbn. apply bool_decide_eq_true. reflexivity. Qed.

Lemma logins_app d1 d2 : logins (d1 ++ d2) = (logins d1 + logins d2)%nat.
Proof. apply count_app. Qed.

Lemma calls_app c d1 d2 : calls c (d1 ++ d2) = (calls c d1 + calls c d2)%nat.
Proof. apply count_app. Qed.

(* --------------------------------------------------------------------- *)
(** *** Nothing in the dispatcher runs out of fuel                       *)

Section Ends.

Lemma ends_ret {A} (a : A) : ends (mret a).
Proof. intros w. discriminate. Qed.

Lemma ends_panic {A} msg : ends (panic (A := A) msg).
Proof. intros w. discriminate. Qed.

Lemma ends_bind {A B} (m : M A) (f : A -> M B) :
  ends m -> (forall a, ends (f a)) -> ends (m ≫= f).
Proof.
  intros Hm Hf w. unfold mbind, M_bind. specialize (Hm w).
  destruct (m w) as [[a| |] w1]; cbn [fst] in *;
    [apply Hf|discriminate|congruence].
Qed.

Lemma ends_step {A} (m : M A) :
  (forall w, exists a, fst (m w) = Returns a) -> ends m.
Proof. intros H w. destruct (H w) as (a & ->). discriminate. Qed.

End Ends.

Ltac ends_step :=
  cbv beta;
  lazymatch goal with
  | |- ends (mbind _ _) => apply ends_bind; [|intros ?]
  | |- ends (mret _) => apply ends_ret
  | |- ends (panic _) => apply ends_panic
  | |- ends (assign _) => apply ends_step; intros; eexists; reflexivity
  | |- ends cache => apply ends_step; intros; eexists; reflexivity
  | |- ends (time_Now_Unix _) => apply ends_step; intros; eexists; reflexivity
  | |- ends (Logical _ _ _) => apply ends_step; intros; eexists; reflexivity
  | |- ends (Client_SetToken _) =>
      apply ends_step; intros; eexists; reflexivity
  | |- ends (os_ReadFile _) => apply ends_step; intros; eexists; reflexivity
  | |- ends (os_Create _ _) =>
      apply ends_step; intros ?; unfold os_Create;
      destruct (creatable _ _); eexists; reflexivity
  | |- ends (WriteString _ _ _) =>
      apply ends_step; intros ?; unfold WriteString;
      destruct (writable _ _); eexists; reflexivity
  | |- ends (match ?x with _ => _ end) => destruct x
  end.

Lemma checkAuthNeeded_ends (E : Env) : ends (checkAuthNeeded E).
Proof.
  unfold checkAuthNeeded, InitApprole, ApproleLogin, KubernetesLogin,
    LDAPLogin, tokenRefreshNeeded, GetTokenTTL.
  repeat ends_step.
Qed.

(* --------------------------------------------------------------------- *)
(** *** The two guards keep the dispatcher quiet                         *)

Lemma guarded_quiet (E : Env) (w : World) : guarded E w -> quiet E w.
Proof.
  intros Hg. unfold quiet.
  destruct (Z.lt_ge_cases (elapsed E w) 5) as [Hc|Hc].
  - pose proof (checkAuthNeeded_cooldown E w Hc) as Hrun.
    rewrite (events_eq (checkAuthNeeded E) w [EvNow (Unix E (ticks w))])
      by (rewrite Hrun; reflexivity).
    rewrite Hrun. split; [discriminate|reflexivity].
  - destruct Hg as [Hg|Hg]; [lia|].
    pose proof (checkAuthNeeded_past_cooldown E w Hc) as Hrun.
    unfold stale in Hg. unfold answer in Hrun at 1.
    cbn [requests clientToken tick snd time_Now_Unix log] in Hrun.
    assert (Hev : forall o,
              checkAuthNeeded E w
              = (o, sent E InGetTokenTTL lookup_self (tick E w)) ->
              o <> Returns None ->
              fst (checkAuthNeeded E w) <> Returns None
              /\ logins (events (checkAuthNeeded E) w) = O).
    { intros o Ho Hne. rewrite Ho. split; [exact Hne|].
      rewrite (events_eq (checkAuthNeeded E) w
                 [EvNow (Unix E (ticks w));
                  EvRequest InGetTokenTTL (clientToken w) lookup_self
                    (answer E w lookup_self)]); [reflexivity|].
      rewrite Ho. cbn. rewrite <- app_assoc. reflexivity. }
    destruct (verdict 5 _) as [[|]| |] eqn:Hv.
    + destruct (Hg eq_refl).
    + apply (Hev _ Hrun). discriminate.
    + apply (Hev _ Hrun). discriminate.
    + apply (Hev _ Hrun). discriminate.
Qed.

(* --------------------------------------------------------------------- *)
(** *** A recovery by login is one login request                         *)

Lemma logins_bind_first {A B} (m : M A) (f : A -> M B) w :
  emits (fun _ => True) m -> (forall a, emits (fun _ => True) (f a)) ->
  (logins (events m w) <= logins (events (m ≫= f) w))%nat.
Proof.
  intros Hm Hf. destruct (Hm w) as (d & Hd & _).
  rewrite (events_eq m w d Hd).
  assert (Hx : exists d', events (m ≫= f) w = d ++ d').
  { unfold mbind, M_bind.
    destruct (m w) as [[a| |] w1] eqn:Hrun; cbn [snd] in Hd.
    - destruct (Hf a w1) as (d' & Hd' & _). exists d'.
      apply events_eq. unfold mbind, M_bind. rewrite Hrun, Hd', Hd.
      rewrite app_assoc. reflexivity.
    - exists []. apply events_eq. unfold mbind, M_bind. rewrite Hrun.
      cbn [snd]. rewrite Hd, app_nil_r. reflexivity.
    - exists []. apply events_eq. unfold mbind, M_bind. rewrite Hrun.
      cbn [snd]. rewrite Hd, app_nil_r. reflexivity. }
  destruct Hx as (d' & ->). rewrite logins_app. lia.
Qed.

Lemma logins_after {A B} (m : M A) (k : M B) w w1 d1 :
  trace w1 = trace w ++ d1 ->
  snd (m w) = snd (k w1) ->
  (exists d, trace (snd (k w1)) = trace w1 ++ d) ->
  (logins (events k w1) <= logins (events m w))%nat.
Proof.
  intros H1 Hm Hd. rewrite (events_after m k w w1 d1 H1 Hm Hd).
  rewrite logins_app. lia.
Qed.

Lemma emits_any {A} P (m : M A) : emits P m -> emits (fun _ => True) m.
Proof.
  intros H w. destruct (H w) as (d & Hd & _). exists d. split; [exact Hd|].
  apply Forall_forall. auto.
Qed.

Section OneLoginRecovery.
Variable E : Env.

(** A login flow sends its login request, whatever the answer. *)
Lemma flow_logs_in by_ req c w (m : M (string * option error)) :
  login_caller by_ = true ->
  m w = exchange E by_ req (with_cache c w) ->
  (1 <= logins (events m w))%nat.
Proof.
  intros Hl Hm. destruct (events_of_exchange E by_ req c w m Hm) as (rest & ->).
  unfold logins. cbn [count is_login]. rewrite Hl. lia.
Qed.

Lemma InitApprole_fresh_logs_in rf sf tf p w r s :
  files w !! rf = Some r -> files w !! sf = Some s ->
  nothing_cached E tf w ->
  (1 <= logins (events (InitApprole E rf sf tf p) w))%nat.
Proof.
  intros Hr Hs Hn.
  pose proof (InitApprole_fresh E rf sf tf p w r s Hr Hs Hn) as Hrun.
  rewrite run_cache_bind in Hrun.
  set (wc := init_checked E rf sf tf p w) in *.
  assert (Hpre : exists pre, trace wc = trace w ++ pre).
  { unfold wc, init_checked, init_loaded, with_cache.
    destruct (_ =? ""); cbn; rewrite <- ?app_assoc; eexists; reflexivity. }
  destruct Hpre as (pre & Hpre).
  match type of Hrun with
  | _ = (ApproleLogin E ?r' ?s' ?p' ≫= ?k) wc =>
      assert (Hk : forall a, emits (fun _ => True) (k a))
        by (intros [tok [e|]]; repeat emits_step);
      pose proof (emits_any auth_event _ (ApproleLogin_auth E r' s' p')) as Hl;
      pose proof (flow_logs_in InApproleLogin _ _ wc (ApproleLogin E r' s' p')
                    eq_refl (ApproleLogin_exchange E r' s' p' wc)) as Hone;
      pose proof (logins_bind_first (ApproleLogin E r' s' p') k wc Hl Hk)
        as Hbody;
      pose proof (emits_bind _ _ _ Hl Hk wc) as (d & Hd & _)
  end.
  eapply Nat.le_trans; [exact Hone|].
  eapply Nat.le_trans; [exact Hbody|].
  apply (logins_after _ _ w wc pre Hpre).
  - rewrite Hrun. reflexivity.
  - exists d. exact Hd.
Qed.

Lemma recovery_logs_in w w2 :
  checkAuthNeeded E w = (Returns None, w2) ->
  recovers_by_login E w ->
  logins (events (checkAuthNeeded E) w) = 1%nat.
Proof.
  intros Hcheck Hrec.
  assert (Hc : 5 <= elapsed E w).
  { destruct (Z.lt_ge_cases (elapsed E w) 5) as [Hc|Hc]; [|exact Hc].
    rewrite checkAuthNeeded_cooldown in Hcheck by exact Hc. discriminate. }
  assert (Hs : stale E (requests w) (clientToken w)).
  { pose proof (guarded_quiet E w) as Hq. unfold guarded, quiet in Hq.
    destruct (verdict 5 (backend E (requests w) (clientToken w) lookup_self))
      as [[|]| |] eqn:Hv; [exact Hv| | |];
      (destruct Hq as [Hq _];
       [right; unfold stale; rewrite Hv; discriminate
       |rewrite Hcheck in Hq; destruct (Hq eq_refl)]). }
  destruct (checkAuthNeeded_spends_one E w) as (d & Hd & Hle).
  rewrite (events_eq _ _ _ Hd).
  assert (Hge : (1 <= logins (events (checkAuthNeeded E) w))%nat);
    [|rewrite (events_eq _ _ _ Hd) in Hge; lia].
  clear d Hd Hle.
  pose proof (checkAuthNeeded_past_cooldown E w Hc) as Hrun.
  unfold stale in Hs. unfold answer in Hrun at 1.
  cbn [requests clientToken tick snd time_Now_Unix log] in Hrun.
  rewrite Hs in Hrun. cbv zeta in Hrun.
  cbn [authCache sent snd Logical log] in Hrun.
  set (w1 := sent E InGetTokenTTL lookup_self (tick E w)) in *.
  assert (Hflow : forall (flow : M (string * option error)),
            checkAuthNeeded E w = ('(_, err) ← flow; mret err) w1 ->
            emits auth_event flow ->
            (1 <= logins (events flow w1))%nat ->
            (1 <= logins (events (checkAuthNeeded E) w))%nat).
  { intros flow Hf He Hone.
    rewrite (dispatched_events E w ('(_, err) ← flow; mret err)
               (events flow w1) Hf).
    - exact Hone.
    - apply events_dropping_value.
    - apply emits_bind; [exact He|]. intros [? ?]. apply emits_ret. }
  assert (Hnofiles :
            lastAuthMethod (authCache w) = "approle" ->
            roleIDFile (approle (authCache w)) = ""
            \/ secretIDFile (approle (authCache w)) = "" ->
            (1 <= logins (events (checkAuthNeeded E) w))%nat).
  { intros Hm Hf.
    apply (Hflow _ (checkAuthNeeded_approle_without_files E w Hm Hf Hc Hs)
             (ApproleLogin_auth E _ _ _)).
    apply (flow_logs_in InApproleLogin _ _ w1 _ eq_refl
             (ApproleLogin_exchange E _ _ _ w1)). }
  destruct Hrec as [Hm|[Hm|(Hm & Hrec)]].
  - rewrite Hm in Hrun.
    cbn [String.eqb Ascii.eqb Bool.eqb] in Hrun.
    apply (Hflow _ Hrun (KubernetesLogin_auth E _ _ _)).
    apply (flow_logs_in InKubernetesLogin _ _ w1 _ eq_refl
             (KubernetesLogin_exchange E _ _ _ w1)).
  - rewrite Hm in Hrun.
    cbn [String.eqb Ascii.eqb Bool.eqb] in Hrun.
    apply (Hflow _ Hrun (LDAPLogin_auth E _ _ _)).
    apply (flow_logs_in InLDAPLogin _ _ w1 _ eq_refl
             (LDAPLogin_exchange E _ _ _ w1)).
  - destruct (String.eqb_spec (roleIDFile (approle (authCache w))) "")
      as [Hrf|Hrf]; [apply Hnofiles; auto|].
    destruct (String.eqb_spec (secretIDFile (approle (authCache w))) "")
      as [Hsf|Hsf]; [apply Hnofiles; auto|].
    destruct Hrec as [Hrec|[Hrec|Hn]]; [contradiction|contradiction|].
    clear Hrun.
    pose proof (checkAuthNeeded_reruns_InitApprole E
                  (roleIDFile (approle (authCache w)))
                  (secretIDFile (approle (authCache w)))
                  (tokenFile (approle (authCache w))) w
                  (conj Hm (conj eq_refl (conj eq_refl eq_refl)))
                  Hrf Hsf Hc Hs) as Hrun.
    fold w1 in Hrun.
    apply (Hflow _ Hrun (InitApprole_auth E _ _ _ _)).
    destruct (files w1 !! roleIDFile (approle (authCache w))) as [r|] eqn:Hr.
    2:{ rewrite Hrun in Hcheck. unfold mbind, M_bind in Hcheck.
        rewrite InitApprole_no_role_id in Hcheck by exact Hr. discriminate. }
    destruct (files w1 !! secretIDFile (approle (authCache w))) as [s|] eqn:Hsec.
    2:{ rewrite Hrun in Hcheck. unfold mbind, M_bind in Hcheck.
        rewrite InitApprole_no_secret_id with (r := r) in Hcheck
          by assumption.
        discriminate. }
    apply (InitApprole_fresh_logs_in _ _ _ _ w1 r s Hr Hsec Hn).
Qed.

End OneLoginRecovery.

(* --------------------------------------------------------------------- *)
(** *** Two levels of an operation                                       *)

(** Counting in a run of two calls, each followed or not by events of the
    dispatcher, and then by [d3]. *)
Lemma two_calls by_ ev1 d1 ev2 d2 d3 :
  auth_caller by_ = false ->
  Forall auth_event d1 -> Forall auth_event d2 ->
  request_by by_ ev1 = true -> is_login ev1 = false ->
  request_by by_ ev2 = true -> is_login ev2 = false ->
  logins (ev1 :: d1 ++ ev2 :: d2 ++ d3)
  = (logins d1 + logins d2 + logins d3)%nat
  /\ calls by_ (ev1 :: d1 ++ ev2 :: d2 ++ d3) = (2 + calls by_ d3)%nat.
Proof.
  intros Hop H1 H2 Hr1 Hl1 Hr2 Hl2.
  change (ev1 :: d1 ++ ev2 :: d2 ++ d3)
    with ([ev1] ++ d1 ++ [ev2] ++ d2 ++ d3).
  rewrite !logins_app, !calls_app.
  rewrite (calls_auth by_ d1 Hop H1), (calls_auth by_ d2 Hop H2).
  unfold logins, calls. cbn [count]. rewrite Hr1, Hl1, Hr2, Hl2.
  split; lia.
Qed.

Ltac same_list :=
  rewrite ?app_nil_r, <- ?app_assoc; cbn [app];
  rewrite <- ?app_assoc; cbn [app]; reflexivity.

Section Attempt.
Variable E : Env.
Context {R : Type} (by_ : Caller) (req : Request) (giveup : Response -> R).
Hypothesis by_op : auth_caller by_ = false.

Lemma attempt_fails (done : Response -> M R) (next : M R) w e :
  snd (answer E w req) = Some e ->
  attempt E by_ req done giveup next w
  = match checkAuthNeeded E (sent E by_ req w) with
    | (Returns None, w') => next w'
    | (Returns (Some _), w') => (Returns (giveup (answer E w req)), w')
    | (Panics msg, w') => (Panics msg, w')
    | (OutOfFuel, w') => (OutOfFuel, w')
    end.
Proof.
  intros He. unfold attempt. unfold mbind at 1, M_bind at 1.
  unfold Logical at 1. fold (answer E w req). rewrite He.
  unfold mbind, M_bind.
  change (log _ _) with (sent E by_ req w).
  destruct (checkAuthNeeded E _) as [[[ce|]| |] w']; reflexivity.
Qed.

Lemma attempt_succeeds (done : Response -> M R) (next : M R) w :
  snd (answer E w req) = None ->
  attempt E by_ req done giveup next w
  = done (answer E w req) (sent E by_ req w).
Proof.
  intros He. unfold attempt. unfold mbind at 1, M_bind at 1.
  unfold Logical at 1. fold (answer E w req). rewrite He. reflexivity.
Qed.

Lemma attempt_emits (done : Response -> M R) (next : M R) :
  (forall resp, emits (fun _ => True) (done resp)) ->
  emits (fun _ => True) next ->
  emits (fun _ => True) (attempt E by_ req done giveup next).
Proof.
  intros Hd Hn. unfold attempt.
  apply emits_bind; [apply emits_Logical; intros; exact I|].
  intros resp. destruct (snd resp); [|apply Hd].
  apply emits_bind; [apply (emits_any auth_event), checkAuthNeeded_auth|].
  intros [err|]; [apply emits_ret|exact Hn].
Qed.

(** A level sends its call first. *)
Lemma attempt_calls (done : Response -> M R) (next : M R) w :
  (forall resp, emits (fun _ => True) (done resp)) ->
  emits (fun _ => True) next ->
  exists d,
    trace (snd (attempt E by_ req done giveup next w)) = trace w ++ d
    /\ (1 <= calls by_ d)%nat.
Proof.
  intros Hd Hn. unfold attempt.
  match goal with
  | |- context [Logical E by_ req ≫= ?k] =>
      assert (Hk : forall resp, emits (fun _ => True) (k resp))
  end.
  { intros resp. destruct (snd resp); [|apply Hd].
    apply emits_bind; [apply (emits_any auth_event), checkAuthNeeded_auth|].
    intros [err|]; [apply emits_ret|exact Hn]. }
  unfold mbind at 1, M_bind at 1. unfold Logical at 1.
  destruct (Hk (backend E (requests w) (clientToken w) req)
              (sent E by_ req w)) as (d & Hd' & _).
  exists (EvRequest by_ (clientToken w) req
            (backend E (requests w) (clientToken w) req) :: d).
  split.
  - change (log _ _) with (sent E by_ req w). rewrite Hd'.
    cbn [sent Logical snd log trace]. rewrite <- app_assoc. reflexivity.
  - unfold calls. cbn [count]. rewrite request_by_self. lia.
Qed.

Variables (done1 done2 : Response -> M R) (rest : M R).
Hypothesis done2_pure :
  forall resp w, snd (done2 resp w) = w /\ fst (done2 resp w) <> OutOfFuel.

(** The run of two levels whose first call fails and is followed by a
    recovery. *)
Lemma attempt_twice w w2 e :
  snd (answer E w req) = Some e ->
  checkAuthNeeded E (sent E by_ req w) = (Returns None, w2) ->
  logins (events (checkAuthNeeded E) (sent E by_ req w)) = 1%nat ->
  (snd (answer E w2 req) = None \/ quiet E (sent E by_ req w2) ->
   once by_ (attempt E by_ req done1 giveup
               (attempt E by_ req done2 giveup rest)) w)
  /\ ((forall w3,
         fst (rest w3) = OutOfFuel
         \/ exists d, trace (snd (rest w3)) = trace w3 ++ d
                      /\ (1 <= calls by_ d)%nat) ->
      once by_ (attempt E by_ req done1 giveup
                  (attempt E by_ req done2 giveup rest)) w ->
      snd (answer E w2 req) = None \/ quiet E (sent E by_ req w2)).
Proof.
  intros He Hcheck Hone.
  destruct (checkAuthNeeded_auth E (sent E by_ req w)) as (d1 & Hd1 & HP1).
  rewrite (events_eq _ _ _ Hd1) in Hone.
  rewrite Hcheck in Hd1. cbn [snd] in Hd1.
  set (m := attempt E by_ req done1 giveup
              (attempt E by_ req done2 giveup rest)).
  assert (Hrun : m w = attempt E by_ req done2 giveup rest w2).
  { unfold m. rewrite attempt_fails with (e := e) by exact He.
    rewrite Hcheck. reflexivity. }
  set (ev1 := EvRequest by_ (clientToken w) req (answer E w req)).
  set (ev2 := EvRequest by_ (clientToken w2) req (answer E w2 req)).
  assert (Hw2 : trace w2 = trace w ++ ev1 :: d1).
  { rewrite Hd1. cbn [sent Logical snd log trace].
    rewrite <- app_assoc. reflexivity. }
  assert (Hs2 : trace (sent E by_ req w2) = trace w ++ ev1 :: d1 ++ [ev2]).
  { cbn [sent Logical snd log trace]. rewrite Hw2, <- app_assoc.
    reflexivity. }
  destruct (checkAuthNeeded_auth E (sent E by_ req w2)) as (d2 & Hd2 & HP2).
  pose proof (checkAuthNeeded_ends E (sent E by_ req w2)) as Hends.
  assert (Hcount : forall d3,
            logins (ev1 :: d1 ++ ev2 :: d2 ++ d3)
            = (logins d1 + logins d2 + logins d3)%nat
            /\ calls by_ (ev1 :: d1 ++ ev2 :: d2 ++ d3)
               = (2 + calls by_ d3)%nat).
  { intros d3. apply two_calls;
      [exact by_op|exact HP1|exact HP2
      |apply request_by_self|apply logins_op_request, by_op
      |apply request_by_self|apply logins_op_request, by_op]. }
  assert (Hcount0 : logins (ev1 :: d1 ++ [ev2]) = logins d1
                    /\ calls by_ (ev1 :: d1 ++ [ev2]) = 2%nat).
  { destruct (two_calls by_ ev1 d1 ev2 [] []) as [Hl Hc];
      [exact by_op|exact HP1|constructor
      |apply request_by_self|apply logins_op_request, by_op
      |apply request_by_self|apply logins_op_request, by_op|].
    cbn [app] in Hl, Hc. rewrite Hl, Hc. cbn. split; lia. }
  unfold quiet.
  destruct (snd (answer E w2 req)) as [e2|] eqn:He2.
  - (* the retried call fails *)
    pose proof (attempt_fails done2 rest w2 e2 He2) as Hrun2.
    rewrite <- Hrun in Hrun2.
    assert (Hev2 : events (checkAuthNeeded E) (sent E by_ req w2) = d2)
      by (apply events_eq; exact Hd2).
    destruct (checkAuthNeeded E (sent E by_ req w2)) as [[[err|]| |] w3]
      eqn:Hc2; cbn [fst snd] in *.
    + (* the dispatcher reports an error *)
      assert (Hev : events m w = ev1 :: d1 ++ ev2 :: d2 ++ []).
      { apply events_eq. rewrite Hrun2. cbn [snd]. rewrite Hd2, Hs2.
        same_list. }
      destruct (Hcount []) as [Hl Hc]. split.
      * intros [?|[_ Hq]]; [discriminate|]. rewrite Hev2 in Hq.
        unfold once. rewrite Hev, Hl, Hc, Hrun2. cbn [fst].
        split; [discriminate|]. split; cbn; lia.
      * intros _ (_ & HL & _). right. split; [discriminate|].
        rewrite Hev2. rewrite Hev, Hl in HL. cbn in HL. lia.
    + (* the dispatcher reports a second recovery *)
      split.
      * intros [?|[Hq _]]; [discriminate|]. destruct (Hq eq_refl).
      * intros Hrest (Hf & HL & HC). exfalso.
        destruct (Hrest w3) as [Hout|(d3 & Hd3 & Hc3)].
        -- apply Hf. rewrite Hrun2. exact Hout.
        -- assert (Hev : events m w = ev1 :: d1 ++ ev2 :: d2 ++ d3).
           { apply events_eq. rewrite Hrun2, Hd3, Hd2, Hs2. same_list. }
           destruct (Hcount d3) as [_ Hc]. rewrite Hev, Hc in HC. lia.
    + (* the dispatcher panics *)
      assert (Hev : events m w = ev1 :: d1 ++ ev2 :: d2 ++ []).
      { apply events_eq. rewrite Hrun2. cbn [snd]. rewrite Hd2, Hs2.
        same_list. }
      destruct (Hcount []) as [Hl Hc]. split.
      * intros [?|[_ Hq]]; [discriminate|]. rewrite Hev2 in Hq.
        unfold once. rewrite Hev, Hl, Hc, Hrun2. cbn [fst].
        split; [discriminate|]. split; cbn; lia.
      * intros _ (_ & HL & _). right. split; [discriminate|].
        rewrite Hev2. rewrite Hev, Hl in HL. cbn in HL. lia.
    + destruct (Hends eq_refl).
  - (* the retried call returns no error *)
    pose proof (attempt_succeeds done2 rest w2 He2) as Hrun2.
    rewrite <- Hrun in Hrun2.
    destruct (done2_pure (answer E w2 req) (sent E by_ req w2)) as [Hs Hf].
    split; [|intros _ _; left; reflexivity].
    intros _. destruct Hcount0 as [Hl Hc].
    assert (Hev : events m w = ev1 :: d1 ++ [ev2]).
    { apply events_eq. rewrite Hrun2, Hs, Hs2. reflexivity. }
    unfold once. rewrite Hev, Hl, Hc, Hrun2.
    split; [exact Hf|]. split; [exact Hone|reflexivity].
Qed.

End Attempt.

(* --------------------------------------------------------------------- *)
(** *** The operations that send their request themselves                *)

Lemma pure_emits {A B} (done : A -> M B) :
  (forall a w, snd (done a w) = w /\ fst (done a w) <> OutOfFuel) ->
  forall a, emits (fun _ => True) (done a).
Proof.
  intros H a w. destruct (H a w) as [-> _]. exists [].
  rewrite app_nil_r. auto.
Qed.

Lemma once_ext {R} by_ (m m' : M R) w :
  m w = m' w -> once by_ m w <-> once by_ m' w.
Proof. intros H. unfold once, events. rewrite H. reflexivity. Qed.

Section RetryingOnce.
Variable E : Env.
Context {R : Type} (by_ : Caller) (req : Request)
  (done : Response -> M R) (giveup : Response -> R).
Hypothesis by_op : auth_caller by_ = false.
Hypothesis done_pure :
  forall resp w, snd (done resp w) = w /\ fst (done resp w) <> OutOfFuel.

Lemma retrying_attempt fuel :
  retrying E by_ req done giveup (S fuel)
  = attempt E by_ req done giveup (retrying E by_ req done giveup fuel).
Proof. reflexivity. Qed.

Lemma retrying_emits fuel :
  emits (fun _ => True) (retrying E by_ req done giveup fuel).
Proof.
  induction fuel as [|fuel IH]; [apply emits_out_of_fuel|].
  rewrite retrying_attempt.
  apply attempt_emits; [apply pure_emits, done_pure|exact IH].
Qed.

Lemma retrying_calls fuel w :
  fst (retrying E by_ req done giveup fuel w) = OutOfFuel
  \/ exists d,
       trace (snd (retrying E by_ req done giveup fuel w)) = trace w ++ d
       /\ (1 <= calls by_ d)%nat.
Proof.
  destruct fuel as [|fuel]; [left; reflexivity|right].
  rewrite retrying_attempt.
  apply attempt_calls; [apply pure_emits, done_pure|apply retrying_emits].
Qed.

Lemma retrying_retries_once (op : nat -> M R) :
  (forall fuel w, op fuel w = retrying E by_ req done giveup fuel w) ->
  retries_once E by_ req op.
Proof.
  intros Hop fuel w w2 ((e & He) & Hcheck & Hrec).
  pose proof (recovery_logs_in E _ _ Hcheck Hrec) as Hone.
  split; [exact Hone|].
  rewrite (once_ext by_ _ _ w (Hop (S (S fuel)) w)).
  rewrite !retrying_attempt.
  destruct (attempt_twice E by_ req giveup by_op done done
              (retrying E by_ req done giveup fuel) done_pure
              w w2 e He Hcheck Hone) as [Hsuff Hnec].
  split; [apply Hnec; intros w3; apply retrying_calls|exact Hsuff].
Qed.

End RetryingOnce.

Lemma Read_done_pure resp w :
  snd (Read_done resp w) = w /\ fst (Read_done resp w) <> OutOfFuel.
Proof.
  unfold Read_done. destruct (fst resp); split; (reflexivity || discriminate).
Qed.

Lemma List_done_pure resp w :
  snd (List_done resp w) = w /\ fst (List_done resp w) <> OutOfFuel.
Proof.
  unfold List_done. destruct (fst resp) as [data|];
    [destruct (Data data !! "keys") as [[]|]|];
    split; (reflexivity || discriminate).
Qed.

Lemma GetKV2ByVersion_done_pure path resp w :
  snd (GetKV2ByVersion_done path resp w) = w
  /\ fst (GetKV2ByVersion_done path resp w) <> OutOfFuel.
Proof.
  unfold GetKV2ByVersion_done. destruct (fst resp) as [data|];
    [destruct (Data data !! "data") as [[]|]|];
    split; (reflexivity || discriminate).
Qed.

Lemma mret_pure {A} (f : Response -> A) resp w :
  snd ((fun r => mret (f r) : M A) resp w) = w
  /\ fst ((fun r => mret (f r) : M A) resp w) <> OutOfFuel.
Proof. split; [reflexivity|discriminate]. Qed.

(* --------------------------------------------------------------------- *)
(** *** The loops over a map end                                         *)

Lemma GetAuthType_select_ends entries path :
  GetAuthType_select entries path <> OutOfFuel.
Proof.
  induction entries as [|[k v] entries IH]; [discriminate|].
  cbn [GetAuthType_select]. destruct (k =? path); [|exact IH].
  destruct v; try discriminate.
  destruct (_ !! "type") as [[]|]; discriminate.
Qed.

Lemma GetAuthMountsByType_collect_ends entries authType prefixMatch :
  forall authMounts,
    GetAuthMountsByType_collect entries authType prefixMatch authMounts
    <> OutOfFuel.
Proof.
  induction entries as [|[k v] entries IH]; intros authMounts;
    [discriminate|].
  cbn [GetAuthMountsByType_collect]. destruct v; try discriminate.
  destruct (negb _); [apply IH|].
  destruct (_ !! "type") as [[]|]; try discriminate.
  destruct (_ =? _); apply IH.
Qed.

Lemma GetKV2VersionList_collect_ends entries d s :
  forall returnVersions,
    GetKV2VersionList_collect entries d s returnVersions <> OutOfFuel.
Proof.
  induction entries as [|[k v] entries IH]; intros returnVersions;
    [discriminate|].
  cbn [GetKV2VersionList_collect]. destruct v; try discriminate.
  destruct (_ && _); [apply IH|].
  destruct (_ && _); [apply IH|].
  destruct (Go.ParseInt64 k); [apply IH|discriminate].
Qed.

Section Mounts.
Variable E : Env.
Variable range_ : gmap string Value -> list (string * Value).

Lemma GetAuthType_done_pure mount resp w :
  snd (GetAuthType_done range_ mount resp w) = w
  /\ fst (GetAuthType_done range_ mount resp w) <> OutOfFuel.
Proof.
  unfold GetAuthType_done. destruct (fst resp) as [data|];
    [|split; [reflexivity|discriminate]].
  pose proof (GetAuthType_select_ends (range_ (Data data)) mount) as H.
  destruct (GetAuthType_select _ _) as [r| |];
    (split; [reflexivity|]); [discriminate|discriminate|exact H].
Qed.

Lemma GetAuthMountsByType_done_pure authType prefixMatch resp w :
  snd (GetAuthMountsByType_done range_ authType prefixMatch resp w) = w
  /\ fst (GetAuthMountsByType_done range_ authType prefixMatch resp w)
     <> OutOfFuel.
Proof.
  unfold GetAuthMountsByType_done. destruct (fst resp) as [data|];
    [|split; [reflexivity|discriminate]].
  pose proof (GetAuthMountsByType_collect_ends (range_ (Data data))
                authType prefixMatch []) as H.
  destruct (GetAuthMountsByType_collect _ _ _ _) as [r| |];
    (split; [reflexivity|]); [discriminate|discriminate|exact H].
Qed.

Lemma GetAuthMountsByType_retrying fuel authType prefixMatch w :
  GetAuthMountsByType E range_ fuel authType prefixMatch w
  = retrying E InGetAuthMountsByType (ReqRead "sys/auth")
      (GetAuthMountsByType_done range_ authType prefixMatch)
      (fun r => ([], snd r)) fuel w.
Proof.
  revert w. induction fuel as [|fuel IH]; intros w; [reflexivity|].
  cbn [GetAuthMountsByType retrying]. cbv zeta.
  unfold mbind, M_bind, Logical.
  destruct (backend E (requests w) (clientToken w) (ReqRead "sys/auth"))
    as [data [e|]]; cbn [fst snd].
  - destruct (checkAuthNeeded E _) as [[[ce|]| |] w']; try reflexivity.
    apply IH.
  - unfold GetAuthMountsByType_done. cbn [fst].
    destruct data as [data|]; [|reflexivity].
    destruct (GetAuthMountsByType_collect _ _ _ _); reflexivity.
Qed.

Lemma GetAuthType_attempt fuel path mount w :
  GetAuthType_mount path = Returns mount ->
  GetAuthType E range_ (S fuel) path w
  = attempt E InGetAuthType (ReqRead "sys/auth")
      (GetAuthType_done range_ mount) (fun r => ("", snd r))
      (GetAuthType E range_ fuel mount) w.
Proof.
  intros Hm. cbn [GetAuthType]. rewrite Hm.
  unfold attempt, mbind, M_bind, Logical.
  destruct (backend E (requests w) (clientToken w) (ReqRead "sys/auth"))
    as [data [e|]]; cbn [fst snd].
  - destruct (checkAuthNeeded E _) as [[[ce|]| |] w']; reflexivity.
  - unfold GetAuthType_done. cbn [fst].
    destruct data as [data|]; [|reflexivity].
    destruct (GetAuthType_select _ _); reflexivity.
Qed.

Lemma GetAuthType_emits fuel :
  forall path, emits (fun _ => True) (GetAuthType E range_ fuel path).
Proof.
  induction fuel as [|fuel IH]; intros path; [apply emits_out_of_fuel|].
  destruct (GetAuthType_mount path) as [mount|msg|] eqn:Hm.
  - intros w. rewrite (GetAuthType_attempt fuel path mount w Hm).
    apply attempt_emits;
      [apply pure_emits, GetAuthType_done_pure|apply IH].
  - intros w. cbn [GetAuthType]. rewrite Hm. apply emits_panic.
  - intros w. cbn [GetAuthType]. rewrite Hm. apply emits_out_of_fuel.
Qed.

Lemma GetAuthType_retries_once_holds path :
  GetAuthType_retries_once E range_ path.
Proof.
  intros fuel w w2 mount mount' Hm Hm' ((e & He) & Hcheck & Hrec).
  pose proof (recovery_logs_in E _ _ Hcheck Hrec) as Hone.
  split; [exact Hone|].
  assert (Hrun : GetAuthType E range_ (S (S fuel)) path w
                 = attempt E InGetAuthType (ReqRead "sys/auth")
                     (GetAuthType_done range_ mount) (fun r => ("", snd r))
                     (attempt E InGetAuthType (ReqRead "sys/auth")
                        (GetAuthType_done range_ mount')
                        (fun r => ("", snd r))
                        (GetAuthType E range_ fuel mount')) w).
  { rewrite (GetAuthType_attempt (S fuel) path mount w Hm).
    rewrite !(attempt_fails E InGetAuthType (ReqRead "sys/auth")
                (fun r => ("", snd r)) _ _ w e He).
    rewrite Hcheck. apply GetAuthType_attempt. exact Hm'. }
  rewrite (once_ext InGetAuthType _ _ w Hrun).
  destruct (attempt_twice E InGetAuthType (ReqRead "sys/auth")
              (fun r => ("", snd r)) eq_refl
              (GetAuthType_done range_ mount)
              (GetAuthType_done range_ mount')
              (GetAuthType E range_ fuel mount')
              (GetAuthType_done_pure mount')
              w w2 e He Hcheck Hone) as [Hsuff Hnec].
  split; [exact Hsuff|].
  intros (mount'' & Hm''). apply Hnec. intros w3.
  destruct fuel as [|fuel]; [left; reflexivity|right].
  rewrite (GetAuthType_attempt fuel mount' mount'' w3 Hm'').
  apply attempt_calls;
    [apply pure_emits, GetAuthType_done_pure|apply GetAuthType_emits].
Qed.

End Mounts.

(* --------------------------------------------------------------------- *)
(** *** The operations that go through [Read]                            *)

Lemma once_tally {R} by_ (m : M R) w : once by_ m w <-> tally by_ m w 1 2.
Proof. reflexivity. Qed.

(** A run that goes on as another run, after the events [pre]. *)
Lemma tally_after {R} by_ (X Y : M R) wa wb pre l' c' :
  X wa = Y wb ->
  trace wb = trace wa ++ pre ->
  (exists d, trace (snd (Y wb)) = trace wb ++ d) ->
  tally by_ X wa l' c'
  <-> exists l c,
        l' = (logins pre + l)%nat /\ c' = (calls by_ pre + c)%nat
        /\ tally by_ Y wb l c.
Proof.
  intros HX Hpre (d & Hd). unfold tally.
  assert (Hev : events X wa = pre ++ events Y wb).
  { rewrite (events_eq Y wb d Hd). apply events_eq.
    rewrite HX, Hd, Hpre, app_assoc. reflexivity. }
  rewrite Hev, HX, logins_app, calls_app. split.
  - intros (Hf & Hl & Hc). eauto 10.
  - intros (l & c & -> & -> & Hf & <- & <-). auto.
Qed.

(** A run that ends where it is. *)
Lemma tally_here {R} by_ (X : M R) wa l c :
  snd (X wa) = wa -> fst (X wa) <> OutOfFuel ->
  tally by_ X wa l c <-> l = O /\ c = O.
Proof.
  intros Hs Hf. unfold tally.
  rewrite (events_eq X wa []) by (rewrite Hs, app_nil_r; reflexivity).
  cbn. intuition.
Qed.

Lemma bind_extends {A B} (m : M A) (f : A -> M B) w :
  (forall a, emits (fun _ => True) (f a)) ->
  exists d, trace (snd ((m ≫= f) w)) = trace (snd (m w)) ++ d.
Proof.
  intros Hf. unfold mbind, M_bind.
  destruct (m w) as [[a| |] w1]; cbn [snd].
  - destruct (Hf a w1) as (d & Hd & _). eauto.
  - exists []. rewrite app_nil_r. reflexivity.
  - exists []. rewrite app_nil_r. reflexivity.
Qed.

Section Reading.
Variable E : Env.
Context {R : Type} (path : string)
  (done : option Secret -> M R) (giveup : error -> R).
Hypothesis done_pure :
  forall secret w,
    snd (done secret w) = w /\ fst (done secret w) <> OutOfFuel.

Lemma reading_level fuel :
  reading E path done giveup (S fuel)
  = ('(secret, err) ← Read E fuel path;
     match err with
     | Some e =>
         checkAuthErr ← checkAuthNeeded E;
         match checkAuthErr with
         | None => reading E path done giveup fuel
         | Some _ => mret (giveup e)
         end
     | None => done secret
     end).
Proof. reflexivity. Qed.

Lemma Read_emits fuel : emits (fun _ => True) (Read E fuel path).
Proof.
  intros w. rewrite Read_retrying.
  apply retrying_emits, Read_done_pure.
Qed.

Lemma Read_calls fuel w :
  exists d,
    trace (snd (Read E (S fuel) path w)) = trace w ++ d
    /\ (1 <= calls InRead d)%nat.
Proof.
  rewrite Read_retrying, retrying_attempt.
  apply attempt_calls;
    [apply pure_emits, Read_done_pure
    |apply retrying_emits, Read_done_pure].
Qed.

Lemma reading_emits fuel :
  emits (fun _ => True) (reading E path done giveup fuel).
Proof.
  induction fuel as [|fuel IH]; [apply emits_out_of_fuel|].
  rewrite reading_level. apply emits_bind; [apply Read_emits|].
  intros [secret [e|]]; [|apply pure_emits, done_pure].
  apply emits_bind; [apply (emits_any auth_event), checkAuthNeeded_auth|].
  intros [err|]; [apply emits_ret|exact IH].
Qed.

(** Each level reads first. *)
Lemma reading_calls fuel w :
  exists d,
    trace (snd (reading E path done giveup (S (S fuel)) w)) = trace w ++ d
    /\ (1 <= calls InRead d)%nat.
Proof.
  rewrite reading_level.
  match goal with
  | |- context [Read E (S fuel) path ≫= ?k] =>
      destruct (bind_extends (Read E (S fuel) path) k w) as (d2 & Hd2)
  end.
  { intros [secret [e|]]; [|apply pure_emits, done_pure].
    apply emits_bind; [apply (emits_any auth_event), checkAuthNeeded_auth|].
    intros [err|]; [apply emits_ret|apply reading_emits]. }
  destruct (Read_calls fuel w) as (d1 & Hd1 & Hc1).
  exists (d1 ++ d2). rewrite Hd2, Hd1, app_assoc. split; [reflexivity|].
  rewrite calls_app. lia.
Qed.

(** The dispatcher the operation calls itself, after an error of
    [Read]. *)
Lemma dispatch_tally fuel e w :
  tally InRead
    (checkAuthErr ← checkAuthNeeded E;
     match checkAuthErr with
     | None => reading E path done giveup (S (S fuel))
     | Some _ => mret (giveup e)
     end) w 0 0
  <-> quiet E w.
Proof.
  destruct (checkAuthNeeded_auth E w) as (d & Hd & HP).
  pose proof (checkAuthNeeded_ends E w) as Hends.
  pose proof (calls_auth InRead d eq_refl HP) as Hcd.
  unfold quiet. rewrite (events_eq _ _ _ Hd).
  match goal with |- tally _ ?m _ _ _ <-> _ => set (T := m) end.
  destruct (checkAuthNeeded E w) as [[[err|]| |] w'] eqn:Hc;
    cbn [fst snd] in *.
  - assert (Hrun : T w = (Returns (giveup e), w'))
      by (unfold T; rewrite run_bind, Hc; reflexivity).
    unfold tally. rewrite (events_eq T w d) by (rewrite Hrun; exact Hd).
    rewrite Hrun. cbn [fst]. split.
    + intros (_ & Hl & _). split; [discriminate|exact Hl].
    + intros (_ & Hl). split; [discriminate|]. split; [exact Hl|exact Hcd].
  - assert (Hrun : T w = reading E path done giveup (S (S fuel)) w')
      by (unfold T; rewrite run_bind, Hc; reflexivity).
    destruct (reading_calls fuel w') as (dr & Hdr & Hcr).
    unfold tally.
    rewrite (events_eq T w (d ++ dr))
      by (rewrite Hrun, Hdr, Hd, app_assoc; reflexivity).
    rewrite calls_app. split.
    + intros (_ & _ & Hc0). lia.
    + intros (Hq & _). destruct (Hq eq_refl).
  - assert (Hrun : T w = (Panics msg, w'))
      by (unfold T; rewrite run_bind, Hc; reflexivity).
    unfold tally. rewrite (events_eq T w d) by (rewrite Hrun; exact Hd).
    rewrite Hrun. cbn [fst]. split.
    + intros (_ & Hl & _). split; [discriminate|exact Hl].
    + intros (_ & Hl). split; [discriminate|]. split; [exact Hl|exact Hcd].
  - destruct (Hends eq_refl).
Qed.

Lemma Read_after_recovery fuel w w2 e :
  snd (answer E w (ReqRead path)) = Some e ->
  checkAuthNeeded E (sent E InRead (ReqRead path) w) = (Returns None, w2) ->
  Read E (S (S fuel)) path w = Read E (S fuel) path w2.
Proof.
  intros He Hcheck. rewrite !Read_retrying.
  rewrite retrying_fails with (e := e) by exact He. rewrite Hcheck.
  reflexivity.
Qed.

Lemma Read_fails fuel w e :
  snd (answer E w (ReqRead path)) = Some e ->
  Read E (S fuel) path w
  = match checkAuthNeeded E (sent E InRead (ReqRead path) w) with
    | (Returns None, w') => Read E fuel path w'
    | (Returns (Some _), w') => (Returns (None, Some e), w')
    | (Panics msg, w') => (Panics msg, w')
    | (OutOfFuel, w') => (OutOfFuel, w')
    end.
Proof.
  intros He. rewrite Read_retrying.
  rewrite retrying_fails with (e := e) by exact He. rewrite He.
  destruct (checkAuthNeeded E _) as [[[err|]| |] w']; try reflexivity.
  rewrite Read_retrying. reflexivity.
Qed.

Lemma Read_answered fuel w secret :
  answer E w (ReqRead path) = (secret, None) ->
  Read E (S fuel) path w
  = (Returns match secret with
             | Some secret => (Some secret, None)
             | None => (None, Some "secret not found")
             end, sent E InRead (ReqRead path) w).
Proof.
  intros Ha. rewrite Read_retrying.
  rewrite retrying_succeeds by (rewrite Ha; reflexivity).
  rewrite Ha. unfold Read_done. cbn [fst]. destruct secret; reflexivity.
Qed.

(** The second level of such an operation, from the world the recovery
    leaves: one call and no login exactly when the call [settles]. *)
Lemma reading_second_level fuel w2 (K : option Secret * option error -> M R) :
  (forall secret e,
     K (secret, Some e)
     = (checkAuthErr ← checkAuthNeeded E;
        match checkAuthErr with
        | None => reading E path done giveup (S (S fuel))
        | Some _ => mret (giveup e)
        end)) ->
  (forall secret, K (secret, None) = done secret) ->
  tally InRead (Read E (S fuel) path ≫= K) w2 0 1
  <-> settles E (sent E InRead (ReqRead path) w2)
        (answer E w2 (ReqRead path)).
Proof.
  intros HKe HKd.
  set (req := ReqRead path) in *.
  set (Y := Read E (S fuel) path ≫= K).
  set (ev2 := EvRequest InRead (clientToken w2) req (answer E w2 req)).
  assert (HK : forall a, emits (fun _ => True) (K a)).
  { intros [secret [e|]]; [rewrite HKe|rewrite HKd; apply pure_emits, done_pure].
    apply emits_bind; [apply (emits_any auth_event), checkAuthNeeded_auth|].
    intros [err|]; [apply emits_ret|apply reading_emits]. }
  assert (Hs2 : trace (sent E InRead req w2) = trace w2 ++ [ev2])
    by reflexivity.
  assert (Hl2 : forall d, logins (ev2 :: d) = logins d) by reflexivity.
  assert (Hc2 : forall d, calls InRead (ev2 :: d) = S (calls InRead d)).
  { intros d. unfold calls, ev2. cbn [count]. rewrite request_by_self.
    reflexivity. }
  destruct (checkAuthNeeded_auth E (sent E InRead req w2)) as (d2 & Hd2 & HP2).
  pose proof (checkAuthNeeded_ends E (sent E InRead req w2)) as Hends.
  pose proof (calls_auth InRead d2 eq_refl HP2) as Hcd2.
  assert (Hq2 : quiet E (sent E InRead req w2)
                <-> fst (checkAuthNeeded E (sent E InRead req w2))
                    <> Returns None
                    /\ logins d2 = O).
  { unfold quiet. rewrite (events_eq _ _ _ Hd2). reflexivity. }
  destruct (answer E w2 req) as [sec [e2|]] eqn:Ha.
  - (* the retried call fails *)
    assert (Hset : settles E (sent E InRead req w2) (sec, Some e2)
                   <-> quiet E (sent E InRead req w2)
                       /\ forall err w3,
                            checkAuthNeeded E (sent E InRead req w2)
                              = (Returns (Some err), w3) -> quiet E w3)
      by (destruct sec; reflexivity).
    rewrite Hset, Hq2. clear Hset Hq2.
    pose proof (Read_fails fuel w2 e2) as HRead. fold req in HRead.
    rewrite Ha in HRead. specialize (HRead eq_refl).
    destruct (checkAuthNeeded E (sent E InRead req w2)) as [[[err|]| |] w3]
      eqn:Hcheck2; cbn [fst snd] in *.
    + (* [Read] gives up, the operation asks the dispatcher *)
      assert (HY : Y w2 = K (None, Some e2) w3)
        by (unfold Y; rewrite run_bind, HRead; reflexivity).
      rewrite HKe in HY.
      rewrite (tally_after InRead Y _ w2 w3 (ev2 :: d2) 0 1 HY).
      * rewrite Hl2, Hc2, Hcd2. split.
        -- intros (l & c & Hl & Hc & Ht).
           assert (l = O) by lia. assert (c = O) by lia. subst l c.
           apply dispatch_tally in Ht.
           split; [split; [discriminate|lia]|].
           intros err' w3' Heq. injection Heq as _ <-. exact Ht.
        -- intros ((_ & Hl) & Hq). exists O, O.
           split; [lia|]. split; [lia|].
           apply dispatch_tally. apply (Hq err w3 eq_refl).
      * rewrite Hd2, Hs2, <- app_assoc. reflexivity.
      * match goal with
        | |- exists d, trace (snd (?T w3)) = _ =>
            assert (HT : emits (fun _ => True) T)
        end.
        { apply emits_bind;
            [apply (emits_any auth_event), checkAuthNeeded_auth|].
          intros [err'|]; [apply emits_ret|apply reading_emits]. }
        destruct (HT w3) as (d & Hd & _). eauto.
    + (* a second recovery *)
      split; [|intros ((Hq & _) & _); destruct (Hq eq_refl)].
      intros Ht. exfalso.
      assert (HY : Y w2 = (Read E fuel path ≫= K) w3)
        by (unfold Y; rewrite !run_bind, HRead; reflexivity).
      destruct fuel as [|fuel'].
      * destruct Ht as (Hf & _). apply Hf. rewrite HY. reflexivity.
      * apply (tally_after InRead Y _ w2 w3 (ev2 :: d2) 0 1 HY) in Ht.
        -- destruct Ht as (l & c & _ & Hc & _ & _ & Hcalls).
           rewrite Hc2, Hcd2 in Hc. assert (Hc0 : c = O) by lia.
           rewrite Hc0 in Hcalls.
           destruct (Read_calls fuel' w3) as (dr & Hdr & Hcr).
           destruct (bind_extends (Read E (S fuel') path) K w3 HK)
             as (dk & Hdk).
           rewrite (events_eq _ w3 (dr ++ dk)) in Hcalls
             by (rewrite Hdk, Hdr, app_assoc; reflexivity).
           rewrite calls_app in Hcalls. lia.
        -- rewrite Hd2, Hs2, <- app_assoc. reflexivity.
        -- destruct (emits_bind _ _ _ (Read_emits (S fuel')) HK w3)
             as (d & Hd & _). eauto.
    + (* the dispatcher panics *)
      assert (HY : Y w2 = (Panics msg, w3))
        by (unfold Y; rewrite run_bind, HRead; reflexivity).
      unfold tally.
      rewrite (events_eq Y w2 (ev2 :: d2))
        by (rewrite HY; cbn [snd]; rewrite Hd2, Hs2, <- app_assoc;
            reflexivity).
      rewrite HY, Hl2, Hc2, Hcd2. cbn [fst]. split.
      * intros (_ & Hl & _). split; [split; [discriminate|exact Hl]|].
        intros err' w3' Heq. discriminate.
      * intros ((_ & Hl) & _). split; [discriminate|]. split; [exact Hl|].
        reflexivity.
    + destruct (Hends eq_refl).
  - (* the retried call returns no error *)
    pose proof (Read_answered fuel w2 sec) as HRead. fold req in HRead.
    specialize (HRead Ha).
    destruct sec as [secret|].
    + (* a secret *)
      assert (HY : Y w2 = done (Some secret) (sent E InRead req w2))
        by (unfold Y; rewrite run_bind, HRead, HKd; reflexivity).
      destruct (done_pure (Some secret) (sent E InRead req w2)) as [Hs Hf].
      unfold tally, settles.
      rewrite (events_eq Y w2 [ev2]) by (rewrite HY, Hs; exact Hs2).
      rewrite HY, Hl2, Hc2. split; [auto|]. intros _.
      split; [exact Hf|]. split; reflexivity.
    + (* no secret: an error of [Read] *)
      assert (HY : Y w2 = K (None, Some "secret not found")
                            (sent E InRead req w2))
        by (unfold Y; rewrite run_bind, HRead; reflexivity).
      rewrite HKe in HY.
      rewrite (tally_after InRead Y _ w2 (sent E InRead req w2) [ev2] 0 1
                 HY Hs2).
      * rewrite Hl2, Hc2. unfold settles. split.
        -- intros (l & c & Hl & Hc & Ht). cbn in Hl, Hc.
           assert (l = O) by lia. assert (c = O) by lia. subst l c.
           apply dispatch_tally in Ht. exact Ht.
        -- intros Hq. exists O, O. split; [reflexivity|].
           split; [reflexivity|]. apply dispatch_tally. exact Hq.
      * match goal with
        | |- exists d, trace (snd (?T ?wx)) = _ =>
            assert (HT : emits (fun _ => True) T)
        end.
        { apply emits_bind;
            [apply (emits_any auth_event), checkAuthNeeded_auth|].
          intros [err'|]; [apply emits_ret|apply reading_emits]. }
        destruct (HT (sent E InRead req w2)) as (d & Hd & _). eauto.
Qed.

Lemma reading_reads_once (op : nat -> M R) :
  (forall fuel w, op fuel w = reading E path done giveup fuel w) ->
  reads_once E path op.
Proof.
  intros Hop fuel w w2 ((e & He) & Hcheck & Hrec).
  pose proof (recovery_logs_in E _ _ Hcheck Hrec) as Hone.
  split; [exact Hone|].
  rewrite (once_ext InRead _ _ w (Hop (S (S (S fuel))) w)).
  set (req := ReqRead path) in *.
  destruct (checkAuthNeeded_auth E (sent E InRead req w)) as (d1 & Hd1 & HP1).
  rewrite (events_eq _ _ _ Hd1) in Hone.
  rewrite Hcheck in Hd1. cbn [snd] in Hd1.
  set (ev1 := EvRequest InRead (clientToken w) req (answer E w req)).
  assert (Hw2 : trace w2 = trace w ++ ev1 :: d1).
  { rewrite Hd1. cbn [sent Logical snd log trace].
    rewrite <- app_assoc. reflexivity. }
  assert (Hpl : logins (ev1 :: d1) = 1%nat) by exact Hone.
  assert (Hpc : calls InRead (ev1 :: d1) = 1%nat).
  { unfold calls, ev1. cbn [count]. rewrite request_by_self.
    fold (calls InRead d1). rewrite (calls_auth InRead d1 eq_refl HP1).
    reflexivity. }
  rewrite once_tally, (reading_level (S (S fuel))).
  match goal with
  | |- context [Read E (S (S fuel)) path ≫= ?k] => set (K := k)
  end.
  assert (HKe : forall secret e',
            K (secret, Some e')
            = (checkAuthErr ← checkAuthNeeded E;
               match checkAuthErr with
               | None => reading E path done giveup (S (S fuel))
               | Some _ => mret (giveup e')
               end)) by reflexivity.
  assert (HKd : forall secret, K (secret, None) = done secret)
    by reflexivity.
  assert (HK : forall a, emits (fun _ => True) (K a)).
  { intros [secret [e'|]];
      [rewrite HKe|rewrite HKd; apply pure_emits, done_pure].
    apply emits_bind; [apply (emits_any auth_event), checkAuthNeeded_auth|].
    intros [err|]; [apply emits_ret|apply reading_emits]. }
  assert (Hrun : (Read E (S (S fuel)) path ≫= K) w
                 = (Read E (S fuel) path ≫= K) w2).
  { rewrite !run_bind.
    rewrite (Read_after_recovery fuel w w2 e He Hcheck). reflexivity. }
  rewrite (tally_after InRead _ _ w w2 (ev1 :: d1) 1 2 Hrun Hw2).
  - rewrite Hpl, Hpc. unfold req.
    rewrite <- (reading_second_level fuel w2 K HKe HKd). split.
    + intros (l & c & Hl & Hc & Ht).
      assert (l = O) by lia. assert (c = 1%nat) by lia. subst l c.
      exact Ht.
    + intros Ht. exists O, 1%nat. auto.
  - destruct (emits_bind _ _ _ (Read_emits (S fuel)) HK w2) as (d & Hd & _).
    eauto.
Qed.

End Reading.

(* --------------------------------------------------------------------- *)
(** *** The operations are instances                                     *)

Lemma GetKV_done_pure path returnOnlyData secret w :
  snd (GetKV_done path returnOnlyData secret w) = w
  /\ fst (GetKV_done path returnOnlyData secret w) <> OutOfFuel.
Proof.
  unfold GetKV_done. destruct secret as [secret|];
    [destruct returnOnlyData;
       [destruct (Data secret !! "data") as [[]|]|]|];
    split; (reflexivity || discriminate).
Qed.

Lemma GetKV_reading (E : Env) fuel path returnOnlyData w :
  GetKV E fuel path returnOnlyData w
  = reading E path (GetKV_done path returnOnlyData)
      (fun e => (∅, Some e)) fuel w.
Proof.
  revert w. induction fuel as [|fuel IH]; intros w; [reflexivity|].
  cbn [GetKV reading]. rewrite !run_bind.
  destruct (Read E fuel path w) as [[[secret [e|]]| |] w']; try reflexivity.
  rewrite !run_bind.
  destruct (checkAuthNeeded E w') as [[[ce|]| |] w'']; try reflexivity.
  apply IH.
Qed.

Section Versions.
Variable E : Env.
Variable range_ : gmap string Value -> list (string * Value).

Lemma GetKV2VersionList_done_pure d s secret w :
  snd (GetKV2VersionList_done range_ d s secret w) = w
  /\ fst (GetKV2VersionList_done range_ d s secret w) <> OutOfFuel.
Proof.
  unfold GetKV2VersionList_done. destruct secret as [secret|];
    [|split; [reflexivity|discriminate]].
  destruct (Data secret !! "versions") as [v|];
    [|split; [reflexivity|discriminate]].
  destruct v; try (split; [reflexivity|discriminate]).
  pose proof (GetKV2VersionList_collect_ends (range_ m) d s []) as H.
  destruct (GetKV2VersionList_collect _ _ _ _) as [[vs [e|]]| |];
    (split; [reflexivity|]); try discriminate. exact H.
Qed.

Lemma GetKV2VersionList_reading fuel :
  forall path autoFixPath d s w,
    GetKV2VersionList E range_ fuel path autoFixPath d s w
    = reading E (if autoFixPath then GetKV2ListPath path else path)
        (GetKV2VersionList_done range_ d s) (fun e => ([], Some e)) fuel w.
Proof.
  induction fuel as [|fuel IH]; intros path autoFixPath d s w;
    [reflexivity|].
  cbn [GetKV2VersionList reading]. cbv zeta. rewrite !run_bind.
  destruct (Read E fuel _ w) as [[[secret [e|]]| |] w']; try reflexivity.
  rewrite !run_bind.
  destruct (checkAuthNeeded E w') as [[[ce|]| |] w'']; try reflexivity.
  apply (IH _ false).
Qed.

End Versions.

(** C1, as the code has it.  Each of the ten operations that wrap a
    backend call retries by calling itself.  When its first call fails
    and [checkAuthNeeded] then reports a recovery that is a login, that
    recovery is one login request, and the operation ends with this one
    login request and two backend calls in all exactly when the retried
    call returns no error or [checkAuthNeeded], called after it, reports
    no recovery and sends no login; the two guards of [checkAuthNeeded]
    (the cooldown, the health check that asks for no refresh) make it so.
    [GetKV] and [GetKV2VersionList] go through [Read] and call
    [checkAuthNeeded] once more when [Read] returns an error; [GetAuthType]
    normalises its path again at every level. *)
Theorem operations_retry_once
    (E : Env) (range_ : gmap string Value -> list (string * Value)) :
  (forall w, guarded E w -> quiet E w)
  /\ (forall path,
        retries_once E InRead (ReqRead path) (fun fuel => Read E fuel path))
  /\ (forall path,
        retries_once E InList (ReqList path) (fun fuel => List E fuel path))
  /\ (forall path data,
        retries_once E InWrite (ReqWrite path data)
          (fun fuel => Write E fuel path data))
  /\ (forall path,
        retries_once E InDelete (ReqDelete path)
          (fun fuel => Delete E fuel path))
  /\ (forall path version,
        retries_once E InGetKV2ByVersion
          (ReqReadWithData path {[ "version" := [Itoa version] ]})
          (fun fuel => GetKV2ByVersion E fuel path version))
  /\ (forall path data,
        retries_once E InWrite (ReqWrite path {[ "data" := VMap data ]})
          (fun fuel => PutKV2 E fuel path data))
  /\ (forall authType prefixMatch,
        retries_once E InGetAuthMountsByType (ReqRead "sys/auth")
          (fun fuel => GetAuthMountsByType E range_ fuel authType prefixMatch))
  /\ (forall path, GetAuthType_retries_once E range_ path)
  /\ (forall path returnOnlyData,
        reads_once E path (fun fuel => GetKV E fuel path returnOnlyData))
  /\ (forall path (autoFixPath : bool) includeDeleted includeDestroyed,
        reads_once E (if autoFixPath then GetKV2ListPath path else path)
          (fun fuel =>
             GetKV2VersionList E range_ fuel path autoFixPath
               includeDeleted includeDestroyed)).
Proof.
  split; [apply guarded_quiet|].
  split.
  { intros path.
    apply (retrying_retries_once E InRead (ReqRead path) Read_done
             (fun r => (None, snd r)) eq_refl Read_done_pure).
    intros fuel w. apply Read_retrying. }
  split.
  { intros path.
    apply (retrying_retries_once E InList (ReqList path) List_done
             (fun r => ([], snd r)) eq_refl List_done_pure).
    intros fuel w. apply List_retrying. }
  split.
  { intros path data.
    apply (retrying_retries_once E InWrite (ReqWrite path data) mret
             (fun r => r) eq_refl (mret_pure (fun r => r))).
    intros fuel w. apply Write_retrying. }
  split.
  { intros path.
    apply (retrying_retries_once E InDelete (ReqDelete path)
             (fun r => mret (snd r)) snd eq_refl (mret_pure snd)).
    intros fuel w. apply Delete_retrying. }
  split.
  { intros path version.
    apply (retrying_retries_once E InGetKV2ByVersion _
             (GetKV2ByVersion_done path) (fun r => (∅, snd r)) eq_refl
             (GetKV2ByVersion_done_pure path)).
    intros fuel w. apply GetKV2ByVersion_retrying. }
  split.
  { intros path data.
    apply (retrying_retries_once E InWrite _ mret
             (fun r => r) eq_refl (mret_pure (fun r => r))).
    intros fuel w. apply Write_retrying. }
  split.
  { intros authType prefixMatch.
    apply (retrying_retries_once E InGetAuthMountsByType (ReqRead "sys/auth")
             (GetAuthMountsByType_done range_ authType prefixMatch)
             (fun r => ([], snd r)) eq_refl
             (GetAuthMountsByType_done_pure range_ authType prefixMatch)).
    intros fuel w. apply GetAuthMountsByType_retrying. }
  split; [intros path; apply GetAuthType_retries_once_holds|].
  split.
  { intros path returnOnlyData.
    apply (reading_reads_once E path (GetKV_done path returnOnlyData)
             (fun e => (∅, Some e)) (GetKV_done_pure path returnOnlyData)).
    intros fuel w. apply GetKV_reading. }
  intros path autoFixPath d s.
  apply (reading_reads_once E _ (GetKV2VersionList_done range_ d s)
           (fun e => ([], Some e)) (GetKV2VersionList_done_pure range_ d s)).
  intros fuel w. apply GetKV2VersionList_reading.
Qed.

Lemma operations_retry_once_witness :
  once InRead (Read Scenario.expired_env 2 "secret/x") Scenario.expired_world
  /\ once InRead (Read Scenario.failing_env 2 "secret/x")
       Scenario.expired_world
  /\ once InRead (Read Scenario.healed_env 2 "secret/x")
       Scenario.expired_world
  /\ once InRead (GetKV Scenario.failing_env 3 "secret/x" true)
       Scenario.expired_world
  /\ once InGetAuthType
       (GetAuthType Scenario.expired_env map_to_list 2 "auth/ldap")
       Scenario.expired_world.
Proof.
  assert (Hrec : forall E by_ req,
            snd (answer E Scenario.expired_world req)
              = Some "permission denied" ->
            fst (checkAuthNeeded E (sent E by_ req Scenario.expired_world))
              = Returns None ->
            recovered E by_ req Scenario.expired_world
              (snd (checkAuthNeeded E
                      (sent E by_ req Scenario.expired_world)))).
  { intros E by_ req He Hc. split; [eauto|]. split.
    - destruct (checkAuthNeeded E _) as [o w2]. cbn [fst snd] in *.
      rewrite Hc. reflexivity.
    - right. left. reflexivity. }
  assert (Hfirst : forall E by_ req,
            snd (answer E Scenario.expired_world req)
              = Some "permission denied" ->
            fst (checkAuthNeeded E (sent E by_ req Scenario.expired_world))
              = Returns None ->
            recovered E by_ req Scenario.expired_world
              (snd (checkAuthNeeded E
                      (sent E by_ req Scenario.expired_world))))
    by exact Hrec.
  clear Hrec.
  split; [|split; [|split; [|split]]].
  - destruct (operations_retry_once Scenario.expired_env map_to_list)
      as (_ & HRead & _).
    apply (HRead "secret/x" O Scenario.expired_world _
             (Hfirst Scenario.expired_env InRead (ReqRead "secret/x")
                ltac:(vm_compute; reflexivity)
                ltac:(vm_compute; reflexivity))).
    left. vm_compute. reflexivity.
  - destruct (operations_retry_once Scenario.failing_env map_to_list)
      as (Hguard & HRead & _).
    apply (HRead "secret/x" O Scenario.expired_world _
             (Hfirst Scenario.failing_env InRead (ReqRead "secret/x")
                ltac:(vm_compute; reflexivity)
                ltac:(vm_compute; reflexivity))).
    right. apply Hguard. left. vm_compute. reflexivity.
  - destruct (operations_retry_once Scenario.healed_env map_to_list)
      as (Hguard & HRead & _).
    apply (HRead "secret/x" O Scenario.expired_world _
             (Hfirst Scenario.healed_env InRead (ReqRead "secret/x")
                ltac:(vm_compute; reflexivity)
                ltac:(vm_compute; reflexivity))).
    right. apply Hguard. right. intros H. vm_compute in H. discriminate.
  - destruct (operations_retry_once Scenario.failing_env map_to_list)
      as (Hguard & _ & _ & _ & _ & _ & _ & _ & _ & HGetKV & _).
    apply (HGetKV "secret/x" true O Scenario.expired_world _
             (Hfirst Scenario.failing_env InRead (ReqRead "secret/x")
                ltac:(vm_compute; reflexivity)
                ltac:(vm_compute; reflexivity))).
    assert (Ha : answer Scenario.failing_env
                   (snd (checkAuthNeeded Scenario.failing_env
                           (sent Scenario.failing_env InRead
                              (ReqRead "secret/x") Scenario.expired_world)))
                   (ReqRead "secret/x") = (None, Some "permission denied"))
      by (vm_compute; reflexivity).
    rewrite Ha. split.
    + apply Hguard. left. vm_compute. reflexivity.
    + intros err w3 Heq. apply Hguard. left.
      replace w3 with
        (snd (checkAuthNeeded Scenario.failing_env
                (sent Scenario.failing_env InRead (ReqRead "secret/x")
                   (snd (checkAuthNeeded Scenario.failing_env
                           (sent Scenario.failing_env InRead
                              (ReqRead "secret/x")
                              Scenario.expired_world))))))
        by (rewrite Heq; reflexivity).
      vm_compute. reflexivity.
  - destruct (operations_retry_once Scenario.expired_env map_to_list)
      as (_ & _ & _ & _ & _ & _ & _ & _ & HGetAuthType & _).
    destruct (HGetAuthType "auth/ldap" O Scenario.expired_world _
                "ldap/" "ldap/" ltac:(vm_compute; reflexivity)
                ltac:(vm_compute; reflexivity)
                (Hfirst Scenario.expired_env InGetAuthType
                   (ReqRead "sys/auth")
                   ltac:(vm_compute; reflexivity)
                   ltac:(vm_compute; reflexivity))) as (_ & Hsuff & _).
    apply Hsuff. left. vm_compute. reflexivity.
Defined.

(** C1, as stated, fails when the retried call fails after the cooldown
    and the health check asks for a refresh again: the first read is
    denied, the recovery logs in once, the second read is denied ten
    seconds later, the operation logs in again and reads a third time. *)
Lemma Read_retries_twice_counterexample :
  snd (answer Scenario.flaky_env Scenario.expired_world (ReqRead "secret/x"))
    = Some "permission denied"
  /\ fst (checkAuthNeeded Scenario.flaky_env
            (sent Scenario.flaky_env InRead (ReqRead "secret/x")
               Scenario.expired_world)) = Returns None
  /\ logins (events (checkAuthNeeded Scenario.flaky_env)
               (sent Scenario.flaky_env InRead (ReqRead "secret/x")
                  Scenario.expired_world)) = 1%nat
  /\ succeeded (fst (Read Scenario.flaky_env 3 "secret/x"
                       Scenario.expired_world))
  /\ logins (events (Read Scenario.flaky_env 3 "secret/x")
               Scenario.expired_world) = 2%nat
  /\ calls InRead (events (Read Scenario.flaky_env 3 "secret/x")
                     Scenario.expired_world) = 3%nat.
Proof.
  split; [reflexivity|]. split; [vm_compute; reflexivity|].
  split; [vm_compute; reflexivity|].
  split; [eexists; vm_compute; reflexivity|].
  split; vm_compute; reflexivity.
Qed.
